(** * ghcr-cleanup-action: a shallow embedding of the cleanup core

    The development follows the TypeScript sources: the manifest analyzer
    (manifest-analyzer.ts), the image filter (image-filter.ts), the
    deletion strategy (deletion-strategy.ts), the image validator
    (image-validator.ts), the image deleter (image-deleter.ts), the
    helpers of utils.ts and the package selection of main.ts.

    JavaScript values are modelled as follows.
    - A [Set<string>] that the code iterates is a duplicate-free
      [list string] in insertion order ([sadd], [sdel], [shas]).
    - [Map<string, Set<string>>] (the digest-used-by map) is a
      [gmap string (gset string)]; the deleter's [deleted] set is a
      [gset string].
    - A value that may be [undefined] is an [option]; an uncaught
      [TypeError] is an abrupt [Completion].
    - Calls that mutate the remote store are recorded in a call log. *)

From Stdlib Require Import ZArith List String Bool Lia Permutation Sorted.
From stdpp Require Import gmap strings list fin_maps.

Import ListNotations.
Local Open Scope string_scope.

(** ** JavaScript helpers *)

(** [s.startsWith(p)] *)
Definition startsWith (s p : string) : bool := String.prefix p s.

(** Truthiness of a string: only the empty string is falsy. *)
Definition truthy (s : string) : bool := negb (String.eqb s "").

(** Truthiness of a possibly undefined string. *)
Definition truthy_opt (o : option string) : option string :=
  match o with
  | Some s => if truthy s then Some s else None
  | None => None
  end.

Fixpoint dropN (n : nat) (s : string) : string :=
  match n, s with
  | O, _ => s
  | S k, EmptyString => EmptyString
  | S k, String _ r => dropN k r
  end.

(** [s.replace(pat, rep)] with a string pattern: the first occurrence only. *)
Fixpoint replace (pat rep s : string) : string :=
  if String.prefix pat s then rep ++ dropN (String.length pat) s
  else match s with
       | EmptyString => EmptyString
       | String c r => String c (replace pat rep r)
       end.

(** *** Insertion-ordered sets of strings *)

Definition shas (x : string) (s : list string) : bool :=
  existsb (String.eqb x) s.

Definition sadd (x : string) (s : list string) : list string :=
  if shas x s then s else s ++ [x].

Definition sdel (x : string) (s : list string) : list string :=
  List.filter (fun y => negb (String.eqb x y)) s.

Definition list_to_sset (l : list string) : list string :=
  fold_left (fun s x => sadd x s) l [].

(** *** Completions *)

Inductive JsError : Type :=
| TypeError (what : string)
| SyntaxError (what : string).

Inductive Completion (A : Type) : Type :=
| Normal (a : A)
| Abrupt (e : JsError).
Arguments Normal {A} a.
Arguments Abrupt {A} e.

Definition cbind {A B} (c : Completion A) (k : A -> Completion B)
  : Completion B :=
  match c with
  | Normal a => k a
  | Abrupt e => Abrupt e
  end.

Notation "'do' x <- c ; k" := (cbind c (fun x => k))
  (at level 10, x name, c at level 100, k at level 200).

(** [for (const x of l) acc = body(x, acc)], stopping at the first throw. *)
Fixpoint forOf {A S} (body : A -> S -> Completion S) (l : list A) (s : S)
  : Completion S :=
  match l with
  | [] => Normal s
  | x :: r => do s' <- body x s; forOf body r s'
  end.

(** ** Data model *)

Record Platform : Type := {
  architecture : option string;
  variant : option string
}.

(** A child descriptor of an index manifest. *)
Record Descriptor : Type := {
  digest : string;
  platform : option Platform;
  artifactType : option string
}.

Record Layer : Type := { mediaType : string }.

(** Manifests are distinguished structurally: [manifests] is present on
    an index manifest, [layers] on an image manifest. *)
Record Manifest : Type := {
  manifests : option (list Descriptor);
  layers : option (list Layer)
}.

(** A package version as returned by the package API
    ([metadata.container.tags] is [tags]; [updated_at] is the parsed
    timestamp in milliseconds, [None] when the field is missing or
    empty). *)
Record Package : Type := {
  pkg_id : positive;
  name : string;
  tags : list string;
  updated_at : option Z
}.

(** Modelled from the spec: package-repo.ts (class PackageRepo) is not
    part of the sources.  The Package Index is a snapshot: the package
    versions in load order and the tag to digest mapping.  [getDigests]
    and [getTags] hand out a fresh set on every call (callers mutate the
    result), and the lookups are keyed by digest and by tag. *)
Record PackageRepo : Type := {
  packages : list Package;
  tag2digest : list (string * string)
}.

Definition getDigests (r : PackageRepo) : list string :=
  list_to_sset (map name (packages r)).

Definition getTags (r : PackageRepo) : list string :=
  list_to_sset (map fst (tag2digest r)).

Definition getPackageByDigest (r : PackageRepo) (d : string)
  : option Package :=
  List.find (fun p => String.eqb (name p) d) (packages r).

Definition getIdByDigest (r : PackageRepo) (d : string) : option positive :=
  option_map pkg_id (getPackageByDigest r d).

Fixpoint assoc (k : string) (l : list (string * string)) : option string :=
  match l with
  | [] => None
  | (k', v) :: r => if String.eqb k k' then Some v else assoc k r
  end.

Definition getDigestByTag (r : PackageRepo) (t : string) : option string :=
  assoc t (tag2digest r).

(** The configuration fields the core reads (config.ts). *)
Record Config : Type := {
  deleteTags : option string;
  excludeTags : option string;
  olderThan : option Z;
  keepNtagged : option nat;
  keepNuntagged : option nat;
  useRegex : bool
}.

(** cleanup-types.ts, [CleanupContext].  The [registry] field stands for
    the manifests the registry serves by digest. *)
Record CleanupContext : Type := {
  config : Config;
  registry : string -> Manifest;
  packageRepo : PackageRepo;
  targetPackage : string
}.

(** Modelled from the spec: registry.ts (class Registry) is not part of
    the sources.  [getManifestByDigest(digest) -> Manifest] fetches a
    manifest by digest; a digest is a content address, so the manifest is
    a function of the digest.  A failed fetch aborts the whole run and is
    not modelled. *)
Definition getManifestByDigest (ctx : CleanupContext) (d : string)
  : Manifest := registry ctx d.

(** ** image-validator.ts *)

Module ImageValidator.

(** [!this.context.packageRepo.getIdByDigest(imageManifest.digest)] *)
Definition childMissing (ctx : CleanupContext) (im : Descriptor) : bool :=
  match getIdByDigest (packageRepo ctx) (digest im) with
  | Some _ => false
  | None => true
  end.

(** The logging branch reads [ghPackage.metadata.container.tags] of the
    flagged digest; it throws when the digest has no package. *)
Definition logFlagged (ctx : CleanupContext) (d : string)
  : Completion unit :=
  match getPackageByDigest (packageRepo ctx) d with
  | Some _ => Normal tt
  | None => Abrupt (TypeError "ghPackage is undefined")
  end.

Definition ghostStep (ctx : CleanupContext) (d : string)
  (ghostImages : list string) : Completion (list string) :=
  match manifests (getManifestByDigest ctx d) with
  | Some ms =>
      let missing := List.length (List.filter (childMissing ctx) ms) in
      if Nat.eqb missing (List.length ms)
      then do _ <- logFlagged ctx d; Normal (sadd d ghostImages)
      else Normal ghostImages
  | None => Normal ghostImages
  end.

Definition findGhostImages (ctx : CleanupContext) (filterSet : list string)
  : Completion (list string) :=
  forOf (ghostStep ctx) filterSet [].

(** The inner loop of [findPartialImages]: the first missing child flags
    the digest and leaves the loop ([break]). *)
Fixpoint partialScan (ctx : CleanupContext) (d : string)
  (ms : list Descriptor) (partialImages : list string)
  : Completion (list string) :=
  match ms with
  | [] => Normal partialImages
  | im :: r =>
      if childMissing ctx im
      then do _ <- logFlagged ctx d; Normal (sadd d partialImages)
      else partialScan ctx d r partialImages
  end.

Definition partialStep (ctx : CleanupContext) (d : string)
  (partialImages : list string) : Completion (list string) :=
  match manifests (getManifestByDigest ctx d) with
  | Some ms => partialScan ctx d ms partialImages
  | None => Normal partialImages
  end.

Definition findPartialImages (ctx : CleanupContext)
  (filterSet : list string) : Completion (list string) :=
  forOf (partialStep ctx) filterSet [].

(** The parent digest that a referrer tag encodes:
    [tag.replace('sha256-', 'sha256:')], cut to its first 71 characters. *)
Definition referrerParent (tag : string) : string :=
  let d := replace "sha256-" "sha256:" tag in
  if Nat.ltb 71 (String.length d) then String.substring 0 71 d else d.

(** One tag of the loop of [findOrphanedImages]. *)
Definition orphanStep (ctx : CleanupContext) (orphanedImages : list string)
  (tag : string) : list string :=
  if startsWith tag "sha256-" then
    match getIdByDigest (packageRepo ctx) (referrerParent tag) with
    | None =>
        match truthy_opt (getDigestByTag (packageRepo ctx) tag) with
        | Some orphanDigest => sadd orphanDigest orphanedImages
        | None => orphanedImages
        end
    | Some _ => orphanedImages
    end
  else orphanedImages.

Definition findOrphanedImages (ctx : CleanupContext) : list string :=
  fold_left (orphanStep ctx) (getTags (packageRepo ctx)) [].

(** cleanup-types.ts, [ValidationResult]. *)
Record ValidationResult : Type := {
  hasErrors : bool;
  ghostImages : list string;
  partialImages : list string;
  orphanedImages : list string
}.

(** The state of the first loop of [validate]: [hasErrors],
    [processedManifests] and the working set [digests]. *)
Record ValidateState : Type := {
  seenErrors : bool;
  processedManifests : list string;
  workingDigests : list string
}.

Definition validateChild (ctx : CleanupContext) (st : ValidateState)
  (childImage : Descriptor) : ValidateState :=
  {| seenErrors :=
       if childMissing ctx childImage then true else seenErrors st;
     processedManifests := sadd (digest childImage) (processedManifests st);
     workingDigests := sdel (digest childImage) (workingDigests st) |}.

(** The body of [for (const digest of digests)] in [validate]; the tags
    of the digest are read before its children are looked at. *)
Definition validateDigest (ctx : CleanupContext) (d : string)
  (st : ValidateState) : Completion ValidateState :=
  if shas d (workingDigests st) then
    if shas d (processedManifests st) then Normal st
    else
      match getPackageByDigest (packageRepo ctx) d with
      | None => Abrupt (TypeError "getPackageByDigest(digest) is undefined")
      | Some _ =>
          match manifests (getManifestByDigest ctx d) with
          | Some ms => Normal (fold_left (validateChild ctx) ms st)
          | None => Normal st
          end
      end
  else Normal st.

(** The second loop of [validate], over the tags in use. *)
Definition validateTag (ctx : CleanupContext) (errors : bool) (tag : string)
  : bool :=
  if startsWith tag "sha256-" then
    match getIdByDigest (packageRepo ctx) (referrerParent tag) with
    | None => true
    | Some _ => errors
    end
  else errors.

Definition validate (ctx : CleanupContext) : Completion ValidationResult :=
  let digests := getDigests (packageRepo ctx) in
  do st <- forOf (validateDigest ctx) digests
             {| seenErrors := false; processedManifests := [];
                workingDigests := digests |};
  Normal {| hasErrors :=
              fold_left (validateTag ctx) (getTags (packageRepo ctx))
                (seenErrors st);
            ghostImages := []; partialImages := []; orphanedImages := [] |}.

End ImageValidator.

(** ** manifest-analyzer.ts *)

Module ManifestAnalyzer.

(** One child descriptor of the manifest of [d]: a child that is still in
    [digests] gets [d] added to its parent set and is removed from
    [digests] (the same set the enclosing loop iterates). *)
Definition recordChild (d : string)
  (st : list string * gmap string (gset string)) (im : Descriptor)
  : list string * gmap string (gset string) :=
  let '(digests, digestUsedBy) := st in
  if shas (digest im) digests then
    let parents :=
      match digestUsedBy !! digest im with
      | Some ps => ps
      | None => ∅
      end in
    (sdel (digest im) digests, <[digest im := parents ∪ {[d]}]> digestUsedBy)
  else st.

(** The body of [for (const digest of digests)].  The iterator of a
    JavaScript [Set] skips an element that was deleted before it was
    reached, hence the membership test on the current set. *)
Definition analyze (ctx : CleanupContext)
  (st : list string * gmap string (gset string)) (d : string)
  : list string * gmap string (gset string) :=
  if shas d (fst st) then
    match manifests (getManifestByDigest ctx d) with
    | Some ms => fold_left (recordChild d) ms st
    | None => st
    end
  else st.

Definition loadDigestUsedByMap (ctx : CleanupContext)
  : gmap string (gset string) :=
  let digests := getDigests (packageRepo ctx) in
  snd (fold_left (analyze ctx) digests (digests, ∅)).

(** [buildLabel]: [manifest.layers[0].mediaType] throws on an empty
    layer list. *)
Definition buildLabel (ctx : CleanupContext) (imageManifest : Descriptor)
  : Completion string :=
  match platform imageManifest with
  | Some p =>
      let label :=
        match truthy_opt (architecture p) with
        | Some a => a
        | None => ""
        end in
      if negb (String.eqb label "unknown") then
        let label :=
          match truthy_opt (variant p) with
          | Some v => label +:+ "/" +:+ v
          | None => label
          end in
        Normal ("architecture: " +:+ label)
      else
        match layers (getManifestByDigest ctx (digest imageManifest)) with
        | Some [] => Abrupt (TypeError "manifest.layers[0] is undefined")
        | Some (l0 :: _) =>
            if String.eqb (mediaType l0) "application/vnd.in-toto+json"
            then Normal "application/vnd.in-toto+json"
            else Normal label
        | None => Normal label
        end
  | None =>
      match truthy_opt (artifactType imageManifest) with
      | Some a =>
          if startsWith a "application/vnd.dev.sigstore.bundle"
          then Normal "sigstore attestation"
          else Normal a
      | None => Normal ""
      end
  end.

(** Labels of the children of [ms] that exist in [digests]. *)
Definition primeChildren (ctx : CleanupContext) (digests : list string)
  (ms : list Descriptor) : Completion unit :=
  forOf (fun im (_ : unit) =>
           if shas (digest im) digests
           then do _ <- buildLabel ctx im; Normal tt
           else Normal tt) ms tt.

Definition primeOne (ctx : CleanupContext) (digests : list string)
  (d : string) (_ : unit) : Completion unit :=
  do _ <- match manifests (getManifestByDigest ctx d) with
          | Some ms => primeChildren ctx digests ms
          | None => Normal tt
          end;
  let digestTag := replace "sha256:" "sha256-" d in
  forOf (fun tag (_ : unit) =>
           if startsWith tag digestTag then
             match truthy_opt (getDigestByTag (packageRepo ctx) tag) with
             | Some tagDigest =>
                 match manifests (getManifestByDigest ctx tagDigest) with
                 | Some ms => primeChildren ctx digests ms
                 | None => Normal tt
                 end
             | None => Normal tt
             end
           else Normal tt) (getTags (packageRepo ctx)) tt.

Definition primeManifests (ctx : CleanupContext) (deleteSet : list string)
  : Completion unit :=
  forOf (primeOne ctx (getDigests (packageRepo ctx))) deleteSet tt.

Section FilterSet.

(** Modelled from the spec: [getManifestByTag(tag) -> Manifest] of the
    missing registry.ts, the manifest the registry serves under a tag. *)
Variable getManifestByTag : string -> Manifest.

(** [for (...) digests.delete(entry.digest)] *)
Definition dropChildren (ms : list Descriptor) (digests : list string)
  : list string :=
  fold_left (fun ds im => sdel (digest im) ds) ms digests.

(** One tag of the referrer loop of [initFilterSet]. *)
Definition dropReferrer (ctx : CleanupContext) (digestTag : string)
  (digests : list string) (tag : string) : list string :=
  if startsWith tag digestTag then
    match truthy_opt (getDigestByTag (packageRepo ctx) tag) with
    | Some tagDigest =>
        let digests := sdel tagDigest digests in
        match manifests (getManifestByTag tag) with
        | Some ms => dropChildren ms digests
        | None => digests
        end
    | None => digests
    end
  else digests.

(** The body of [for (const digest of digests)] in [initFilterSet]; a
    digest that was deleted before the iterator reached it is skipped. *)
Definition filterStep (ctx : CleanupContext) (digests : list string)
  (d : string) : list string :=
  if shas d digests then
    let digests :=
      match manifests (getManifestByDigest ctx d) with
      | Some ms => dropChildren ms digests
      | None => digests
      end in
    fold_left (dropReferrer ctx (replace "sha256:" "sha256-" d))
      (getTags (packageRepo ctx)) digests
  else digests.

Definition initFilterSet (ctx : CleanupContext) : list string :=
  let digests := getDigests (packageRepo ctx) in
  fold_left (filterStep ctx) digests digests.

End FilterSet.

End ManifestAnalyzer.

(** ** image-filter.ts *)

Module ImageFilter.

Section Matching.

(** The pattern matchers are library code.  [regexTest p] is
    [new RegExp(p)]: [None] when the constructor throws a [SyntaxError]
    on an invalid pattern, otherwise the [test] method of the regular
    expression.  [wcmatch patterns] is the matcher that the
    wildcard-match package builds from a list of patterns. *)
Variable regexTest : string -> option (string -> bool).
Variable wcmatch : list string -> string -> bool.

Fixpoint splitOn (sep : Ascii.ascii) (s : string) : list string :=
  match s with
  | EmptyString => [EmptyString]
  | String c r =>
      if Ascii.eqb c sep then EmptyString :: splitOn sep r
      else match splitOn sep r with
           | [] => [String c EmptyString]
           | w :: ws => String c w :: ws
           end
  end.

(** [deleteTags.split(',')] *)
Definition splitComma (s : string) : list string := splitOn (Ascii.ascii_of_nat 44) s.

(** The matcher of a pattern: [new RegExp(pattern)] in regex mode,
    [wcmatch(pattern.split(','))] otherwise. *)
Definition isTagMatch (useRegex : bool) (pattern : string)
  : Completion (string -> bool) :=
  if useRegex then
    match regexTest pattern with
    | Some test => Normal test
    | None => Abrupt (SyntaxError "Invalid regular expression")
    end
  else Normal (wcmatch (splitComma pattern)).

(** [for (const tag of ghPackage.metadata.container.tags)] for one digest
    of the filter set; throws when the digest has no package. *)
Definition expandDigest (ctx : CleanupContext) (m : string -> bool)
  (d : string) (matchTags : list string) : Completion (list string) :=
  match getPackageByDigest (packageRepo ctx) d with
  | Some ghPackage =>
      Normal (fold_left (fun acc tag => if m tag then sadd tag acc else acc)
                (tags ghPackage) matchTags)
  | None => Abrupt (TypeError "ghPackage is undefined")
  end.

Definition expandTags (ctx : CleanupContext) (filterSet : list string)
  : Completion (list string) :=
  match truthy_opt (deleteTags (config ctx)) with
  | None => Normal []
  | Some pattern =>
      do m <- isTagMatch (useRegex (config ctx)) pattern;
      do matchTags <- forOf (expandDigest ctx m) filterSet [];
      Normal (fold_left (fun acc d => if m d then sadd d acc else acc)
                filterSet matchTags)
  end.

(** The two loops of [applyExclusionFilters]; the state is the returned
    [excludeTags] array and the caller's filter set. *)
Definition excludeTagStep (ctx : CleanupContext) (m : string -> bool)
  (st : list string * list string) (tag : string)
  : list string * list string :=
  if m tag then
    ((fst st ++ [tag])%list,
     match truthy_opt (getDigestByTag (packageRepo ctx) tag) with
     | Some d => sdel d (snd st)
     | None => snd st
     end)
  else st.

Definition excludeDigestStep (m : string -> bool)
  (st : list string * list string) (d : string)
  : list string * list string :=
  if m d then ((fst st ++ [d])%list, sdel d (snd st)) else st.

(** [applyExclusionFilters]: the excluded names, and the filter set as
    the call leaves it. *)
Definition applyExclusionFilters (ctx : CleanupContext)
  (filterSet : list string) : Completion (list string * list string) :=
  match truthy_opt (excludeTags (config ctx)) with
  | None => Normal ([], filterSet)
  | Some pattern =>
      do m <- isTagMatch (useRegex (config ctx)) pattern;
      Normal
        (fold_left (excludeDigestStep m) (getDigests (packageRepo ctx))
           (fold_left (excludeTagStep ctx m) (getTags (packageRepo ctx))
              ([], filterSet)))
  end.

End Matching.




End ImageFilter.

(** ** deletion-strategy.ts *)

Module DeletionStrategy.

(** cleanup-types.ts, [DeletionPlan].  [untagOperations] is a
    [Map<string, string[]>]; it is iterated later, so it is kept in
    insertion order. *)
Record DeletionPlan : Type := {
  deleteSet : list string;
  untagOperations : list (string * list string)
}.

(** [plan.untagOperations.get(d).push(tag)], after creating the entry of
    [d] when it is missing. *)
Fixpoint pushOperation (d tag : string) (ops : list (string * list string))
  : list (string * list string) :=
  match ops with
  | [] => [(d, [tag])]
  | (k, ts) :: r =>
      if String.eqb k d then (k, (ts ++ [tag])%list) :: r
      else (k, ts) :: pushOperation d tag r
  end.

(** The first loop over [matchTags].  The state is [standardTags] and
    [plan.untagOperations] ([untaggingTags] is only written, never
    read). *)
Definition classifyTag (ctx : CleanupContext) (excludeTags : list string)
  (tag : string) (st : list string * list (string * list string))
  : Completion (list string * list (string * list string)) :=
  let '(standardTags, operations) := st in
  if shas tag excludeTags then Normal st
  else if startsWith tag "sha256:" then Normal (sadd tag standardTags, operations)
  else
    match truthy_opt (getDigestByTag (packageRepo ctx) tag) with
    | Some manifestDigest =>
        match getPackageByDigest (packageRepo ctx) manifestDigest with
        | Some ghPackage =>
            if Nat.ltb 1 (List.length (tags ghPackage))
            then Normal (standardTags, pushOperation manifestDigest tag operations)
            else if Nat.eqb (List.length (tags ghPackage)) 1
            then Normal (sadd tag standardTags, operations)
            else Normal st
        | None => Abrupt (TypeError "ghPackage is undefined")
        end
    | None => Normal st
    end.

(** The second loop, over [standardTags].  The state is [plan.deleteSet]
    and the caller's [filterSet]. *)
Definition stageTag (ctx : CleanupContext)
  (st : list string * list string) (tag : string)
  : list string * list string :=
  let manifestDigest :=
    if startsWith tag "sha256:" then Some tag
    else getDigestByTag (packageRepo ctx) tag in
  match truthy_opt manifestDigest with
  | Some d => (sadd d (fst st), sdel d (snd st))
  | None => st
  end.

Section Strategy.

Variable regexTest : string -> option (string -> bool).
Variable wcmatch : list string -> string -> bool.

(** [processTagDeletions]: the plan, and the filter set as the call
    leaves it. *)
Definition processTagDeletions (ctx : CleanupContext)
  (filterSet : list string) (excludeTags : list string)
  : Completion (DeletionPlan * list string) :=
  let plan := {| deleteSet := []; untagOperations := [] |} in
  match truthy_opt (deleteTags (config ctx)) with
  | None => Normal (plan, filterSet)
  | Some _ =>
      do matchTags <- ImageFilter.expandTags regexTest wcmatch ctx filterSet;
      if Nat.eqb (List.length matchTags) 0 then Normal (plan, filterSet)
      else
        do cls <- forOf (classifyTag ctx excludeTags) matchTags ([], []);
        let '(standardTags, operations) := cls in
        if Nat.ltb 0 (List.length standardTags) &&
           match keepNtagged (config ctx) with
           | None => true
           | Some _ => false
           end
        then
          let st := fold_left (stageTag ctx) standardTags ([], filterSet) in
          Normal ({| deleteSet := fst st; untagOperations := operations |},
                  snd st)
        else
          Normal ({| deleteSet := []; untagOperations := operations |},
                  filterSet)
  end.

End Strategy.

(** The comparator of the keep-N sorts,
    [Date.parse(b.updated_at) - Date.parse(a.updated_at)]; [None] is NaN,
    the value of [Date.parse] on a missing timestamp. *)
Definition byDateDesc (a b : Package) : option Z :=
  match updated_at b, updated_at a with
  | Some tb, Some ta => Some (tb - ta)%Z
  | _, _ => None
  end.

(** [deleteSet.add(p.name); filterSet.delete(p.name)] *)
Definition stagePackage (st : list string * list string) (p : Package)
  : list string * list string :=
  (sadd (name p) (fst st), sdel (name p) (snd st)).

Definition collectUntagged (ctx : CleanupContext) (d : string)
  (unTaggedPackages : list Package) : Completion (list Package) :=
  match getPackageByDigest (packageRepo ctx) d with
  | Some ghPackage =>
      if Nat.eqb (List.length (tags ghPackage)) 0
      then Normal (unTaggedPackages ++ [ghPackage])%list
      else Normal unTaggedPackages
  | None => Abrupt (TypeError "ghPackage is undefined")
  end.

Definition collectTagged (ctx : CleanupContext) (d : string)
  (taggedPackages : list Package) : Completion (list Package) :=
  match getPackageByDigest (packageRepo ctx) d with
  | Some ghPackage =>
      if Nat.ltb 0 (List.length (tags ghPackage))
      then Normal (taggedPackages ++ [ghPackage])%list
      else Normal taggedPackages
  | None => Abrupt (TypeError "ghPackage is undefined")
  end.

(** One expanded tag of the selector branch of [keepNTagged]. *)
Definition collectMatched (ctx : CleanupContext)
  (taggedPackages : list Package) (tag : string) : list Package :=
  match truthy_opt (getDigestByTag (packageRepo ctx) tag) with
  | Some d =>
      match getPackageByDigest (packageRepo ctx) d with
      | Some ghPackage => (taggedPackages ++ [ghPackage])%list
      | None => taggedPackages
      end
  | None => taggedPackages
  end.

(** The staging loop of [keepNTagged], which looks the package up again
    for its log line. *)
Definition stageTagged (ctx : CleanupContext) (p : Package)
  (st : list string * list string) : Completion (list string * list string) :=
  match getPackageByDigest (packageRepo ctx) (name p) with
  | Some _ => Normal (stagePackage st p)
  | None => Abrupt (TypeError "ghPackage is undefined")
  end.

(** One digest of the loop of [deleteAllUntagged], which deletes from
    the set it iterates. *)
Definition untaggedStep (ctx : CleanupContext) (d : string)
  (st : list string * list string) : Completion (list string * list string) :=
  if shas d (snd st) then
    match getPackageByDigest (packageRepo ctx) d with
    | Some ghPackage =>
        if Nat.eqb (List.length (tags ghPackage)) 0
        then Normal (sadd d (fst st), sdel d (snd st))
        else Normal st
    | None => Abrupt (TypeError "ghPackage is undefined")
    end
  else Normal st.

(** [deleteAllUntagged]: the delete-set, and the filter set as the call
    leaves it. *)
Definition deleteAllUntagged (ctx : CleanupContext) (filterSet : list string)
  : Completion (list string * list string) :=
  forOf (untaggedStep ctx) filterSet ([], filterSet).

Section Policies.

(** [Array.prototype.sort(compare)] is library code; the comparator may
    answer NaN ([None]). *)
Variable arraySort :
  (Package -> Package -> option Z) -> list Package -> list Package.
Variable regexTest : string -> option (string -> bool).
Variable wcmatch : list string -> string -> bool.

(** [keepNUntagged]: the delete-set, and the filter set as the call
    leaves it.  [splice(n)] cuts the sorted array after its first [n]
    elements and returns the rest. *)
Definition keepNUntagged (ctx : CleanupContext) (filterSet : list string)
  : Completion (list string * list string) :=
  match keepNuntagged (config ctx) with
  | None => Normal ([], filterSet)
  | Some n =>
      do unTaggedPackages <- forOf (collectUntagged ctx) filterSet [];
      if Nat.ltb 0 (List.length unTaggedPackages) then
        let sorted := arraySort byDateDesc unTaggedPackages in
        if Nat.ltb n (List.length sorted)
        then Normal (fold_left stagePackage (skipn n sorted) ([], filterSet))
        else Normal ([], filterSet)
      else Normal ([], filterSet)
  end.

(** [keepNTagged]; [deleteTags != null] holds for every string, the
    empty one included. *)
Definition keepNTagged (ctx : CleanupContext) (filterSet : list string)
  : Completion (list string * list string) :=
  match keepNtagged (config ctx) with
  | None => Normal ([], filterSet)
  | Some n =>
      do taggedPackages <-
        match deleteTags (config ctx) with
        | Some _ =>
            do matchTags <-
              ImageFilter.expandTags regexTest wcmatch ctx filterSet;
            Normal (fold_left (collectMatched ctx) matchTags [])
        | None => forOf (collectTagged ctx) filterSet []
        end;
      let sorted := arraySort byDateDesc taggedPackages in
      if Nat.ltb n (List.length sorted)
      then forOf (stageTagged ctx) (skipn n sorted) ([], filterSet)
      else Normal ([], filterSet)
  end.

End Policies.

End DeletionStrategy.

(** ** image-deleter.ts *)

(** The calls that change the remote store or the snapshot. *)
Inductive Call : Type :=
| PutManifest (tag : string) (manifest : Manifest) (isIndexManifest : bool)
| LoadPackages (target : string) (reset : bool)
| DeletePackageVersion (target : string) (id : positive) (d : string)
    (tagList : list string) (label : option string).

(** What [deleteImage] returns: [{ deleted, multiDeleted }]. *)
Record Counts : Type := {
  imagesDeleted : nat;
  multiImagesDeleted : nat
}.

(** The object state of class [ImageDeleter]; [calls] is the log of the
    calls issued so far. *)
Record ImageDeleter : Type := {
  context : CleanupContext;
  deleted : gset string;
  digestUsedBy : gmap string (gset string);
  calls : list Call
}.

Module Deleter.

Definition issue (self : ImageDeleter) (c : Call) : ImageDeleter :=
  {| context := context self; deleted := deleted self;
     digestUsedBy := digestUsedBy self; calls := (calls self ++ [c])%list |}.

Definition markDeleted (self : ImageDeleter) (d : string) : ImageDeleter :=
  {| context := context self; deleted := deleted self ∪ {[d]};
     digestUsedBy := digestUsedBy self; calls := calls self |}.

Definition setUsedBy (self : ImageDeleter) (m : gmap string (gset string))
  : ImageDeleter :=
  {| context := context self; deleted := deleted self;
     digestUsedBy := m; calls := calls self |}.

Definition setRepo (self : ImageDeleter) (r : PackageRepo) : ImageDeleter :=
  {| context := {| config := config (context self);
                   registry := registry (context self);
                   packageRepo := r;
                   targetPackage := targetPackage (context self) |};
     deleted := deleted self; digestUsedBy := digestUsedBy self;
     calls := calls self |}.

(** [reset()] *)
Definition reset (self : ImageDeleter) : ImageDeleter :=
  {| context := context self; deleted := ∅;
     digestUsedBy := digestUsedBy self; calls := calls self |}.

Section Untagging.

(** Modelled from the spec: [loadPackages(target, false)] of the missing
    package-repo.ts refreshes the snapshot from the remote store.  The
    content of the store is a function of the calls issued so far, so the
    refreshed snapshot is a function of the call log and of the previous
    snapshot. *)
Variable loadPackages : list Call -> PackageRepo -> PackageRepo.

(** The clone of the manifest with its child list, or else its layer
    list, emptied, as written back under the tag. *)
Definition fakeManifest (tag : string) (manifest : Manifest) : Call :=
  match manifests manifest with
  | Some _ =>
      PutManifest tag {| manifests := Some []; layers := layers manifest |} true
  | None =>
      PutManifest tag {| manifests := None; layers := Some [] |} false
  end.

(** The body of the inner loop of [performUntagging]. *)
Definition untagTag (manifestDigest tag : string) (self : ImageDeleter)
  : Completion ImageDeleter :=
  let ctx := context self in
  match getPackageByDigest (packageRepo ctx) manifestDigest with
  | None => Abrupt (TypeError "ghPackage is undefined")
  | Some ghPackage =>
      if Nat.ltb 1 (List.length (tags ghPackage)) then
        let manifest := getManifestByDigest ctx manifestDigest in
        let s1 := issue self (fakeManifest tag manifest) in
        let s2 := issue s1 (LoadPackages (targetPackage ctx) false) in
        let s3 := setRepo s2 (loadPackages (calls s2) (packageRepo ctx)) in
        let repo := packageRepo (context s3) in
        match truthy_opt (getDigestByTag repo tag) with
        | Some untaggedDigest =>
            match getIdByDigest repo untaggedDigest with
            | Some id =>
                Normal (issue s3 (DeletePackageVersion (targetPackage ctx)
                                    id untaggedDigest [tag] None))
            | None => Normal s3
            end
        | None => Normal s3
        end
      else Normal self
  end.

Definition untagEntry (entry : string * list string) (self : ImageDeleter)
  : Completion ImageDeleter :=
  forOf (untagTag (fst entry)) (snd entry) self.

Definition performUntagging (untagOperations : list (string * list string))
  (self : ImageDeleter) : Completion (bool * ImageDeleter) :=
  if Nat.eqb (List.length untagOperations) 0 then Normal (false, self)
  else do self' <- forOf untagEntry untagOperations self;
       Normal (true, self').

End Untagging.

(** One child descriptor of the manifest of [ghPackage]; the state is
    the deleter and [imagesDeleted]. *)
Definition deleteChild (ghPackage : Package) (imageManifest : Descriptor)
  (st : ImageDeleter * nat) : Completion (ImageDeleter * nat) :=
  let '(self, n) := st in
  let ctx := context self in
  match getPackageByDigest (packageRepo ctx) (digest imageManifest) with
  | Some manifestPackage =>
      if bool_decide (name manifestPackage ∈ deleted self) then Normal st
      else
        match digestUsedBy self !! name manifestPackage with
        | Some parents =>
            if Nat.eqb (size parents) 1 &&
               bool_decide (name ghPackage ∈ parents)
            then
              do label <- ManifestAnalyzer.buildLabel ctx imageManifest;
              let s1 := issue self
                (DeletePackageVersion (targetPackage ctx)
                   (pkg_id manifestPackage) (name manifestPackage) []
                   (Some label)) in
              let s2 := markDeleted s1 (name manifestPackage) in
              Normal (setUsedBy s2
                        (delete (name manifestPackage) (digestUsedBy s2)),
                      S n)
            else
              Normal (setUsedBy self
                        (<[name manifestPackage :=
                             parents ∖ {[name ghPackage]}]>
                           (digestUsedBy self)),
                      n)
        | None => Normal st
        end
  | None => Normal st
  end.

Definition addCounts (a b : Counts) : Counts :=
  {| imagesDeleted := imagesDeleted a + imagesDeleted b;
     multiImagesDeleted := multiImagesDeleted a + multiImagesDeleted b |}.

(** The referrer loop of [deleteImage]; [rec] is the recursive call. *)
Fixpoint referrers
  (rec : ImageDeleter -> Package -> option (Completion (Counts * ImageDeleter)))
  (digestTag : string) (tagsInUse : list string)
  (acc : Counts * ImageDeleter)
  : option (Completion (Counts * ImageDeleter)) :=
  match tagsInUse with
  | [] => Some (Normal acc)
  | tag :: rest =>
      let repo := packageRepo (context (snd acc)) in
      if startsWith tag digestTag then
        match truthy_opt (getDigestByTag repo tag) with
        | Some manifestDigest =>
            match getPackageByDigest repo manifestDigest with
            | Some attestationPackage =>
                match rec (snd acc) attestationPackage with
                | Some (Normal (result, self')) =>
                    referrers rec digestTag rest
                      (addCounts (fst acc) result, self')
                | Some (Abrupt e) => Some (Abrupt e)
                | None => None
                end
            | None => referrers rec digestTag rest acc
            end
        | None => referrers rec digestTag rest acc
        end
      else referrers rec digestTag rest acc
  end.

(** [deleteImage], by recursion on a fuel bound; [None] means the bound
    was reached. *)
Fixpoint deleteImageF (fuel : nat) (self : ImageDeleter) (ghPackage : Package)
  : option (Completion (Counts * ImageDeleter)) :=
  match fuel with
  | O => None
  | S fuel' =>
      if bool_decide (name ghPackage ∈ deleted self)
      then Some (Normal ({| imagesDeleted := 0; multiImagesDeleted := 0 |}, self))
      else
        let ctx := context self in
        let manifest := getManifestByDigest ctx (name ghPackage) in
        let s1 := markDeleted
          (issue self (DeletePackageVersion (targetPackage ctx)
                         (pkg_id ghPackage) (name ghPackage)
                         (tags ghPackage) None))
          (name ghPackage) in
        let children :=
          match manifests manifest with
          | Some ms =>
              do st <- forOf (deleteChild ghPackage) ms (s1, 1);
              Normal ({| imagesDeleted := snd st; multiImagesDeleted := 1 |},
                      fst st)
          | None =>
              Normal ({| imagesDeleted := 1; multiImagesDeleted := 0 |}, s1)
          end in
        match children with
        | Abrupt e => Some (Abrupt e)
        | Normal acc =>
            let digestTag := replace "sha256:" "sha256-" (name ghPackage) in
            referrers (deleteImageF fuel') digestTag
              (getTags (packageRepo ctx)) acc
        end
  end.

(** A bound that suffices: every nested call deletes a package of the
    index that was not deleted before. *)
Definition enoughFuel (self : ImageDeleter) : nat :=
  S (S (List.length (packages (packageRepo (context self))))).

Definition deleteImage (self : ImageDeleter) (ghPackage : Package)
  : option (Completion (Counts * ImageDeleter)) :=
  deleteImageF (enoughFuel self) self ghPackage.

(** The loop of [deleteImages]; [deleteImage(undefined)] throws on
    [ghPackage.name]. *)
Fixpoint deleteEach (deleteSet : list string) (acc : Counts * ImageDeleter)
  : option (Completion (Counts * ImageDeleter)) :=
  match deleteSet with
  | [] => Some (Normal acc)
  | deleteDigest :: rest =>
      match getPackageByDigest (packageRepo (context (snd acc))) deleteDigest with
      | Some pkg =>
          match deleteImage (snd acc) pkg with
          | Some (Normal (result, self')) =>
              deleteEach rest (addCounts (fst acc) result, self')
          | Some (Abrupt e) => Some (Abrupt e)
          | None => None
          end
      | None => Some (Abrupt (TypeError "ghPackage is undefined"))
      end
  end.

(** [deleteImages]: the totals ([numberImagesDeleted],
    [numberMultiImagesDeleted]) and the deleter, whose [deleted] set is
    the [deleted] of the result. *)
Definition deleteImages (self : ImageDeleter) (deleteSet : list string)
  : option (Completion (Counts * ImageDeleter)) :=
  match ManifestAnalyzer.primeManifests (context self) deleteSet with
  | Abrupt e => Some (Abrupt e)
  | Normal _ =>
      deleteEach deleteSet
        ({| imagesDeleted := 0; multiImagesDeleted := 0 |}, self)
  end.

End Deleter.

(** ** Vocabulary of the statements *)

(** The digests of the snapshot, as a finite set. *)
Definition indexDigests (r : PackageRepo) : gset string :=
  list_to_set (map name (packages r)).

(** The parent set of a child, empty when the map has no entry. *)
Definition usedBy (m : gmap string (gset string)) (c : string) : gset string :=
  match m !! c with
  | Some ps => ps
  | None => ∅
  end.


(** The part of the index that the deleter has not deleted yet, and
    whether a package lies outside the index: the measure behind
    [Deleter.enoughFuel]. *)
Definition remaining (self : ImageDeleter) : nat :=
  size (indexDigests (packageRepo (context self)) ∖ deleted self).

Definition outside (self : ImageDeleter) (gh : Package) : nat :=
  if bool_decide (name gh ∈ indexDigests (packageRepo (context self)))
  then 0 else 1.

(** A normal completion of a deleter method keeps the context and only
    adds to the [deleted] set. *)
Definition grows (self : ImageDeleter)
  (out : Completion (Counts * ImageDeleter)) : Prop :=
  forall cnt s', out = Normal (cnt, s') ->
    context s' = context self /\ deleted self ⊆ deleted s'.




(** The state of the analyzer loop records a child once: a recorded
    child has left the working set, and its parent set has one element. *)
Definition recorded (st : list string * gmap string (gset string)) : Prop :=
  forall c ps, snd st !! c = Some ps -> size ps = 1 /\ shas c (fst st) = false.

(** The untag operations hold tag [t] for digest [d]. *)
Definition scheduled (ops : list (string * list string)) (d t : string)
  : Prop :=
  exists ts, In (d, ts) ops /\ In t ts.

(** What the first loop guarantees for one matched tag. *)
Definition classified (ctx : CleanupContext) (excludeTags : list string)
  (tag : string) (st : list string * list (string * list string)) : Prop :=
  shas tag excludeTags = false ->
  (startsWith tag "sha256:" = true -> In tag (fst st)) /\
  (forall d gh, startsWith tag "sha256:" = false ->
     getDigestByTag (packageRepo ctx) tag = Some d -> d <> "" ->
     getPackageByDigest (packageRepo ctx) d = Some gh ->
     (List.length (tags gh) = 1 -> In tag (fst st)) /\
     (1 < List.length (tags gh) -> scheduled (snd st) d tag)).

Definition extends (st st' : list string * list (string * list string)) : Prop :=
  (forall x, In x (fst st) -> In x (fst st')) /\
  (forall d t, scheduled (snd st) d t -> scheduled (snd st') d t).

(** What the second loop guarantees for one standard tag. *)
Definition staged (ctx : CleanupContext) (tag : string)
  (st : list string * list string) : Prop :=
  (startsWith tag "sha256:" = true -> In tag (fst st) /\ ~ In tag (snd st)) /\
  (forall d, startsWith tag "sha256:" = false ->
     getDigestByTag (packageRepo ctx) tag = Some d -> d <> "" ->
     In d (fst st) /\ ~ In d (snd st)).

Definition narrows (st st' : list string * list string) : Prop :=
  (forall x, In x (fst st) -> In x (fst st')) /\
  (forall x, In x (snd st') -> In x (snd st)).

(** The pairs of digest and tag of an untag-operations map, in the order
    in which [performUntagging] goes through them. *)
Definition untagSteps (ops : list (string * list string))
  : list (string * string) :=
  flat_map (fun entry => map (pair (fst entry)) (snd entry)) ops.

(** ** Concrete repositories *)

Module Scenarios.

Definition pkg (i : positive) (n : string) (ts : list string) : Package :=
  {| pkg_id := i; name := n; tags := ts; updated_at := None |}.


Definition child (d : string) : Descriptor :=
  {| digest := d; platform := None; artifactType := None |}.

Definition indexOf (ds : list string) : Manifest :=
  {| manifests := Some (map child ds); layers := None |}.

Definition image : Manifest :=
  {| manifests := None;
     layers := Some [{| mediaType := "application/vnd.oci.image.layer.v1.tar+gzip" |}] |}.

Definition noOptions : Config :=
  {| deleteTags := None; excludeTags := None; olderThan := None;
     keepNtagged := None; keepNuntagged := None; useRegex := false |}.

Definition newDeleter (ctx : CleanupContext)
  (m : gmap string (gset string)) : ImageDeleter :=
  {| context := ctx; deleted := ∅; digestUsedBy := m; calls := [] |}.

(** Scenarios A and B: [P] lists [C1] and [C2]; [Q] lists [C1]. *)
Definition pkgP : Package := pkg 1 "sha256:P" ["v1"].

Definition ctxAB : CleanupContext :=
  {| config := noOptions;
     registry := fun d =>
       if String.eqb d "sha256:P" then indexOf ["sha256:C1"; "sha256:C2"]
       else if String.eqb d "sha256:Q" then indexOf ["sha256:C1"]
       else image;
     packageRepo :=
       {| packages := [pkgP; pkg 2 "sha256:C1" []; pkg 3 "sha256:C2" [];
                       pkg 4 "sha256:Q" ["v2"]];
          tag2digest := [("v1", "sha256:P"); ("v2", "sha256:Q")] |};
     targetPackage := "app" |}.

Definition deleterA : ImageDeleter :=
  newDeleter ctxAB
    (<["sha256:C1" := {["sha256:P"]}]> (<["sha256:C2" := {["sha256:P"]}]> ∅)).


(** Two index manifests that share a child. *)
Definition ctxShared : CleanupContext :=
  {| config := noOptions;
     registry := fun d =>
       if String.eqb d "sha256:P1" then indexOf ["sha256:c"]
       else if String.eqb d "sha256:P2" then indexOf ["sha256:c"]
       else image;
     packageRepo :=
       {| packages := [pkg 1 "sha256:P1" ["v1"]; pkg 2 "sha256:P2" ["v2"];
                       pkg 3 "sha256:c" []];
          tag2digest := [("v1", "sha256:P1"); ("v2", "sha256:P2")] |};
     targetPackage := "app" |}.

(** A nested index: [P] lists [C], [C] lists [G], and [C] has a referrer
    [A] under the tag [sha256-C.att]. *)
Definition ctxNested : CleanupContext :=
  {| config := noOptions;
     registry := fun d =>
       if String.eqb d "sha256:P" then indexOf ["sha256:C"]
       else if String.eqb d "sha256:C" then indexOf ["sha256:G"]
       else image;
     packageRepo :=
       {| packages := [pkgP; pkg 2 "sha256:C" []; pkg 3 "sha256:G" [];
                       pkg 4 "sha256:A" ["sha256-C.att"]];
          tag2digest := [("v1", "sha256:P"); ("sha256-C.att", "sha256:A")] |};
     targetPackage := "app" |}.

Definition deleterNested : ImageDeleter :=
  newDeleter ctxNested
    (<["sha256:C" := {["sha256:P"]}]> (<["sha256:G" := {["sha256:C"]}]> ∅)).



(** A package with two tags, one with a single tag, and a remote store
    that answers a manifest written under [tag] with a fresh package
    version [sha256:empty] holding that tag. *)
Definition ctxTags : CleanupContext :=
  {| config := noOptions;
     registry := fun _ => image;
     packageRepo :=
       {| packages := [pkg 1 "sha256:multi" ["v1.0"; "latest"];
                       pkg 2 "sha256:single" ["only"]];
          tag2digest := [("v1.0", "sha256:multi"); ("latest", "sha256:multi");
                         ("only", "sha256:single")] |};
     targetPackage := "app" |}.

Fixpoint lastPut (cs : list Call) : option string :=
  match cs with
  | [] => None
  | c :: r =>
      match lastPut r with
      | Some t => Some t
      | None => match c with
                | PutManifest t _ _ => Some t
                | _ => None
                end
      end
  end.

Definition reloadTags (cs : list Call) (r : PackageRepo) : PackageRepo :=
  match lastPut cs with
  | Some t =>
      {| packages := (packages r ++ [pkg 9 "sha256:empty" [t]])%list;
         tag2digest := (t, "sha256:empty") :: tag2digest r |}
  | None => r
  end.

Definition deleterTags : ImageDeleter := newDeleter ctxTags ∅.

(** Scenario D: [ghost1] lists two children, neither present. *)
Definition ctxGhost : CleanupContext :=
  {| config := noOptions;
     registry := fun d =>
       if String.eqb d "ghost1"
       then indexOf ["sha256:missing1"; "sha256:missing2"]
       else image;
     packageRepo :=
       {| packages := [pkg 1 "ghost1" ["v1.0"]];
          tag2digest := [("v1.0", "ghost1")] |};
     targetPackage := "app" |}.


(** Tag deletion: [rc1] is the only tag of [sha256:one], [rc2] is one of
    the two tags of [sha256:two]; the selector matches names exactly. *)
Definition exact (patterns : list string) (s : string) : bool :=
  existsb (String.eqb s) patterns.

Definition ctxSelect (keep : option nat) : CleanupContext :=
  {| config := {| deleteTags := Some "rc1,rc2,sha256:raw"; excludeTags := None;
                  olderThan := None; keepNtagged := keep;
                  keepNuntagged := None; useRegex := false |};
     registry := fun _ => image;
     packageRepo :=
       {| packages := [pkg 1 "sha256:one" ["rc1"];
                       pkg 2 "sha256:two" ["rc2"; "stable"];
                       pkg 3 "sha256:raw" []];
          tag2digest := [("rc1", "sha256:one"); ("rc2", "sha256:two");
                         ("stable", "sha256:two")] |};
     targetPackage := "app" |}.

Definition selectSet : list string :=
  ["sha256:one"; "sha256:two"; "sha256:raw"].

End Scenarios.

(** ** utils.ts *)

Module Utils.

(** [s.endsWith(p)] *)
Definition endsWith (s p : string) : bool :=
  Nat.leb (String.length p) (String.length s) &&
  String.eqb
    (String.substring (String.length s - String.length p) (String.length p) s)
    p.

(** [s.substring(a, b)]: both indices are clamped to the length of [s]
    and swapped when the first is the larger one. *)
Definition substring (a b : nat) (s : string) : string :=
  let a := Nat.min a (String.length s) in
  let b := Nat.min b (String.length s) in
  String.substring (Nat.min a b) (Nat.max a b - Nat.min a b) s.

Definition quote : string := String (Ascii.ascii_of_nat 34) EmptyString.

(** The body of [for (const part of parts)]: [part.split('=')], and the
    value without its enclosing quotes. *)
Definition parsePart (attributes : gmap string string) (part : string)
  : gmap string string :=
  match ImageFilter.splitOn (Ascii.ascii_of_nat 61) part with
  | key :: value :: _ =>
      let value :=
        if startsWith value quote && endsWith value quote
        then substring 1 (String.length value - 1) value
        else value in
      <[key := value]> attributes
  | _ => attributes
  end.

Definition parseChallenge (challenge : string) : gmap string string :=
  if startsWith challenge "Bearer " then
    let challenge := replace "Bearer " "" challenge in
    fold_left parsePart (ImageFilter.splitComma challenge) ∅
  else ∅.

Definition isValidChallenge (attributes : gmap string string) : bool :=
  match attributes !! "realm", attributes !! "service", attributes !! "scope" with
  | Some _, Some _, Some _ => true
  | _, _, _ => false
  end.

(** [MapPrinter]: [entries] is a [Map] that [print] iterates, so it is
    kept in insertion order; setting a key again keeps its place. *)
Record MapPrinter : Type := {
  entries : list (string * string);
  maxLength : nat
}.

Definition newMapPrinter : MapPrinter := {| entries := []; maxLength := 1 |}.

Fixpoint setEntry (k v : string) (l : list (string * string))
  : list (string * string) :=
  match l with
  | [] => [(k, v)]
  | (k', v') :: r =>
      if String.eqb k' k then (k', v) :: r else (k', v') :: setEntry k v r
  end.

Definition MapPrinter_add (self : MapPrinter) (entry defaultValue : string)
  : MapPrinter :=
  {| entries := setEntry entry defaultValue (entries self);
     maxLength := if Nat.ltb (maxLength self) (String.length entry)
                  then String.length entry else maxLength self |}.

(** [''.padEnd(n, ' ')] *)
Fixpoint padEnd (n : nat) : string :=
  match n with
  | O => EmptyString
  | S k => String (Ascii.ascii_of_nat 32) (padEnd k)
  end.

(** The lines [print] hands to [core.info]. *)
Definition MapPrinter_print (self : MapPrinter) : list string :=
  let column := maxLength self + 10 in
  map (fun e => fst e ++ padEnd (column - String.length (fst e)) ++ snd e)
    (entries self).

Record CleanupTaskStatistics : Type := {
  name : string;
  numberMultiImagesDeleted : nat;
  numberImagesDeleted : nat
}.

Definition CleanupTaskStatistics_add (self other : CleanupTaskStatistics)
  : CleanupTaskStatistics :=
  {| name := name self;
     numberMultiImagesDeleted :=
       numberMultiImagesDeleted self + numberMultiImagesDeleted other;
     numberImagesDeleted :=
       numberImagesDeleted self + numberImagesDeleted other |}.

(** main.ts, the loop of [CleanupAction.run] over the statistics the
    orchestrators return: [globalStatistics = globalStatistics.add(stats)]
    from [new CleanupTaskStatistics('combined-action', 0, 0)]. *)
Definition globalStatistics (perPackageStats : list CleanupTaskStatistics)
  : CleanupTaskStatistics :=
  fold_left CleanupTaskStatistics_add perPackageStats
    {| name := "combined-action"; numberMultiImagesDeleted := 0;
       numberImagesDeleted := 0 |}.

End Utils.

(** ** main.ts *)

Module Main.

Section Selection.

Variable regexTest : string -> option (string -> bool).
Variable wcmatch : list string -> string -> bool.

(** The package selection at the start of [CleanupAction.run].  In
    expand mode the run needs an OAuth token ([tokenIsOauth]) and matches
    the pattern against the package list of the repository
    ([packagesInUse]); otherwise the input is split at its commas.
    [None] stands for a run that fails here: [core.setFailed(...);
    throw new Error()], or the [SyntaxError] of an invalid pattern. *)
Definition selectPackages (expandPackages useRegex : bool) (package : string)
  (tokenIsOauth : bool) (packagesInUse : list string) : option (list string) :=
  let selected :=
    if expandPackages then
      if negb tokenIsOauth then None
      else match ImageFilter.isTagMatch regexTest wcmatch useRegex package with
           | Normal isTagMatch => Some (List.filter isTagMatch packagesInUse)
           | Abrupt _ => None
           end
    else Some (ImageFilter.splitComma package) in
  match selected with
  | Some targetPackages =>
      if Nat.eqb (List.length targetPackages) 0 then None
      else Some targetPackages
  | None => None
  end.

End Selection.

End Main.

(** ** Vocabulary of the further statements *)

(** The digest a call deletes, if it is a deletion. *)
Definition deletedDigest (c : Call) : list string :=
  match c with
  | DeletePackageVersion _ _ d _ _ => [d]
  | _ => []
  end.

Definition deletedDigests (cs : list Call) : list string :=
  flat_map deletedDigest cs.

Definition isDeletion (c : Call) : Prop :=
  match c with
  | DeletePackageVersion _ _ _ _ _ => True
  | _ => False
  end.

(** From [s] to [s'] the deleter issued exactly [n] calls, all of them
    deletions of distinct digests that were not deleted before, and
    [deleted] grew by exactly these digests. *)
Definition deletes (s : ImageDeleter) (n : nat) (s' : ImageDeleter) : Prop :=
  context s' = context s /\
  exists ext,
    calls s' = (calls s ++ ext)%list /\
    Forall isDeletion ext /\
    List.length ext = n /\
    List.NoDup (deletedDigests ext) /\
    (forall d, In d (deletedDigests ext) -> d ∉ deleted s) /\
    (forall d, d ∈ deleted s' <-> d ∈ deleted s \/ In d (deletedDigests ext)).

(** The log of the session agrees with its [deleted] set: no digest was
    deleted twice, and every deleted digest is remembered. *)
Definition sessionConsistent (s : ImageDeleter) : Prop :=
  List.NoDup (deletedDigests (calls s)) /\
  forall d, In d (deletedDigests (calls s)) -> d ∈ deleted s.

(** What a normal return of [deleteImage] on [gh] guarantees. *)
Definition summary (s : ImageDeleter) (gh : Package)
  (out : option (Completion (Counts * ImageDeleter))) : Prop :=
  forall cnt s', out = Some (Normal (cnt, s')) ->
    deletes s (imagesDeleted cnt) s' /\
    multiImagesDeleted cnt <= imagesDeleted cnt /\
    name gh ∈ deleted s'.

(** The manifest of [d] is an index manifest and every (some) child
    digest is missing from the index. *)
Definition allChildrenMissing (ctx : CleanupContext) (d : string) : bool :=
  match manifests (getManifestByDigest ctx d) with
  | Some ms => forallb (ImageValidator.childMissing ctx) ms
  | None => false
  end.

Definition someChildMissing (ctx : CleanupContext) (d : string) : bool :=
  match manifests (getManifestByDigest ctx d) with
  | Some ms => existsb (ImageValidator.childMissing ctx) ms
  | None => false
  end.

(** No index manifest of a digest of the index lists [d] as a child. *)
Definition topLevel (ctx : CleanupContext) (d : string) : Prop :=
  forall p ms, In p (getDigests (packageRepo ctx)) ->
    manifests (getManifestByDigest ctx p) = Some ms ->
    ~ In d (map digest ms).

(** Some index manifest of the index lists a child that has no package. *)
Definition childLost (ctx : CleanupContext) : Prop :=
  exists d ms im, In d (getDigests (packageRepo ctx)) /\
    manifests (getManifestByDigest ctx d) = Some ms /\ In im ms /\
    getIdByDigest (packageRepo ctx) (digest im) = None.

(** Some referrer tag names a parent digest that has no package. *)
Definition parentLost (ctx : CleanupContext) : Prop :=
  exists tag, In tag (getTags (packageRepo ctx)) /\
    startsWith tag "sha256-" = true /\
    getIdByDigest (packageRepo ctx) (ImageValidator.referrerParent tag) = None.

(** The loop invariant of [validate]: only children are marked as
    processed, and no top-level digest has left the working set. *)
Definition validating (ctx : CleanupContext)
  (st : ImageValidator.ValidateState) : Prop :=
  (forall x, In x (ImageValidator.processedManifests st) -> ~ topLevel ctx x) /\
  (forall x, topLevel ctx x -> In x (getDigests (packageRepo ctx)) ->
     In x (ImageValidator.workingDigests st)) /\
  (ImageValidator.seenErrors st = true -> childLost ctx).

(** No manifest of the registry has an empty layer list. *)
Definition layersNonEmpty (ctx : CleanupContext) : Prop :=
  forall d, layers (getManifestByDigest ctx d) <> Some [].

(** The package of [d] has no tag / has a tag; the timestamp of [d]. *)
Definition isUntagged (ctx : CleanupContext) (d : string) : bool :=
  match getPackageByDigest (packageRepo ctx) d with
  | Some p => Nat.eqb (List.length (tags p)) 0
  | None => false
  end.

Definition isTagged (ctx : CleanupContext) (d : string) : bool :=
  match getPackageByDigest (packageRepo ctx) d with
  | Some p => Nat.ltb 0 (List.length (tags p))
  | None => false
  end.

Definition dateOf (ctx : CleanupContext) (d : string) : option Z :=
  match getPackageByDigest (packageRepo ctx) d with
  | Some p => updated_at p
  | None => None
  end.

(** [x] is a child of the index manifest of [d]. *)
Definition childOf (ctx : CleanupContext) (d x : string) : Prop :=
  exists ms, manifests (getManifestByDigest ctx d) = Some ms /\
             In x (map digest ms).

(** [x] hangs on [d] through a referrer tag of [d]: it is the digest the
    tag resolves to, or a child of the manifest served under the tag. *)
Definition attachedTo (getManifestByTag : string -> Manifest)
  (ctx : CleanupContext) (d x : string) : Prop :=
  exists tag td, In tag (getTags (packageRepo ctx)) /\
    startsWith tag (replace "sha256:" "sha256-" d) = true /\
    getDigestByTag (packageRepo ctx) tag = Some td /\ td <> "" /\
    (x = td \/ exists ms, manifests (getManifestByTag tag) = Some ms /\
                          In x (map digest ms)).

(** A string without the character [c]. *)
Fixpoint lacks (c : Ascii.ascii) (s : string) : Prop :=
  match s with
  | EmptyString => True
  | String a r => a <> c /\ lacks c r
  end.

(** A key or value that the challenge syntax can carry as it is. *)
Definition plain (s : string) : Prop :=
  lacks (Ascii.ascii_of_nat 44) s /\ lacks (Ascii.ascii_of_nat 61) s.

(** The attribute list of a challenge, [k1="v1",k2="v2",...]. *)
Fixpoint renderAttributes (kvs : list (string * string)) : string :=
  match kvs with
  | [] => EmptyString
  | [(k, v)] => k ++ "=" ++ Utils.quote ++ v ++ Utils.quote
  | (k, v) :: r =>
      k ++ "=" ++ Utils.quote ++ v ++ Utils.quote ++ "," ++ renderAttributes r
  end.

(** The matched tags that resolve to a digest with a package: the
    entries the selector branch of [keepNTagged] collects, one per tag. *)
Definition resolving (ctx : CleanupContext) (matchTags : list string)
  : list string :=
  List.filter
    (fun tag =>
       match truthy_opt (getDigestByTag (packageRepo ctx) tag) with
       | Some d =>
           match getPackageByDigest (packageRepo ctx) d with
           | Some _ => true
           | None => false
           end
       | None => false
       end) matchTags.

(** The calls of [ext] that delete a package version each carry the one
    tag [t] they remove, taken from [ops], and no label. *)
Definition untagsOnly (ops : list (string * list string)) (ext : list Call)
  : Prop :=
  forall target id d ts label,
    In (DeletePackageVersion target id d ts label) ext ->
    label = None /\ exists t e, ts = [t] /\ In e ops /\ In t (snd e).

(** [a] may stand before [b] in an array sorted with [cmp]. *)
Definition inOrder (cmp : Package -> Package -> option Z) (a b : Package)
  : Prop :=
  match cmp a b with
  | Some z => (z <= 0)%Z
  | None => True
  end.

(** What the keep-N policies rely on from [Array.prototype.sort]: the
    result is a rearrangement of the array, and it is in comparator order
    when every element carries a timestamp. *)
Definition sorts
  (arraySort : (Package -> Package -> option Z) -> list Package -> list Package)
  : Prop :=
  (forall cmp l, Permutation (arraySort cmp l) l) /\
  (forall l, (forall p, In p l -> updated_at p <> None) ->
     StronglySorted (inOrder DeletionStrategy.byDateDesc)
       (arraySort DeletionStrategy.byDateDesc l)).

(** ** Further concrete inputs *)

Module Examples.

(** An insertion sort, standing for [Array.prototype.sort]. *)
Fixpoint insertBy (cmp : Package -> Package -> option Z) (p : Package)
  (l : list Package) : list Package :=
  match l with
  | [] => [p]
  | q :: r =>
      match cmp p q with
      | Some z => if (z <=? 0)%Z then p :: q :: r else q :: insertBy cmp p r
      | None => p :: q :: r
      end
  end.

Definition sortBy (cmp : Package -> Package -> option Z) (l : list Package)
  : list Package :=
  fold_right (insertBy cmp) [] l.

(** Three untagged and two tagged versions with timestamps. *)
Definition version (i : positive) (n : string) (ts : list string) (t : Z)
  : Package :=
  {| pkg_id := i; name := n; tags := ts; updated_at := Some t |}.

Definition ctxKeep (keepT keepU : option nat) : CleanupContext :=
  {| config := {| deleteTags := None; excludeTags := None; olderThan := None;
                  keepNtagged := keepT; keepNuntagged := keepU;
                  useRegex := false |};
     registry := fun _ => Scenarios.image;
     packageRepo :=
       {| packages := [version 1 "sha256:u1" [] 100;
                       version 2 "sha256:t1" ["v1"] 200;
                       version 3 "sha256:u2" [] 300;
                       version 4 "sha256:t2" ["v2"] 400;
                       version 5 "sha256:u3" [] 500];
          tag2digest := [("v1", "sha256:t1"); ("v2", "sha256:t2")] |};
     targetPackage := "app" |}.

(** One image that carries both tags the selector names. *)
Definition ctxTwoTags : CleanupContext :=
  {| config := {| deleteTags := Some "v1,v2"; excludeTags := None;
                  olderThan := None; keepNtagged := Some 1;
                  keepNuntagged := None; useRegex := false |};
     registry := fun _ => Scenarios.image;
     packageRepo :=
       {| packages := [version 1 "sha256:only" ["v1"; "v2"] 100];
          tag2digest := [("v1", "sha256:only"); ("v2", "sha256:only")] |};
     targetPackage := "app" |}.

(** The attributes of a registry challenge. *)
Definition challenge : list (string * string) :=
  [("realm", "https://ghcr.io/token"); ("service", "ghcr.io");
   ("scope", "repository:owner/app:pull")].

Definition keepSet : list string :=
  ["sha256:u1"; "sha256:t1"; "sha256:u2"; "sha256:t2"; "sha256:u3"].

(** The index of [Scenarios.ctxSelect] under a selector that is read as
    a regular expression and has an unterminated character class. *)
Definition ctxRegex : CleanupContext :=
  {| config := {| deleteTags := Some "rc[0-9"; excludeTags := None;
                  olderThan := None; keepNtagged := None;
                  keepNuntagged := None; useRegex := true |};
     registry := fun _ => Scenarios.image;
     packageRepo := packageRepo (Scenarios.ctxSelect None);
     targetPackage := "app" |}.

End Examples.

(** * Facts about the helpers *)

Section SetFacts.

Lemma shas_In (x : string) (s : list string) : shas x s = true <-> In x s.
Proof.
  unfold shas. rewrite existsb_exists. split.
  - intros (y & Hy & E). apply String.eqb_eq in E. now subst.
  - intros H. exists x. split; [assumption | apply String.eqb_refl].
Qed.

Lemma shas_false (x : string) (s : list string) : shas x s = false <-> ~ In x s.
Proof.
  rewrite <- shas_In. destruct (shas x s); split; congruence.
Qed.

Lemma In_sadd (x y : string) (s : list string) :
  In y (sadd x s) <-> y = x \/ In y s.
Proof.
  unfold sadd. destruct (shas x s) eqn:E.
  - apply shas_In in E. split; [auto | intros [-> | H]; assumption].
  - rewrite in_app_iff. simpl. intuition.
Qed.

Lemma In_sdel (x y : string) (s : list string) :
  In y (sdel x s) <-> y <> x /\ In y s.
Proof.
  unfold sdel. rewrite filter_In. rewrite negb_true_iff, String.eqb_neq.
  intuition.
Qed.

End SetFacts.

Lemma forOf_cons {A S} (body : A -> S -> Completion S) x r s :
  forOf body (x :: r) s = cbind (body x s) (fun s' => forOf body r s').
Proof. reflexivity. Qed.

Section AgeFilter.

Import ImageFilter.




End AgeFilter.

Section IndexFacts.

Lemma getPackageByDigest_Some r d p :
  getPackageByDigest r d = Some p -> name p = d /\ In p (packages r).
Proof.
  unfold getPackageByDigest. intros H. apply find_some in H.
  destruct H as [Hin E]. apply String.eqb_eq in E. auto.
Qed.

Lemma getPackageByDigest_index r d p :
  getPackageByDigest r d = Some p -> name p ∈ indexDigests r.
Proof.
  intros H. apply getPackageByDigest_Some in H. destruct H as [_ Hin].
  unfold indexDigests. apply elem_of_list_to_set, list_elem_of_In.
  apply in_map. exact Hin.
Qed.

Lemma size_indexDigests r : size (indexDigests r) <= List.length (packages r).
Proof.
  unfold indexDigests. induction (packages r) as [|p l IH]; cbn [map List.length].
  - rewrite list_to_set_nil, size_empty. lia.
  - rewrite list_to_set_cons, size_union_alt, size_singleton.
    assert (size (list_to_set (map name l) ∖ {[name p]} : gset string)
            <= size (list_to_set (map name l) : gset string)).
    { apply subseteq_size. set_solver. }
    lia.
Qed.

End IndexFacts.

Section DeleterFacts.

Import Deleter.

(** The part of the index that is not yet deleted. *)
Lemma remaining_shrinks (D X : gset string) (x : string) :
  x ∈ D -> x ∉ X -> size (D ∖ (X ∪ {[x]})) < size (D ∖ X).
Proof.
  intros HD HX. apply subset_size. set_solver.
Qed.

Lemma remaining_mono (D X Y : gset string) :
  X ⊆ Y -> size (D ∖ Y) <= size (D ∖ X).
Proof. intros H. apply subseteq_size. set_solver. Qed.

Lemma deleteChild_frame gh im self n s' n' :
  deleteChild gh im (self, n) = Normal (s', n') ->
  context s' = context self /\ deleted self ⊆ deleted s'.
Proof.
  unfold deleteChild.
  destruct (getPackageByDigest _ _) as [mp|]; [|intros [= <- <-]; auto].
  destruct (bool_decide _); [intros [= <- <-]; auto|].
  destruct (digestUsedBy self !! name mp) as [ps|]; [|intros [= <- <-]; auto].
  destruct (_ && _).
  - destruct (ManifestAnalyzer.buildLabel _ _); simpl; [|intros ?; discriminate].
    intros [= <- <-]. simpl. split; [reflexivity | set_solver].
  - intros [= <- <-]. simpl. auto.
Qed.

Lemma children_frame gh ms : forall self n s' n',
  forOf (deleteChild gh) ms (self, n) = Normal (s', n') ->
  context s' = context self /\ deleted self ⊆ deleted s'.
Proof.
  induction ms as [|im ms IH]; intros self n s' n'.
  - intros [= <- <-]. auto.
  - rewrite forOf_cons. destruct (deleteChild gh im (self, n)) as [[s1 n1]|] eqn:E; simpl; [|intros ?; discriminate].
    intros H. apply IH in H. apply deleteChild_frame in E.
    destruct H as [H1 H2], E as [E1 E2]. split; [congruence | set_solver].
Qed.

Lemma remaining_le self s' :
  context s' = context self -> deleted self ⊆ deleted s' ->
  remaining s' <= remaining self.
Proof.
  intros Hc Hd. unfold remaining. rewrite Hc. now apply remaining_mono.
Qed.

Lemma referrers_total f dt :
  (forall self gh, remaining self + outside self gh < f ->
     exists out, deleteImageF f self gh = Some out /\ grows self out) ->
  forall tgs acc, remaining (snd acc) < f ->
    exists out, referrers (deleteImageF f) dt tgs acc = Some out /\
                grows (snd acc) out.
Proof.
  intros IH. induction tgs as [|tag tgs IHt]; intros acc Hm.
  - exists (Normal acc). split; [reflexivity|].
    intros cnt s' [= ->]. simpl. auto.
  - cbn [referrers].
    destruct (startsWith tag dt); [|auto].
    destruct (truthy_opt _) as [md|]; [|auto].
    destruct (getPackageByDigest _ md) as [att|] eqn:Hatt; [|auto].
    destruct (IH (snd acc) att) as (out & E & Hg).
    { unfold outside. apply getPackageByDigest_index in Hatt.
      rewrite bool_decide_eq_true_2 by exact Hatt. lia. }
    rewrite E. destruct out as [[res s1]|e].
    + destruct (Hg res s1 eq_refl) as [Hc Hd].
      destruct (IHt (addCounts (fst acc) res, s1)) as (out2 & E2 & Hg2).
      { simpl. pose proof (remaining_le _ _ Hc Hd). lia. }
      exists out2. split; [exact E2|].
      intros cnt s' Hn. destruct (Hg2 cnt s' Hn) as [Hc2 Hd2].
      simpl in *. split; [congruence | set_solver].
    + exists (Abrupt e). split; [reflexivity|]. intros cnt s' [=].
Qed.

Lemma deleteImageF_total : forall f self gh,
  remaining self + outside self gh < f ->
  exists out, deleteImageF f self gh = Some out /\
    forall cnt s', out = Normal (cnt, s') ->
      context s' = context self /\ deleted self ⊆ deleted s' /\
      name gh ∈ deleted s'.
Proof.
  induction f as [|f IH]; intros self gh Hm; [lia|].
  cbn [deleteImageF].
  destruct (bool_decide (name gh ∈ deleted self)) eqn:Hdel.
  - apply bool_decide_eq_true in Hdel.
    eexists. split; [reflexivity|]. intros cnt s' [= <- <-]. auto.
  - apply bool_decide_eq_false in Hdel.
    set (s1 := markDeleted (issue self _) (name gh)).
    assert (Hs1c : context s1 = context self) by reflexivity.
    assert (Hs1d : deleted s1 = deleted self ∪ {[name gh]}) by reflexivity.
    assert (Hs1m : remaining s1 < f).
    { unfold remaining, outside in *. rewrite Hs1c, Hs1d.
      destruct (bool_decide (name gh ∈ _)) eqn:Hin.
      - apply bool_decide_eq_true in Hin.
        pose proof (remaining_shrinks _ _ _ Hin Hdel). lia.
      - pose proof (remaining_mono (indexDigests (packageRepo (context self)))
                      (deleted self) (deleted self ∪ {[name gh]})
                      ltac:(set_solver)). lia. }
    match goal with |- context [match ?c with Normal _ => _ | Abrupt _ => _ end] =>
      destruct c as [acc|e] eqn:Hch end.
    + assert (Hacc : context (snd acc) = context self /\ deleted s1 ⊆ deleted (snd acc)).
      { destruct (manifests _) as [ms|].
        - destruct (forOf (deleteChild gh) ms (s1, 1)) as [[s2 n2]|] eqn:Hl;
            simpl in Hch; [|discriminate].
          injection Hch as <-. simpl.
          apply children_frame in Hl. destruct Hl; split; [congruence|auto].
        - injection Hch as <-. simpl. auto. }
      destruct Hacc as [Hc Hd].
      destruct (referrers_total f (replace "sha256:" "sha256-" (name gh)))
        with (tgs := getTags (packageRepo (context self))) (acc := acc)
        as (out & E & Hg).
      { intros s g Hsg. destruct (IH s g Hsg) as (o & Eo & Ho).
        exists o. split; [exact Eo|]. intros c s' Hn.
        destruct (Ho c s' Hn) as (? & ? & ?). auto. }
      { pose proof (remaining_le s1 (snd acc) ltac:(congruence) Hd). lia. }
      exists out. split; [exact E|].
      intros cnt s' Hn. destruct (Hg cnt s' Hn) as [Hc2 Hd2].
      split; [congruence|]. split; set_solver.
    + exists (Abrupt e). split; [reflexivity|]. intros cnt s' [=].
Qed.

Lemma enoughFuel_enough self gh :
  remaining self + outside self gh < enoughFuel self.
Proof.
  unfold enoughFuel, remaining, outside.
  pose proof (size_indexDigests (packageRepo (context self))).
  assert (size (indexDigests (packageRepo (context self)) ∖ deleted self)
          <= size (indexDigests (packageRepo (context self)))).
  { apply subseteq_size. set_solver. }
  destruct (bool_decide _); lia.
Qed.

Lemma deleteImage_total self gh :
  exists out, deleteImage self gh = Some out /\
    forall cnt s', out = Normal (cnt, s') ->
      context s' = context self /\ deleted self ⊆ deleted s' /\
      name gh ∈ deleted s'.
Proof. apply deleteImageF_total, enoughFuel_enough. Qed.









(** C4: [deleteImage] returns, and after a normal return a second call
    on the same package, directly or after further deletions of the same
    session, changes nothing and reports zero deleted and zero
    multi-arch deleted. *)
Theorem deleteImage_idempotent (self : ImageDeleter) (ghPackage : Package) :
  exists out, deleteImage self ghPackage = Some out /\
    forall cnt self', out = Normal (cnt, self') ->
      deleteImage self' ghPackage =
        Some (Normal ({| imagesDeleted := 0; multiImagesDeleted := 0 |}, self')) /\
      forall later, deleted self' ⊆ deleted later ->
        deleteImage later ghPackage =
          Some (Normal ({| imagesDeleted := 0; multiImagesDeleted := 0 |}, later)).
Proof.
  destruct (deleteImage_total self ghPackage) as (out & E & H).
  exists out. split; [exact E|].
  intros cnt self' Hn. destruct (H cnt self' Hn) as (_ & _ & Hin).
  assert (Hlater : forall later, deleted self' ⊆ deleted later ->
            deleteImage later ghPackage =
              Some (Normal ({| imagesDeleted := 0; multiImagesDeleted := 0 |}, later))).
  { intros later Hsub. unfold deleteImage, enoughFuel. cbn [deleteImageF].
    rewrite bool_decide_eq_true_2; [reflexivity | set_solver]. }
  split; [apply Hlater; reflexivity | exact Hlater].
Qed.

(** [reset()] forgets the deletions of the session. *)
Lemma reset_clears self : deleted (reset self) = ∅.
Proof. reflexivity. Qed.

Lemma deleteEach_total : forall deleteSet acc,
  exists out, deleteEach deleteSet acc = Some out.
Proof.
  induction deleteSet as [|d l IH]; intros acc; [eexists; reflexivity|].
  cbn [deleteEach].
  destruct (getPackageByDigest _ d) as [gh|]; [|eexists; reflexivity].
  destruct (deleteImage_total (snd acc) gh) as (out & E & _).
  rewrite E. destruct out as [[res s1]|e]; [apply IH | eexists; reflexivity].
Qed.

(** [deleteImages] never exhausts the fuel bound. *)
Lemma deleteImages_total self deleteSet :
  exists out, deleteImages self deleteSet = Some out.
Proof.
  unfold deleteImages.
  destruct (ManifestAnalyzer.primeManifests _ _);
    [apply deleteEach_total | eexists; reflexivity].
Qed.

End DeleterFacts.

Section UntaggingFacts.

Import Deleter.

Variable loadPackages : list Call -> PackageRepo -> PackageRepo.

Lemma untagTag_single (manifestDigest tag : string) (self : ImageDeleter)
  (ghPackage : Package) :
  getPackageByDigest (packageRepo (context self)) manifestDigest
    = Some ghPackage ->
  List.length (tags ghPackage) <= 1 ->
  untagTag loadPackages manifestDigest tag self = Normal self.
Proof.
  intros Hg Hle. unfold untagTag. rewrite Hg.
  apply Nat.ltb_ge in Hle. now rewrite Hle.
Qed.

(** The loop body by the number of tags of the target package. *)
Lemma untagTag_cases
  (manifestDigest tag : string) (self : ImageDeleter) (ghPackage : Package) :
  getPackageByDigest (packageRepo (context self)) manifestDigest
    = Some ghPackage ->
  (List.length (tags ghPackage) <= 1 ->
   untagTag loadPackages manifestDigest tag self = Normal self) /\
  (1 < List.length (tags ghPackage) ->
   exists self' rest,
     untagTag loadPackages manifestDigest tag self = Normal self' /\
     calls self' =
       (calls self ++
        fakeManifest tag (getManifestByDigest (context self) manifestDigest) ::
        LoadPackages (targetPackage (context self)) false :: rest)%list /\
     (forall c, In c rest -> forall t m ix, c <> PutManifest t m ix)).
Proof.
  intros Hg. split.
  - now apply untagTag_single.
  - unfold untagTag. rewrite Hg. intros Hlt. apply Nat.ltb_lt in Hlt. rewrite Hlt.
    destruct (truthy_opt _) as [ud|].
    + destruct (getIdByDigest _ ud) as [i|].
      * eexists. eexists. split; [reflexivity|]. simpl.
        rewrite <- !app_assoc. split; [reflexivity|].
        intros c [<- | []] t m ix. discriminate.
      * eexists. exists []. split; [reflexivity|]. simpl.
        rewrite <- !app_assoc. split; [reflexivity | intros c []].
    + eexists. exists []. split; [reflexivity|]. simpl.
      rewrite <- !app_assoc. split; [reflexivity | intros c []].
Qed.

(** The whole call issues nothing when every target has one tag. *)
Lemma performUntagging_single_tags ops : forall self,
  (forall d ts, In (d, ts) ops ->
     exists gh, getPackageByDigest (packageRepo (context self)) d = Some gh /\
                List.length (tags gh) <= 1) ->
  forOf (untagEntry loadPackages) ops self = Normal self.
Proof.
  induction ops as [|[d ts] ops IH]; intros self H; [reflexivity|].
  rewrite forOf_cons.
  assert (E : untagEntry loadPackages (d, ts) self = Normal self).
  { destruct (H d ts ltac:(now left)) as (gh & Hg & Hle).
    unfold untagEntry. cbn [fst snd]. clear H IH.
    induction ts as [|t ts IHt]; [reflexivity|].
    rewrite forOf_cons.
    rewrite (untagTag_single d t self gh Hg Hle).
    exact IHt. }
  rewrite E. cbn [cbind]. apply IH. intros d' ts' Hin. apply (H d' ts').
  now right.
Qed.

(** C5, as the code has it: the package version found under the tag in
    the refreshed snapshot is deleted with the tag itself as tag list. *)
Theorem untagTag_deletes_with_tag
  (manifestDigest tag : string) (self : ImageDeleter) (ghPackage : Package)
  (untaggedDigest : string) (id : positive) :
  let ctx := context self in
  let written :=
    (calls self ++
     [fakeManifest tag (getManifestByDigest ctx manifestDigest);
      LoadPackages (targetPackage ctx) false])%list in
  let repo := loadPackages written (packageRepo ctx) in
  getPackageByDigest (packageRepo ctx) manifestDigest = Some ghPackage ->
  1 < List.length (tags ghPackage) ->
  getDigestByTag repo tag = Some untaggedDigest ->
  untaggedDigest <> "" ->
  getIdByDigest repo untaggedDigest = Some id ->
  exists self',
    untagTag loadPackages manifestDigest tag self = Normal self' /\
    packageRepo (context self') = repo /\
    calls self' =
      (written ++
       [DeletePackageVersion (targetPackage ctx) id untaggedDigest [tag] None])%list.
Proof.
  intros ctx written repo Hg Hlt Hd Hne Hid.
  unfold untagTag. fold ctx. rewrite Hg.
  apply Nat.ltb_lt in Hlt. rewrite Hlt.
  assert (Hw : calls (issue (issue self (fakeManifest tag (getManifestByDigest ctx manifestDigest)))
                        (LoadPackages (targetPackage ctx) false)) = written).
  { simpl. unfold written. now rewrite <- app_assoc. }
  rewrite Hw. cbn [setRepo context packageRepo]. fold repo.
  rewrite Hd. unfold truthy_opt, truthy.
  apply String.eqb_neq in Hne. rewrite Hne. cbn [negb].
  rewrite Hid. eexists. split; [reflexivity|]. split; [reflexivity|].
  simpl. unfold written. now rewrite <- !app_assoc.
Qed.

(** C6, as the code has it: the result tells whether the map of
    operations was empty. *)
Theorem performUntagging_result
  (untagOperations : list (string * list string)) (self self' : ImageDeleter)
  (b : bool) :
  performUntagging loadPackages untagOperations self = Normal (b, self') ->
  (b = true <-> untagOperations <> []) /\ (b = false -> self' = self).
Proof.
  unfold performUntagging. destruct untagOperations as [|op ops].
  - intros [= <- <-]. split; [|reflexivity]. split; [discriminate | congruence].
  - cbn [List.length Nat.eqb].
    destruct (forOf _ _ _) as [s|e]; simpl; [|discriminate].
    intros [= <- <-]. split; [|discriminate]. split; [discriminate | reflexivity].
Qed.

Lemma forOf_app {A S} (body : A -> S -> Completion S) (a b : list A) : forall s,
  forOf body (a ++ b) s = cbind (forOf body a s) (forOf body b).
Proof.
  induction a as [|x a IH]; intros s; [reflexivity|].
  cbn [app]. rewrite !forOf_cons. destruct (body x s) as [s1|e]; [|reflexivity].
  cbn [cbind]. apply IH.
Qed.

(** The run of [performUntagging] is the loop body over the steps. *)
Lemma untagEntries_steps ops : forall s,
  forOf (untagEntry loadPackages) ops s =
  forOf (fun p => untagTag loadPackages (fst p) (snd p)) (untagSteps ops) s.
Proof.
  induction ops as [|[d ts] ops IH]; intros s; [reflexivity|].
  rewrite forOf_cons. unfold untagSteps. cbn [flat_map fst snd].
  rewrite forOf_app. fold (untagSteps ops).
  assert (E : untagEntry loadPackages (d, ts) s =
              forOf (fun p => untagTag loadPackages (fst p) (snd p))
                (map (pair d) ts) s).
  { unfold untagEntry. cbn [fst snd]. clear IH. revert s.
    induction ts as [|t ts IHt]; intros s; [reflexivity|].
    cbn [map]. rewrite !forOf_cons. cbn [fst snd].
    destruct (untagTag loadPackages d t s); [|reflexivity]. apply IHt. }
  rewrite E.
  destruct (forOf _ (map (pair d) ts) s) as [s1|e]; [|reflexivity].
  cbn [cbind]. apply IH.
Qed.

Lemma performUntagging_steps ops s :
  ops <> [] ->
  performUntagging loadPackages ops s =
  do s' <- forOf (fun p => untagTag loadPackages (fst p) (snd p))
             (untagSteps ops) s;
  Normal (true, s').
Proof.
  intros Hne. unfold performUntagging.
  destruct ops as [|e ops]; [congruence|]. cbn [List.length Nat.eqb].
  now rewrite untagEntries_steps.
Qed.

Lemma untagSteps_app a b :
  untagSteps (a ++ b) = (untagSteps a ++ untagSteps b)%list.
Proof. unfold untagSteps. apply flat_map_app. Qed.

Lemma untagSteps_reach before d ts1 t ts2 after :
  untagSteps (before ++ (d, (ts1 ++ t :: ts2)%list) :: after) =
  (untagSteps (before ++ [(d, ts1)]) ++
   (d, t) :: untagSteps ((d, ts2) :: after))%list.
Proof.
  rewrite !untagSteps_app. unfold untagSteps. cbn [flat_map fst snd].
  rewrite map_app, app_nil_r. cbn [map]. now rewrite <- !app_assoc.
Qed.

Lemma untagSteps_next before d ts1 t :
  untagSteps (before ++ [(d, (ts1 ++ [t])%list)]) =
  (untagSteps (before ++ [(d, ts1)]) ++ [(d, t)])%list.
Proof.
  rewrite !untagSteps_app. unfold untagSteps. cbn [flat_map fst snd].
  rewrite map_app, !app_nil_r. cbn [map]. now rewrite <- !app_assoc.
Qed.

(** A position among the steps is a position in the map. *)
Lemma untagSteps_split ops : forall pre d t post,
  untagSteps ops = (pre ++ (d, t) :: post)%list ->
  exists before ts1 ts2 after,
    ops = (before ++ (d, (ts1 ++ t :: ts2)%list) :: after)%list /\
    pre = untagSteps (before ++ [(d, ts1)]).
Proof.
  induction ops as [|[d0 ts] ops IH]; intros pre d t post H.
  - destruct pre; discriminate.
  - unfold untagSteps in H. cbn [flat_map fst snd] in H. fold (untagSteps ops) in H.
    assert (Hin : forall ts0 pre0,
              (map (pair d0) ts0 ++ untagSteps ops)%list
                = (pre0 ++ (d, t) :: post)%list ->
              (exists tsa tsb, ts0 = (tsa ++ t :: tsb)%list /\ d = d0 /\
                               pre0 = map (pair d0) tsa) \/
              (exists pre', pre0 = (map (pair d0) ts0 ++ pre')%list /\
                            untagSteps ops = (pre' ++ (d, t) :: post)%list)).
    { clear H IH. induction ts0 as [|x ts0 IHt]; intros pre0 H.
      - right. exists pre0. auto.
      - cbn [map app] in H. destruct pre0 as [|y pre0].
        + injection H as <- <- _. left. exists [], ts0. auto.
        + injection H as <- H. destruct (IHt pre0 H) as
            [(tsa & tsb & -> & -> & ->) | (pre' & -> & E)].
          * left. exists (x :: tsa), tsb. auto.
          * right. exists pre'. auto. }
    destruct (Hin ts pre H) as
      [(tsa & tsb & -> & -> & ->) | (pre' & -> & E)].
    + exists [], tsa, tsb, ops. split; [reflexivity|].
      unfold untagSteps. cbn. now rewrite app_nil_r.
    + destruct (IH pre' d t post E) as (before & ts1 & ts2 & after & -> & ->).
      exists ((d0, ts) :: before), ts1, ts2, after. split; [reflexivity|].
      unfold untagSteps. reflexivity.
Qed.

Lemma untagTag_log d t s s' :
  untagTag loadPackages d t s = Normal s' ->
  exists gh, getPackageByDigest (packageRepo (context s)) d = Some gh /\
    (List.length (tags gh) <= 1 -> s' = s) /\
    (1 < List.length (tags gh) ->
     exists more,
       calls s' =
         (calls s ++
          fakeManifest t (getManifestByDigest (context s) d) ::
          LoadPackages (targetPackage (context s)) false :: more)%list /\
       forall c, In c more -> forall t' m ix, c <> PutManifest t' m ix).
Proof.
  intros E.
  destruct (getPackageByDigest (packageRepo (context s)) d) as [gh|] eqn:Hg.
  2:{ unfold untagTag in E. rewrite Hg in E. discriminate. }
  exists gh. split; [reflexivity|].
  destruct (untagTag_cases d t s gh Hg) as [Hle Hgt]. split.
  - intros H1. rewrite (Hle H1) in E. now injection E as <-.
  - intros H1. destruct (Hgt H1) as (s2 & rest & E2 & Hcalls & Hrest).
    rewrite E2 in E. injection E as <-. exists rest. auto.
Qed.

Lemma untagTag_grows d t s s' :
  untagTag loadPackages d t s = Normal s' ->
  exists ext, calls s' = (calls s ++ ext)%list.
Proof.
  intros E. destruct (untagTag_log _ _ _ _ E) as (gh & _ & Hle & Hgt).
  destruct (Nat.le_gt_cases (List.length (tags gh)) 1) as [H1 | H1].
  - rewrite (Hle H1). exists []. now rewrite app_nil_r.
  - destruct (Hgt H1) as (more & Hc & _). eexists. exact Hc.
Qed.

Lemma steps_grow l : forall s s',
  forOf (fun p => untagTag loadPackages (fst p) (snd p)) l s = Normal s' ->
  exists ext, calls s' = (calls s ++ ext)%list.
Proof.
  induction l as [|[d t] l IH]; intros s s'.
  - intros [= <-]. exists []. now rewrite app_nil_r.
  - rewrite forOf_cons. cbn [fst snd].
    destruct (untagTag loadPackages d t s) as [s1|] eqn:E; [|discriminate].
    cbn [cbind]. intros H. apply IH in H. apply untagTag_grows in E.
    destruct E as [e1 E1]. destruct H as [e2 E2].
    exists (e1 ++ e2)%list. rewrite E2, E1. now rewrite app_assoc.
Qed.

(** Every write of a run over the steps [l] is the write of one step,
    issued from the state the run had reached, whose snapshot gave the
    package more than one tag. *)
Lemma steps_writes l : forall s s' ext,
  forOf (fun p => untagTag loadPackages (fst p) (snd p)) l s = Normal s' ->
  calls s' = (calls s ++ ext)%list ->
  forall t m ix, In (PutManifest t m ix) ext ->
    exists pre d post mid gh rest,
      l = (pre ++ (d, t) :: post)%list /\
      forOf (fun p => untagTag loadPackages (fst p) (snd p)) pre s = Normal mid /\
      getPackageByDigest (packageRepo (context mid)) d = Some gh /\
      1 < List.length (tags gh) /\
      calls s' = (calls mid ++ PutManifest t m ix :: rest)%list.
Proof.
  induction l as [|[d0 t0] l IH]; intros s s' ext.
  - intros [= <-] Hc t m ix Hin.
    assert (ext = []).
    { apply (app_inv_head (calls s)). now rewrite app_nil_r. }
    subst ext. destruct Hin.
  - rewrite forOf_cons. cbn [fst snd].
    destruct (untagTag loadPackages d0 t0 s) as [s1|] eqn:E; [|discriminate].
    cbn [cbind]. intros H Hc t m ix Hin.
    destruct (steps_grow _ _ _ H) as [e2 E2].
    destruct (untagTag_log _ _ _ _ E) as (gh & Hg & Hle & Hgt).
    destruct (Nat.le_gt_cases (List.length (tags gh)) 1) as [H1 | H1].
    + pose proof (Hle H1) as ->.
      destruct (IH s s' ext H Hc t m ix Hin)
        as (pre & d & post & mid & gh' & rest & -> & Hpre & R).
      exists ((d0, t0) :: pre), d, post, mid, gh', rest.
      split; [reflexivity|]. split; [|exact R].
      rewrite forOf_cons. cbn [fst snd]. rewrite E. exact Hpre.
    + destruct (Hgt H1) as (more & Hc1 & Hmore).
      assert (Hext : ext =
                (fakeManifest t0 (getManifestByDigest (context s) d0) ::
                 LoadPackages (targetPackage (context s)) false :: more ++ e2)%list).
      { apply (app_inv_head (calls s)). rewrite <- Hc, E2, Hc1.
        now rewrite <- app_assoc. }
      rewrite Hext in Hin. destruct Hin as [Hput | [Hload | Hin]].
      * assert (t = t0).
        { unfold fakeManifest in Hput. destruct (manifests _); congruence. }
        subst t0. exists [], d0, l, s, gh.
        exists (LoadPackages (targetPackage (context s)) false :: more ++ e2)%list.
        split; [reflexivity|]. split; [reflexivity|]. split; [exact Hg|].
        split; [exact H1|]. rewrite Hc, Hext, Hput. reflexivity.
      * discriminate.
      * apply in_app_or in Hin. destruct Hin as [Hin | Hin].
        -- exfalso. apply (Hmore _ Hin t m ix). reflexivity.
        -- destruct (IH s1 s' e2 H E2 t m ix Hin)
             as (pre & d & post & mid & gh' & rest & -> & Hpre & R).
           exists ((d0, t0) :: pre), d, post, mid, gh', rest.
           split; [reflexivity|]. split; [|exact R].
           rewrite forOf_cons. cbn [fst snd]. rewrite E. exact Hpre.
Qed.

(** C7: take any run of [performUntagging] that returns.  When the run
    reaches a tag [t] of the entry of [d], it has gone through the
    entries before and the tags of [d] before [t]; [mid] is the deleter
    as these leave it.  If the snapshot of [mid] gives the package of [d]
    at most one tag, going through [t] as well changes nothing; if it
    gives more, the manifest write for [t] and the reload follow.  And
    every manifest write in the log of the run is the write of such a
    step, reached with more than one tag on the package. *)
Theorem performUntagging_writes_only_multi_tagged
  (untagOperations : list (string * list string)) (self self' : ImageDeleter)
  (b : bool) :
  performUntagging loadPackages untagOperations self = Normal (b, self') ->
  (forall before d ts1 t ts2 after,
     untagOperations = (before ++ (d, (ts1 ++ t :: ts2)%list) :: after)%list ->
     exists mid next gh,
       performUntagging loadPackages (before ++ [(d, ts1)]) self
         = Normal (true, mid) /\
       performUntagging loadPackages (before ++ [(d, (ts1 ++ [t])%list)]) self
         = Normal (true, next) /\
       getPackageByDigest (packageRepo (context mid)) d = Some gh /\
       (List.length (tags gh) <= 1 -> next = mid) /\
       (1 < List.length (tags gh) ->
        exists more,
          calls next =
            (calls mid ++
             fakeManifest t (getManifestByDigest (context mid) d) ::
             LoadPackages (targetPackage (context mid)) false :: more)%list /\
          forall c, In c more -> forall t' m ix, c <> PutManifest t' m ix)) /\
  (exists ext,
     calls self' = (calls self ++ ext)%list /\
     forall t m ix, In (PutManifest t m ix) ext ->
       exists before d ts1 ts2 after mid gh rest,
         untagOperations = (before ++ (d, (ts1 ++ t :: ts2)%list) :: after)%list /\
         performUntagging loadPackages (before ++ [(d, ts1)]) self
           = Normal (true, mid) /\
         getPackageByDigest (packageRepo (context mid)) d = Some gh /\
         1 < List.length (tags gh) /\
         calls self' = (calls mid ++ PutManifest t m ix :: rest)%list).
Proof.
  intros H.
  assert (Hne : forall (before : list (string * list string)) e,
            (before ++ [e])%list <> []).
  { intros before e E. apply app_eq_nil in E. destruct E; discriminate. }
  split.
  - intros before d ts1 t ts2 after Hops.
    assert (Hrun : exists s, forOf (fun p => untagTag loadPackages (fst p) (snd p))
                               (untagSteps untagOperations) self = Normal s).
    { rewrite performUntagging_steps in H by (rewrite Hops; destruct before; discriminate).
      destruct (forOf _ _ _) as [s|]; [eexists; reflexivity | discriminate]. }
    destruct Hrun as [s Hs]. rewrite Hops, untagSteps_reach, forOf_app in Hs.
    destruct (forOf _ (untagSteps (before ++ [(d, ts1)])) self) as [mid|] eqn:Hmid;
      [|discriminate].
    cbn [cbind] in Hs. rewrite forOf_cons in Hs. cbn [fst snd] in Hs.
    destruct (untagTag loadPackages d t mid) as [next|] eqn:Hstep; [|discriminate].
    destruct (untagTag_log _ _ _ _ Hstep) as (gh & Hg & Hle & Hgt).
    exists mid, next, gh.
    split; [rewrite performUntagging_steps by apply Hne; now rewrite Hmid|].
    split; [|auto].
    rewrite performUntagging_steps by apply Hne.
    rewrite untagSteps_next, forOf_app, Hmid. cbn [cbind].
    rewrite forOf_cons. cbn [fst snd]. now rewrite Hstep.
  - destruct untagOperations as [|e ops] eqn:Hops.
    { cbn in H. injection H as <- <-. exists []. split; [now rewrite app_nil_r|].
      intros t m ix []. }
    rewrite <- Hops in *.
    rewrite performUntagging_steps in H by (rewrite Hops; discriminate).
    destruct (forOf _ (untagSteps untagOperations) self) as [s|] eqn:Hs;
      [|discriminate].
    cbn [cbind] in H. injection H as <- <-.
    destruct (steps_grow _ _ _ Hs) as [ext Hext]. exists ext.
    split; [exact Hext|]. intros t m ix Hin.
    destruct (steps_writes _ _ _ _ Hs Hext t m ix Hin)
      as (pre & d & post & mid & gh & rest & Hl & Hpre & Hg & Hlt & Hc).
    destruct (untagSteps_split _ _ _ _ _ Hl)
      as (before & ts1 & ts2 & after & Hdec & ->).
    exists before, d, ts1, ts2, after, mid, gh, rest.
    split; [exact Hdec|].
    split; [rewrite performUntagging_steps by apply Hne; now rewrite Hpre|].
    auto.
Qed.

End UntaggingFacts.

Lemma performUntagging_writes_only_multi_tagged_witness :
  exists self',
    Deleter.performUntagging Scenarios.reloadTags
      [("sha256:single", ["only"]); ("sha256:multi", ["v1.0"])]
      Scenarios.deleterTags = Normal (true, self') /\
    Deleter.performUntagging Scenarios.reloadTags
      [("sha256:single", ["only"])] Scenarios.deleterTags
      = Normal (true, Scenarios.deleterTags) /\
    exists m ix rest,
      calls self' = (PutManifest "v1.0" m ix :: rest)%list /\
      forall c, In c rest -> forall t' m' ix', c <> PutManifest t' m' ix'.
Proof.
  eexists. split; [vm_compute; reflexivity|].
  destruct (performUntagging_writes_only_multi_tagged Scenarios.reloadTags
              [("sha256:single", ["only"]); ("sha256:multi", ["v1.0"])]
              Scenarios.deleterTags _ true ltac:(vm_compute; reflexivity))
    as [Hsteps _].
  split.
  - destruct (Hsteps [] "sha256:single" [] "only" []
                [("sha256:multi", ["v1.0"])] eq_refl)
      as (mid & next & gh & Hmid & Hnext & Hg & Hle & _).
    cbn in Hmid. injection Hmid as <-.
    cbn [app] in Hnext. rewrite Hnext. f_equal. f_equal. apply Hle.
    cbn in Hg. injection Hg as <-. simpl. lia.
  - eexists. eexists. eexists. split; [vm_compute; reflexivity|].
    intros c [<- | [<- | []]]; discriminate.
Defined.

Lemma untagTag_deletes_with_tag_witness :
  exists self',
    Deleter.untagTag Scenarios.reloadTags "sha256:multi" "v1.0" Scenarios.deleterTags
      = Normal self' /\
    calls self' =
      [PutManifest "v1.0" {| manifests := None; layers := Some [] |} false;
       LoadPackages "app" false;
       DeletePackageVersion "app" 9 "sha256:empty" ["v1.0"] None].
Proof.
  destruct (untagTag_deletes_with_tag Scenarios.reloadTags
              "sha256:multi" "v1.0" Scenarios.deleterTags
              (Scenarios.pkg 1 "sha256:multi" ["v1.0"; "latest"])
              "sha256:empty" 9%positive)
    as (self' & E & _ & Hcalls).
  - reflexivity.
  - simpl. lia.
  - reflexivity.
  - discriminate.
  - reflexivity.
  - exists self'. split; [exact E | exact Hcalls].
Defined.

(** C5, as stated, fails: the deletion after the write passes the tag. *)
Lemma performUntagging_passes_tag :
  exists self',
    Deleter.performUntagging Scenarios.reloadTags
      [("sha256:multi", ["v1.0"])] Scenarios.deleterTags = Normal (true, self') /\
    calls self' =
      [PutManifest "v1.0" {| manifests := None; layers := Some [] |} false;
       LoadPackages "app" false;
       DeletePackageVersion "app" 9 "sha256:empty" ["v1.0"] None] /\
    forall target id d label,
      ~ In (DeletePackageVersion target id d [] label) (calls self').
Proof.
  eexists. split; [vm_compute; reflexivity|]. split; [reflexivity|].
  intros target id d label [H | [H | [H | []]]]; discriminate.
Qed.

Lemma performUntagging_result_witness :
  exists b self',
    Deleter.performUntagging Scenarios.reloadTags
      [("sha256:multi", ["v1.0"])] Scenarios.deleterTags = Normal (b, self') /\
    (b = true <-> [("sha256:multi", ["v1.0"])] <> []).
Proof.
  eexists. eexists. split; [vm_compute; reflexivity|].
  eapply (performUntagging_result Scenarios.reloadTags
            [("sha256:multi", ["v1.0"])] Scenarios.deleterTags).
  vm_compute. reflexivity.
Defined.

(** C6, as stated, fails: a non-empty map whose only target has a single
    tag issues no call and still yields [true]. *)
Lemma performUntagging_true_without_write :
  getPackageByDigest (packageRepo Scenarios.ctxTags) "sha256:single"
    = Some (Scenarios.pkg 2 "sha256:single" ["only"]) /\
  Deleter.performUntagging Scenarios.reloadTags
    [("sha256:single", ["only"])] Scenarios.deleterTags
    = Normal (true, Scenarios.deleterTags) /\
  calls Scenarios.deleterTags = [].
Proof. repeat split. Qed.

Section AnalyzerFacts.

Import ManifestAnalyzer.

Lemma shas_sdel_same x s : shas x (sdel x s) = false.
Proof. apply shas_false. intros H. apply In_sdel in H. tauto. Qed.

Lemma shas_sdel_false x y s : shas x s = false -> shas x (sdel y s) = false.
Proof.
  rewrite !shas_false. intros H Hin. apply In_sdel in Hin. tauto.
Qed.

Lemma recordChild_recorded d st im :
  recorded st -> recorded (recordChild d st im).
Proof.
  destruct st as [digests m]. unfold recordChild. intros Inv.
  destruct (shas (digest im) digests) eqn:Hin; [|exact Inv].
  intros c ps. cbn [fst snd].
  destruct (String.eqb c (digest im)) eqn:Ec.
  - apply String.eqb_eq in Ec. subst c. rewrite lookup_insert_eq.
    intros [= <-]. split; [|apply shas_sdel_same].
    destruct (m !! digest im) as [old|] eqn:Hold.
    + destruct (Inv _ _ Hold) as [_ Hno]. cbn [fst] in Hno. congruence.
    + rewrite union_empty_l_L. apply size_singleton.
  - apply String.eqb_neq in Ec. rewrite lookup_insert_ne by congruence.
    intros Hc. destruct (Inv _ _ Hc) as [H1 H2]. split; [exact H1|].
    now apply shas_sdel_false.
Qed.

Lemma analyze_recorded ctx st d : recorded st -> recorded (analyze ctx st d).
Proof.
  unfold analyze. intros Inv. destruct (shas d (fst st)); [|exact Inv].
  destruct (manifests _) as [ms|]; [|exact Inv].
  revert st Inv. induction ms as [|im ms IH]; intros st Inv; [exact Inv|].
  simpl. apply IH. now apply recordChild_recorded.
Qed.

(** The map never holds more than one parent for a child. *)
Lemma loadDigestUsedByMap_one_parent ctx c ps :
  loadDigestUsedByMap ctx !! c = Some ps -> size ps = 1.
Proof.
  unfold loadDigestUsedByMap.
  assert (H : forall l st, recorded st -> recorded (fold_left (analyze ctx) l st)).
  { induction l as [|d l IH]; intros st Inv; [exact Inv|].
    simpl. apply IH. now apply analyze_recorded. }
  intros Hc. eapply (H _ (getDigests (packageRepo ctx), ∅)); [|exact Hc].
  intros c' ps'. cbn [snd]. rewrite lookup_empty. discriminate.
Qed.

End AnalyzerFacts.

(** C2 at the failing input: [P1] and [P2] are in the index and both
    list [c], yet only [P1] is recorded. *)
Theorem loadDigestUsedByMap_drops_second_parent :
  manifests (getManifestByDigest Scenarios.ctxShared "sha256:P1")
    = Some [Scenarios.child "sha256:c"] /\
  manifests (getManifestByDigest Scenarios.ctxShared "sha256:P2")
    = Some [Scenarios.child "sha256:c"] /\
  getDigests (packageRepo Scenarios.ctxShared)
    = ["sha256:P1"; "sha256:P2"; "sha256:c"] /\
  ManifestAnalyzer.loadDigestUsedByMap Scenarios.ctxShared !! "sha256:c"
    = Some {["sha256:P1"]} /\
  "sha256:P2" ∉ usedBy (ManifestAnalyzer.loadDigestUsedByMap Scenarios.ctxShared)
                  "sha256:c".
Proof.
  assert (E : ManifestAnalyzer.loadDigestUsedByMap Scenarios.ctxShared
                !! "sha256:c" = Some {["sha256:P1"]})
    by (vm_compute; reflexivity).
  do 3 (split; [reflexivity|]). split; [exact E|].
  unfold usedBy. rewrite E. intros H. apply elem_of_singleton in H.
  discriminate.
Qed.

Section ValidatorFacts.

Import ImageValidator.

(** A digest with a package is flagged as partial as soon as one child
    is missing, also when all of them are. *)
Lemma partialScan_flags ctx d ms acc :
  existsb (childMissing ctx) ms = true ->
  getPackageByDigest (packageRepo ctx) d <> None ->
  partialScan ctx d ms acc = Normal (sadd d acc).
Proof.
  intros Hex Hp. induction ms as [|im ms IH]; [discriminate|].
  cbn [partialScan]. cbn [existsb] in Hex.
  destruct (childMissing ctx im).
  - unfold logFlagged. destruct (getPackageByDigest _ d); [reflexivity | congruence].
  - apply IH. exact Hex.
Qed.

End ValidatorFacts.

(** C9 at the failing input of Scenario D: both children of [ghost1] are
    missing, and [findPartialImages] flags it like [findGhostImages]. *)
Theorem findPartialImages_flags_ghost :
  manifests (getManifestByDigest Scenarios.ctxGhost "ghost1")
    = Some [Scenarios.child "sha256:missing1"; Scenarios.child "sha256:missing2"] /\
  getIdByDigest (packageRepo Scenarios.ctxGhost) "sha256:missing1" = None /\
  getIdByDigest (packageRepo Scenarios.ctxGhost) "sha256:missing2" = None /\
  ImageValidator.findGhostImages Scenarios.ctxGhost ["ghost1"] = Normal ["ghost1"] /\
  ImageValidator.findPartialImages Scenarios.ctxGhost ["ghost1"] = Normal ["ghost1"].
Proof. repeat split. Qed.

Section StrategyFacts.

Import DeletionStrategy.

Lemma pushOperation_has d tag ops : scheduled (pushOperation d tag ops) d tag.
Proof.
  induction ops as [|[k ts] ops IH]; simpl.
  - exists [tag]. simpl. auto.
  - destruct (String.eqb k d) eqn:E.
    + apply String.eqb_eq in E. subst k. exists (ts ++ [tag])%list.
      split; [now left | apply in_or_app; right; now left].
    + destruct IH as (ts' & H1 & H2). exists ts'. split; [now right | exact H2].
Qed.

Lemma pushOperation_keeps d tag ops d' t :
  scheduled ops d' t -> scheduled (pushOperation d tag ops) d' t.
Proof.
  intros (ts & Hin & Ht). induction ops as [|[k ks] ops IH]; [destruct Hin|].
  simpl. destruct (String.eqb k d) eqn:E.
  - destruct Hin as [[= -> ->] | Hin].
    + exists (ts ++ [tag])%list. split; [now left | apply in_or_app; now left].
    + exists ts. split; [now right | exact Ht].
  - destruct Hin as [[= -> ->] | Hin].
    + exists ts. split; [now left | exact Ht].
    + destruct (IH Hin) as (ts' & H1 & H2). exists ts'. split; [now right | exact H2].
Qed.

Lemma startsWith_truthy tag p :
  p <> "" -> startsWith tag p = true -> truthy tag = true.
Proof.
  intros Hp H. destruct tag; [|reflexivity].
  destruct p; [congruence | discriminate].
Qed.

Lemma truthy_opt_Some d : d <> "" -> truthy_opt (Some d) = Some d.
Proof.
  intros H. unfold truthy_opt, truthy. apply String.eqb_neq in H.
  now rewrite H.
Qed.

Lemma classifyTag_step ctx ex tag st st' :
  classifyTag ctx ex tag st = Normal st' ->
  extends st st' /\ classified ctx ex tag st'.
Proof.
  destruct st as [std ops]. unfold classifyTag, classified, extends.
  destruct (shas tag ex) eqn:Hex.
  { intros [= <-]. split; [auto | discriminate]. }
  destruct (startsWith tag "sha256:") eqn:Hpre.
  { intros [= <-]. cbn [fst snd]. split.
    - split; [|auto]. intros x Hx. apply In_sadd. now right.
    - intros _. split; [|discriminate]. intros _. apply In_sadd. now left. }
  destruct (truthy_opt (getDigestByTag (packageRepo ctx) tag)) as [md|] eqn:Hd.
  2:{ intros [= <-]. split; [auto|]. intros _. split; [discriminate|].
      intros d gh _ Hg Hne. rewrite Hg, (truthy_opt_Some d Hne) in Hd.
      discriminate. }
  destruct (getPackageByDigest (packageRepo ctx) md) as [pk|] eqn:Hp;
    [|discriminate].
  assert (Hsame : forall d gh, getDigestByTag (packageRepo ctx) tag = Some d ->
            d <> "" -> getPackageByDigest (packageRepo ctx) d = Some gh ->
            d = md /\ gh = pk).
  { intros d gh Hg Hne Hgh. rewrite Hg, (truthy_opt_Some d Hne) in Hd.
    injection Hd as ->. split; congruence. }
  destruct (Nat.ltb 1 (List.length (tags pk))) eqn:Hlt.
  { intros [= <-]. cbn [fst snd]. apply Nat.ltb_lt in Hlt. split.
    - split; [auto|]. intros d t. apply pushOperation_keeps.
    - intros _. split; [discriminate|]. intros d gh _ Hg Hne Hgh.
      destruct (Hsame d gh Hg Hne Hgh) as [-> ->]. split; [lia|].
      intros _. apply pushOperation_has. }
  destruct (Nat.eqb (List.length (tags pk)) 1) eqn:Heq.
  { intros [= <-]. cbn [fst snd]. apply Nat.ltb_ge in Hlt. split.
    - split; [|auto]. intros x Hx. apply In_sadd. now right.
    - intros _. split; [discriminate|]. intros d gh _ Hg Hne Hgh.
      destruct (Hsame d gh Hg Hne Hgh) as [-> ->]. split; [|lia].
      intros _. apply In_sadd. now left. }
  intros [= <-]. apply Nat.ltb_ge in Hlt. apply Nat.eqb_neq in Heq.
  split; [auto|]. intros _. split; [discriminate|]. intros d gh _ Hg Hne Hgh.
  destruct (Hsame d gh Hg Hne Hgh) as [-> ->]. split; lia.
Qed.

Lemma classified_extends ctx ex tag st st' :
  extends st st' -> classified ctx ex tag st -> classified ctx ex tag st'.
Proof.
  intros [H1 H2] Hc Hex. destruct (Hc Hex) as [Ha Hb]. split.
  - auto.
  - intros d gh Hp Hg Hne Hgh. destruct (Hb d gh Hp Hg Hne Hgh). split; auto.
Qed.

Lemma classify_loop ctx ex l : forall st st',
  forOf (classifyTag ctx ex) l st = Normal st' ->
  extends st st' /\ forall tag, In tag l -> classified ctx ex tag st'.
Proof.
  induction l as [|t l IH]; intros st st'.
  - intros [= <-]. split; [split; auto | intros tag []].
  - rewrite forOf_cons.
    destruct (classifyTag ctx ex t st) as [st1|] eqn:E; simpl; [|discriminate].
    intros H. apply IH in H. destruct H as [Hext Hall].
    apply classifyTag_step in E. destruct E as [Hext1 Hcl].
    split.
    + destruct Hext, Hext1. split; auto.
    + intros tag [<- | Hin]; [|auto].
      eapply classified_extends; eauto.
Qed.

Lemma stageTag_step ctx st tag :
  narrows st (stageTag ctx st tag) /\ staged ctx tag (stageTag ctx st tag).
Proof.
  unfold stageTag, narrows, staged.
  destruct (startsWith tag "sha256:") eqn:Hpre.
  - unfold truthy_opt.
    rewrite (startsWith_truthy tag "sha256:" ltac:(discriminate) Hpre).
    cbn [fst snd]. repeat split; try discriminate.
    + intros x Hx. apply In_sadd. now right.
    + intros x Hx. apply In_sdel in Hx. tauto.
    + apply In_sadd. now left.
    + intros Hx. apply In_sdel in Hx. tauto.
  - destruct (truthy_opt (getDigestByTag (packageRepo ctx) tag)) as [md|] eqn:Hd.
    + cbn [fst snd]. split; [split|split; [discriminate|]].
      * intros x Hx. apply In_sadd. now right.
      * intros x Hx. apply In_sdel in Hx. tauto.
      * intros d _ Hg Hne. rewrite Hg, (truthy_opt_Some d Hne) in Hd.
        injection Hd as ->. split; [apply In_sadd; now left|].
        intros Hx. apply In_sdel in Hx. tauto.
    + split; [split; auto|]. split; [discriminate|].
      intros d _ Hg Hne. rewrite Hg, (truthy_opt_Some d Hne) in Hd.
      discriminate.
Qed.

Lemma stage_loop ctx l : forall st,
  narrows st (fold_left (stageTag ctx) l st) /\
  forall tag, In tag l -> staged ctx tag (fold_left (stageTag ctx) l st).
Proof.
  induction l as [|t l IH]; intros st.
  - split; [split; auto | intros tag []].
  - cbn [fold_left]. destruct (IH (stageTag ctx st t)) as [[Hn1 Hn2] Hall].
    destruct (stageTag_step ctx st t) as [[Hs1 Hs2] Hst]. split.
    + split; auto.
    + intros tag [<- | Hin]; [|auto].
      destruct Hst as [Ha Hb]. split.
      * intros Hp. destruct (Ha Hp). split; auto.
      * intros d Hp Hg Hne. destruct (Hb d Hp Hg Hne). split; auto.
Qed.

Variable regexTest : string -> option (string -> bool).
Variable wcmatch : list string -> string -> bool.

Lemma expandTags_returns ctx filterSet :
  (forall pat, truthy_opt (deleteTags (config ctx)) = Some pat ->
     exists m, ImageFilter.isTagMatch regexTest wcmatch
                 (useRegex (config ctx)) pat = Normal m) ->
  (forall d, In d filterSet ->
     getPackageByDigest (packageRepo ctx) d <> None) ->
  exists matchTags,
    ImageFilter.expandTags regexTest wcmatch ctx filterSet = Normal matchTags.
Proof.
  intros Hpat Hall. unfold ImageFilter.expandTags.
  destruct (truthy_opt _) as [pat|]; [|eexists; reflexivity].
  destruct (Hpat pat eq_refl) as [m Hm]. rewrite Hm. cbn [cbind].
  assert (H : forall l acc,
            (forall d, In d l -> getPackageByDigest (packageRepo ctx) d <> None) ->
            exists r, forOf (ImageFilter.expandDigest ctx m) l acc = Normal r).
  { induction l as [|d l IH]; intros acc Hl; [eexists; reflexivity|].
    rewrite forOf_cons. unfold ImageFilter.expandDigest at 1.
    destruct (getPackageByDigest (packageRepo ctx) d) eqn:E.
    - cbn [cbind]. apply IH. intros x Hx. apply Hl. now right.
    - exfalso. apply (Hl d); [now left | exact E]. }
  destruct (H filterSet [] Hall) as [r Hr]. rewrite Hr. eexists. reflexivity.
Qed.

Lemma classify_returns ctx ex l : forall st,
  (forall t d, getDigestByTag (packageRepo ctx) t = Some d ->
     getPackageByDigest (packageRepo ctx) d <> None) ->
  exists st', forOf (classifyTag ctx ex) l st = Normal st'.
Proof.
  induction l as [|t l IH]; intros st Hidx; [eexists; reflexivity|].
  rewrite forOf_cons.
  assert (E : exists st1, classifyTag ctx ex t st = Normal st1).
  { destruct st as [std ops]. unfold classifyTag.
    destruct (shas t ex); [eexists; reflexivity|].
    destruct (startsWith t "sha256:"); [eexists; reflexivity|].
    destruct (getDigestByTag (packageRepo ctx) t) as [d|] eqn:Hd;
      [|eexists; reflexivity].
    cbn [truthy_opt]. destruct (truthy d); [|eexists; reflexivity].
    destruct (getPackageByDigest (packageRepo ctx) d) as [gh|] eqn:Hp.
    - destruct (Nat.ltb _ _); [eexists; reflexivity|].
      destruct (Nat.eqb _ _); eexists; reflexivity.
    - exfalso. apply (Hidx t d Hd Hp). }
  destruct E as [st1 E]. rewrite E. cbn [cbind]. now apply IH.
Qed.

(** On a snapshot where the candidate digests and the tag targets have
    package records, [processTagDeletions] returns a plan. *)
Lemma processTagDeletions_returns ctx filterSet excludeTags :
  (forall pat, truthy_opt (deleteTags (config ctx)) = Some pat ->
     exists m, ImageFilter.isTagMatch regexTest wcmatch
                 (useRegex (config ctx)) pat = Normal m) ->
  (forall d, In d filterSet ->
     getPackageByDigest (packageRepo ctx) d <> None) ->
  (forall t d, getDigestByTag (packageRepo ctx) t = Some d ->
     getPackageByDigest (packageRepo ctx) d <> None) ->
  exists plan filterSet',
    processTagDeletions regexTest wcmatch ctx filterSet excludeTags
      = Normal (plan, filterSet').
Proof.
  intros Hpat Hfs Hidx. unfold processTagDeletions.
  destruct (truthy_opt _) as [pat|] eqn:Ht; [|eexists; eexists; reflexivity].
  destruct (expandTags_returns ctx filterSet) as [mt Hmt]; [|exact Hfs|].
  { intros pat' Hp'. apply Hpat. congruence. }
  rewrite Hmt. cbn [cbind].
  destruct (Nat.eqb _ 0); [eexists; eexists; reflexivity|].
  destruct (classify_returns ctx excludeTags mt ([], []) Hidx) as [[std ops] Hc].
  rewrite Hc. cbn [cbind].
  destruct (_ && _); eexists; eexists; reflexivity.
Qed.

(** C8: with [keepNtagged] set, [processTagDeletions] leaves the
    delete-set empty and the candidate set untouched, while the matched
    tags of multi-tagged packages are still recorded as untag operations;
    without [keepNtagged], every matched, non-excluded raw digest and
    the digest of every matched, non-excluded single-tag package is in
    the delete-set and no longer in the candidate set. *)
Theorem processTagDeletions_defers_to_keepNtagged
  (ctx : CleanupContext) (filterSet excludeTags matchTags : list string)
  (plan : DeletionPlan) (filterSet' : list string) :
  ImageFilter.expandTags regexTest wcmatch ctx filterSet = Normal matchTags ->
  processTagDeletions regexTest wcmatch ctx filterSet excludeTags
    = Normal (plan, filterSet') ->
  (keepNtagged (config ctx) <> None ->
   deleteSet plan = [] /\ filterSet' = filterSet) /\
  (forall tag d gh, In tag matchTags -> shas tag excludeTags = false ->
     startsWith tag "sha256:" = false ->
     getDigestByTag (packageRepo ctx) tag = Some d -> d <> "" ->
     getPackageByDigest (packageRepo ctx) d = Some gh ->
     1 < List.length (tags gh) ->
     scheduled (untagOperations plan) d tag) /\
  (keepNtagged (config ctx) = None ->
   forall tag, In tag matchTags -> shas tag excludeTags = false ->
     (startsWith tag "sha256:" = true ->
      In tag (deleteSet plan) /\ ~ In tag filterSet') /\
     (forall d gh, startsWith tag "sha256:" = false ->
        getDigestByTag (packageRepo ctx) tag = Some d -> d <> "" ->
        getPackageByDigest (packageRepo ctx) d = Some gh ->
        List.length (tags gh) = 1 ->
        In d (deleteSet plan) /\ ~ In d filterSet')).
Proof.
  intros Hm. unfold processTagDeletions.
  destruct (truthy_opt (deleteTags (config ctx))) as [pat|] eqn:Hpat.
  2:{ unfold ImageFilter.expandTags in Hm. rewrite Hpat in Hm.
      injection Hm as <-. intros [= <- <-].
      split; [auto|]. split; [intros tag d gh []|]. intros _ tag []. }
  rewrite Hm. cbn [cbind].
  destruct (Nat.eqb (List.length matchTags) 0) eqn:Hlen.
  { apply Nat.eqb_eq in Hlen. destruct matchTags; [|discriminate].
    intros [= <- <-]. split; [auto|]. split; [intros tag d gh []|].
    intros _ tag []. }
  destruct (forOf (classifyTag ctx excludeTags) matchTags ([], []))
    as [[standardTags operations]|] eqn:Hcls; cbn [cbind]; [|discriminate].
  apply classify_loop in Hcls. destruct Hcls as [_ Hcl].
  assert (Huntag : forall tag d gh, In tag matchTags ->
            shas tag excludeTags = false ->
            startsWith tag "sha256:" = false ->
            getDigestByTag (packageRepo ctx) tag = Some d -> d <> "" ->
            getPackageByDigest (packageRepo ctx) d = Some gh ->
            1 < List.length (tags gh) -> scheduled operations d tag).
  { intros tag d gh Hin Hex Hp Hg Hne Hgh Hlt.
    destruct (Hcl tag Hin Hex) as [_ Hb].
    destruct (Hb d gh Hp Hg Hne Hgh) as [_ Hs]. now apply Hs. }
  destruct (keepNtagged (config ctx)) as [n|] eqn:Hkeep.
  { rewrite andb_false_r. intros [= <- <-]. cbn [deleteSet untagOperations].
    split; [auto|]. split; [exact Huntag | discriminate]. }
  rewrite andb_true_r.
  destruct (Nat.ltb 0 (List.length standardTags)) eqn:Hstd.
  - intros [= <- <-]. cbn [deleteSet untagOperations].
    split; [congruence|]. split; [exact Huntag|].
    intros _ tag Hin Hex.
    destruct (stage_loop ctx standardTags ([], filterSet)) as [_ Hst].
    destruct (Hcl tag Hin Hex) as [Ha Hb]. cbn [fst snd] in Ha, Hb. split.
    + intros Hp. destruct (Hst tag (Ha Hp)) as [Hs _]. now apply Hs.
    + intros d gh Hp Hg Hne Hgh Hone.
      destruct (Hb d gh Hp Hg Hne Hgh) as [Hin' _].
      destruct (Hst tag (Hin' Hone)) as [_ Hs]. now apply Hs.
  - apply Nat.ltb_ge in Hstd.
    assert (standardTags = []) by (destruct standardTags; [reflexivity | simpl in Hstd; lia]).
    subst standardTags.
    intros [= <- <-]. cbn [deleteSet untagOperations].
    split; [congruence|]. split; [exact Huntag|].
    intros _ tag Hin Hex. destruct (Hcl tag Hin Hex) as [Ha Hb].
    cbn [fst snd] in Ha, Hb. split.
    + intros Hp. destruct (Ha Hp).
    + intros d gh Hp Hg Hne Hgh Hone.
      destruct (Hb d gh Hp Hg Hne Hgh) as [Hin' _]. destruct (Hin' Hone).
Qed.

End StrategyFacts.

Lemma processTagDeletions_defers_to_keepNtagged_witness :
  (exists plan,
     DeletionStrategy.processTagDeletions (fun _ => Some (fun _ => false)) Scenarios.exact
       (Scenarios.ctxSelect (Some 5)) Scenarios.selectSet []
       = Normal (plan, Scenarios.selectSet) /\
     DeletionStrategy.deleteSet plan = [] /\
     scheduled (DeletionStrategy.untagOperations plan) "sha256:two" "rc2") /\
  (exists plan filterSet',
     DeletionStrategy.processTagDeletions (fun _ => Some (fun _ => false)) Scenarios.exact
       (Scenarios.ctxSelect None) Scenarios.selectSet []
       = Normal (plan, filterSet') /\
     (In "sha256:raw" (DeletionStrategy.deleteSet plan) /\
      ~ In "sha256:raw" filterSet') /\
     (In "sha256:one" (DeletionStrategy.deleteSet plan) /\
      ~ In "sha256:one" filterSet')).
Proof.
  split.
  - eexists. split; [reflexivity|].
    destruct (processTagDeletions_defers_to_keepNtagged
                (fun _ => Some (fun _ => false)) Scenarios.exact
                (Scenarios.ctxSelect (Some 5)) Scenarios.selectSet []
                ["rc1"; "rc2"; "sha256:raw"] _ _ eq_refl eq_refl)
      as (Hk & Hu & _).
    split; [apply Hk; discriminate|].
    apply (Hu "rc2" "sha256:two" (Scenarios.pkg 2 "sha256:two" ["rc2"; "stable"]));
      try reflexivity; [simpl; auto | discriminate | simpl; lia].
  - eexists. eexists. split; [reflexivity|].
    destruct (processTagDeletions_defers_to_keepNtagged
                (fun _ => Some (fun _ => false)) Scenarios.exact
                (Scenarios.ctxSelect None) Scenarios.selectSet []
                ["rc1"; "rc2"; "sha256:raw"] _ _ eq_refl eq_refl)
      as (_ & _ & Hd).
    split.
    + apply (Hd eq_refl "sha256:raw"); [simpl; auto | reflexivity | reflexivity].
    + apply (Hd eq_refl "rc1" ltac:(simpl; auto) eq_refl)
        with (gh := Scenarios.pkg 1 "sha256:one" ["rc1"]);
        try reflexivity. discriminate.
Defined.



(** * Further facts: sets and the snapshot *)

Section MoreSetFacts.

Lemma NoDup_sadd x s : List.NoDup s -> List.NoDup (sadd x s).
Proof.
  intros H. unfold sadd. destruct (shas x s) eqn:E; [exact H|].
  apply shas_false in E. apply List.NoDup_app; auto.
  - repeat constructor. intros [].
  - intros y Hy [<- | []]. contradiction.
Qed.

Lemma NoDup_sdel x s : List.NoDup s -> List.NoDup (sdel x s).
Proof. intros H. unfold sdel. now apply List.NoDup_filter. Qed.

Lemma list_to_sset_spec l :
  List.NoDup (list_to_sset l) /\ forall x, In x (list_to_sset l) <-> In x l.
Proof.
  unfold list_to_sset.
  assert (H : forall l acc, List.NoDup acc ->
            List.NoDup (fold_left (fun s x => sadd x s) l acc) /\
            forall x, In x (fold_left (fun s x => sadd x s) l acc) <->
                      In x acc \/ In x l).
  { clear l. induction l as [|a l IH]; intros acc Hnd.
    - split; [exact Hnd|]. intros x. simpl. tauto.
    - destruct (IH (sadd a acc) (NoDup_sadd a acc Hnd)) as [H1 H2].
      split; [exact H1|]. intros x. cbn [fold_left]. rewrite H2, In_sadd.
      simpl. intuition. }
  destruct (H l [] (List.NoDup_nil _)) as [H1 H2]. split; [exact H1|].
  intros x. rewrite H2. simpl. tauto.
Qed.

Lemma getDigests_package r d :
  In d (getDigests r) -> getPackageByDigest r d <> None.
Proof.
  unfold getDigests. rewrite (proj2 (list_to_sset_spec _)).
  rewrite in_map_iff. intros (p & <- & Hp) Hnone.
  unfold getPackageByDigest in Hnone.
  apply (find_none _ _ Hnone) in Hp. rewrite String.eqb_refl in Hp.
  discriminate.
Qed.

Lemma getDigests_iff r d :
  In d (getDigests r) <-> getPackageByDigest r d <> None.
Proof.
  split; [apply getDigests_package|].
  destruct (getPackageByDigest r d) as [p|] eqn:E; [|congruence]. intros _.
  apply getPackageByDigest_Some in E. destruct E as [<- Hin].
  unfold getDigests. apply list_to_sset_spec. now apply in_map.
Qed.

Lemma truthy_opt_iff o d : truthy_opt o = Some d <-> o = Some d /\ d <> "".
Proof.
  unfold truthy_opt, truthy. destruct o as [s|]; [|split; [discriminate | intros [[=] _]]].
  destruct (String.eqb s "") eqn:E; cbn [negb].
  - apply String.eqb_eq in E. subst. split; [discriminate|].
    intros [[= <-] H]. congruence.
  - apply String.eqb_neq in E. split; [intros [= <-]; auto|].
    intros [[= <-] _]. reflexivity.
Qed.

End MoreSetFacts.

(** * Further facts: the image validator *)

Section ValidatorMore.

Import ImageValidator.

Lemma substring_all n : forall s, String.length s <= n -> String.substring 0 n s = s.
Proof.
  induction n as [|n IH]; intros [|c s] H; simpl in *; try reflexivity; try lia.
  f_equal. apply IH. lia.
Qed.

Lemma replace_eq pat rep s :
  replace pat rep s =
  if String.prefix pat s then rep ++ dropN (String.length pat) s
  else match s with
       | EmptyString => EmptyString
       | String c r => String c (replace pat rep r)
       end.
Proof. destruct s; reflexivity. Qed.

Lemma prefix_app p r : String.prefix p (p ++ r) = true.
Proof.
  induction p as [|c p IH]; simpl; [destruct r; reflexivity|].
  destruct (Ascii.ascii_dec c c); congruence.
Qed.

Lemma dropN_app p r : dropN (String.length p) (p ++ r) = r.
Proof. induction p as [|c p IH]; simpl; auto. Qed.

(** [s.replace(pat, rep)] on a string that starts with [pat]. *)
Lemma replace_head pat rep rest : replace pat rep (pat ++ rest) = rep ++ rest.
Proof. now rewrite replace_eq, prefix_app, dropN_app. Qed.

(** X5: a referrer tag [sha256-<rest>] names the parent digest
    [sha256:] followed by the first 64 characters of [rest]; whatever
    follows the 64th character is ignored. *)
Theorem referrerParent_first_64 (rest : string) :
  referrerParent ("sha256-" ++ rest) = "sha256:" ++ String.substring 0 64 rest.
Proof.
  unfold referrerParent. rewrite replace_head.
  change (String.length ("sha256:" ++ rest)) with (7 + String.length rest).
  destruct (Nat.ltb 71 (7 + String.length rest)) eqn:E.
  - reflexivity.
  - apply Nat.ltb_ge in E. rewrite substring_all by lia. reflexivity.
Qed.

Lemma orphan_fold ctx l : forall acc o,
  In o (fold_left (orphanStep ctx) l acc) <->
  In o acc \/
  exists tag, In tag l /\ startsWith tag "sha256-" = true /\
    getIdByDigest (packageRepo ctx) (referrerParent tag) = None /\
    getDigestByTag (packageRepo ctx) tag = Some o /\ o <> "".
Proof.
  induction l as [|t l IH]; intros acc o.
  - simpl. split; [auto | intros [H | (tag & [] & _)]; exact H].
  - cbn [fold_left]. rewrite IH. unfold orphanStep.
    destruct (startsWith t "sha256-") eqn:Hp.
    2:{ split; intros [H | (tag & Hin & Hs & Hr)]; auto.
        - right. exists tag. split; [now right | auto].
        - destruct Hin as [<- | Hin]; [congruence|]. right. exists tag. auto. }
    destruct (getIdByDigest _ (referrerParent t)) as [i|] eqn:Hid.
    { split; intros [H | (tag & Hin & Hs & Hi & Hr)]; auto.
      - right. exists tag. split; [now right | auto].
      - destruct Hin as [<- | Hin]; [congruence|]. right. exists tag. auto. }
    destruct (truthy_opt (getDigestByTag (packageRepo ctx) t)) as [od|] eqn:Hd.
    + apply truthy_opt_iff in Hd. destruct Hd as [Hd Hne]. rewrite In_sadd.
      split.
      * intros [[-> | H] | (tag & Hin & Hr)]; auto.
        -- right. exists t. split; [now left | auto].
        -- right. exists tag. split; [now right | auto].
      * intros [H | (tag & [<- | Hin] & Hs & Hi & Hg & Hn)]; auto.
        -- left. left. congruence.
        -- right. exists tag. auto.
    + split; intros [H | (tag & Hin & Hs & Hi & Hg & Hn)]; auto.
      * right. exists tag. split; [now right | auto].
      * destruct Hin as [<- | Hin].
        -- assert (truthy_opt (getDigestByTag (packageRepo ctx) t) = Some o)
             by (apply truthy_opt_iff; auto). congruence.
        -- right. exists tag. auto.
Qed.

(** X6: [findOrphanedImages] returns exactly the digests behind the
    referrer tags whose parent digest has no package in the index. *)
Theorem findOrphanedImages_exact (ctx : CleanupContext) (o : string) :
  In o (findOrphanedImages ctx) <->
  exists tag, In tag (getTags (packageRepo ctx)) /\
    startsWith tag "sha256-" = true /\
    getIdByDigest (packageRepo ctx) (referrerParent tag) = None /\
    getDigestByTag (packageRepo ctx) tag = Some o /\ o <> "".
Proof.
  unfold findOrphanedImages. rewrite orphan_fold. simpl. tauto.
Qed.

Lemma filter_length_all {A} (f : A -> bool) l :
  Nat.eqb (List.length (List.filter f l)) (List.length l) = forallb f l.
Proof.
  assert (Hle : forall l', List.length (List.filter f l') <= List.length l').
  { induction l' as [|a l' IH]; simpl; [lia|]. destruct (f a); simpl; lia. }
  induction l as [|a l IH]; [reflexivity|]. simpl.
  destruct (f a); simpl; [exact IH|].
  apply Nat.eqb_neq. specialize (Hle l). lia.
Qed.

Lemma logFlagged_Normal ctx d :
  getPackageByDigest (packageRepo ctx) d <> None -> logFlagged ctx d = Normal tt.
Proof.
  unfold logFlagged. destruct (getPackageByDigest _ d); congruence.
Qed.

Lemma logFlagged_inv ctx d u : logFlagged ctx d = Normal u -> u = tt.
Proof. now destruct u. Qed.

Lemma ghostStep_inv ctx d acc r :
  ghostStep ctx d acc = Normal r ->
  r = if allChildrenMissing ctx d then sadd d acc else acc.
Proof.
  unfold ghostStep, allChildrenMissing.
  destruct (manifests _) as [ms|]; [|now intros [= <-]].
  rewrite filter_length_all. destruct (forallb _ ms); [|now intros [= <-]].
  destruct (logFlagged ctx d); [|discriminate]. now intros [= <-].
Qed.

Lemma partialScan_inv ctx d ms acc r :
  partialScan ctx d ms acc = Normal r ->
  r = if existsb (childMissing ctx) ms then sadd d acc else acc.
Proof.
  induction ms as [|im ms IH]; [now intros [= <-]|].
  cbn [partialScan existsb]. destruct (childMissing ctx im); cbn [orb].
  - destruct (logFlagged ctx d); [|discriminate]. now intros [= <-].
  - exact IH.
Qed.

Lemma partialStep_inv ctx d acc r :
  partialStep ctx d acc = Normal r ->
  r = if someChildMissing ctx d then sadd d acc else acc.
Proof.
  unfold partialStep, someChildMissing.
  destruct (manifests _) as [ms|]; [apply partialScan_inv | now intros [= <-]].
Qed.

(** A loop that adds the flagged elements of [l] to a set. *)
Lemma flagged_fold (step : string -> list string -> Completion (list string))
  (flag : string -> bool) :
  (forall d acc r, step d acc = Normal r ->
     r = if flag d then sadd d acc else acc) ->
  forall l acc r, forOf step l acc = Normal r ->
    forall d, In d r <-> In d acc \/ (In d l /\ flag d = true).
Proof.
  intros Hstep. induction l as [|a l IH]; intros acc r.
  - intros [= <-] d. simpl. tauto.
  - rewrite forOf_cons. destruct (step a acc) as [acc1|] eqn:E; [|discriminate].
    cbn [cbind]. intros H d. rewrite (IH _ _ H d).
    apply Hstep in E. subst acc1. destruct (flag a) eqn:Hf.
    + rewrite In_sadd. simpl. split.
      * intros [[-> | H1] | [H1 H2]]; auto.
      * intros [H1 | [[<- | H1] H2]]; auto.
    + simpl. split.
      * intros [H1 | [H1 H2]]; auto.
      * intros [H1 | [[<- | H1] H2]]; auto. congruence.
Qed.

Lemma flagged_returns (step : string -> list string -> Completion (list string))
  (ok : string -> Prop) :
  (forall d acc, ok d -> exists r, step d acc = Normal r) ->
  forall l acc, (forall d, In d l -> ok d) ->
    exists r, forOf step l acc = Normal r.
Proof.
  intros Hstep. induction l as [|a l IH]; intros acc H; [eexists; reflexivity|].
  rewrite forOf_cons. destruct (Hstep a acc (H a ltac:(now left))) as [r ->].
  cbn [cbind]. apply IH. intros d Hd. apply H. now right.
Qed.

Lemma ghostStep_returns ctx d acc :
  getPackageByDigest (packageRepo ctx) d <> None ->
  exists r, ghostStep ctx d acc = Normal r.
Proof.
  intros H. unfold ghostStep. destruct (manifests _); [|eexists; reflexivity].
  destruct (Nat.eqb _ _); [|eexists; reflexivity].
  rewrite logFlagged_Normal by exact H. eexists; reflexivity.
Qed.

Lemma partialStep_returns ctx d acc :
  getPackageByDigest (packageRepo ctx) d <> None ->
  exists r, partialStep ctx d acc = Normal r.
Proof.
  intros H. unfold partialStep. destruct (manifests _) as [ms|]; [|eexists; reflexivity].
  induction ms as [|im ms IH]; [eexists; reflexivity|].
  cbn [partialScan]. destruct (childMissing ctx im); [|exact IH].
  rewrite logFlagged_Normal by exact H. eexists; reflexivity.
Qed.

(** X7: on a candidate set whose digests have packages,
    [findGhostImages] returns, and it returns exactly the candidates
    whose manifest is an index manifest with no child in the index (an
    index manifest without children included). *)
Theorem findGhostImages_exact (ctx : CleanupContext) (filterSet : list string) :
  (forall d, In d filterSet ->
     getPackageByDigest (packageRepo ctx) d <> None) ->
  exists ghosts,
    findGhostImages ctx filterSet = Normal ghosts /\
    forall d, In d ghosts <->
      In d filterSet /\
      exists ms, manifests (getManifestByDigest ctx d) = Some ms /\
        forall im, In im ms -> getIdByDigest (packageRepo ctx) (digest im) = None.
Proof.
  intros H.
  destruct (flagged_returns (ghostStep ctx) _ (ghostStep_returns ctx) filterSet [] H)
    as [r E].
  exists r. split; [exact E|]. intros d.
  rewrite (flagged_fold _ _ (ghostStep_inv ctx) filterSet [] r E d).
  unfold allChildrenMissing. split.
  - intros [[] | [Hin Hall]]. split; [exact Hin|].
    destruct (manifests _) as [ms|]; [|discriminate].
    exists ms. split; [reflexivity|]. intros im Him.
    rewrite forallb_forall in Hall. specialize (Hall im Him).
    unfold childMissing in Hall.
    destruct (getIdByDigest _ _); [discriminate | reflexivity].
  - intros [Hin (ms & Hm & Hall)]. right. split; [exact Hin|].
    rewrite Hm. apply forallb_forall. intros im Him.
    unfold childMissing. now rewrite (Hall im Him).
Qed.

(** X8: on a candidate set whose digests have packages,
    [findPartialImages] returns, and it returns exactly the candidates
    whose manifest is an index manifest with at least one child that is
    not in the index. *)
Theorem findPartialImages_exact (ctx : CleanupContext) (filterSet : list string) :
  (forall d, In d filterSet ->
     getPackageByDigest (packageRepo ctx) d <> None) ->
  exists partials,
    findPartialImages ctx filterSet = Normal partials /\
    forall d, In d partials <->
      In d filterSet /\
      exists ms im, manifests (getManifestByDigest ctx d) = Some ms /\
        In im ms /\ getIdByDigest (packageRepo ctx) (digest im) = None.
Proof.
  intros H.
  destruct (flagged_returns (partialStep ctx) _ (partialStep_returns ctx) filterSet [] H)
    as [r E].
  exists r. split; [exact E|]. intros d.
  rewrite (flagged_fold _ _ (partialStep_inv ctx) filterSet [] r E d).
  unfold someChildMissing. split.
  - intros [[] | [Hin Hex]]. split; [exact Hin|].
    destruct (manifests _) as [ms|]; [|discriminate].
    apply existsb_exists in Hex. destruct Hex as (im & Him & Hmiss).
    exists ms, im. split; [reflexivity|]. split; [exact Him|].
    unfold childMissing in Hmiss.
    destruct (getIdByDigest _ _); [discriminate | reflexivity].
  - intros [Hin (ms & im & Hm & Him & Hmiss)]. right. split; [exact Hin|].
    rewrite Hm. apply existsb_exists. exists im. split; [exact Him|].
    unfold childMissing. now rewrite Hmiss.
Qed.

Lemma validateChildren ctx ms : forall st,
  let st' := fold_left (validateChild ctx) ms st in
  seenErrors st' = seenErrors st || existsb (childMissing ctx) ms /\
  (forall x, In x (processedManifests st') <->
     In x (processedManifests st) \/ In x (map digest ms)) /\
  (forall x, In x (workingDigests st') <->
     In x (workingDigests st) /\ ~ In x (map digest ms)).
Proof.
  induction ms as [|im ms IH]; intros st.
  - simpl. rewrite orb_false_r. split; [reflexivity|]. split; intros x; tauto.
  - cbn [fold_left]. destruct (IH (validateChild ctx st im)) as (H1 & H2 & H3).
    cbn zeta. split; [|split].
    + rewrite H1. cbn [validateChild seenErrors existsb].
      destruct (childMissing ctx im), (seenErrors st); reflexivity.
    + intros x. rewrite H2. cbn [validateChild processedManifests map].
      rewrite In_sadd. simpl. intuition.
    + intros x. rewrite H3. cbn [validateChild workingDigests map].
      rewrite In_sdel. simpl. intuition.
Qed.

Lemma validate_loop ctx l : forall st,
  (forall d, In d l -> In d (getDigests (packageRepo ctx))) ->
  validating ctx st ->
  exists st', forOf (validateDigest ctx) l st = Normal st' /\
    validating ctx st' /\
    (seenErrors st' = false ->
     seenErrors st = false /\
     forall d ms im, In d l -> topLevel ctx d ->
       manifests (getManifestByDigest ctx d) = Some ms -> In im ms ->
       getIdByDigest (packageRepo ctx) (digest im) <> None).
Proof.
  induction l as [|a l IH]; intros st Hl Hinv.
  - exists st. split; [reflexivity|]. split; [exact Hinv|].
    intros H. split; [exact H | intros d ms im []].
  - rewrite forOf_cons.
    assert (Ha : In a (getDigests (packageRepo ctx))) by (apply Hl; now left).
    assert (Hstep : exists st1, validateDigest ctx a st = Normal st1 /\
              validating ctx st1 /\
              (seenErrors st1 = false ->
               seenErrors st = false /\
               (topLevel ctx a -> forall ms im,
                  manifests (getManifestByDigest ctx a) = Some ms -> In im ms ->
                  getIdByDigest (packageRepo ctx) (digest im) <> None))).
    { destruct Hinv as (Hproc & Hwork & Herr). unfold validateDigest.
      destruct (shas a (workingDigests st)) eqn:Hin.
      2:{ exists st. split; [reflexivity|]. split; [repeat split; auto|].
          intros He. split; [exact He|]. intros Htop.
          apply shas_false in Hin. exfalso. apply Hin. now apply Hwork. }
      destruct (shas a (processedManifests st)) eqn:Hpr.
      { exists st. split; [reflexivity|]. split; [repeat split; auto|].
        intros He. split; [exact He|]. intros Htop.
        apply shas_In in Hpr. exfalso. now apply (Hproc a Hpr). }
      destruct (getPackageByDigest (packageRepo ctx) a) eqn:Hp;
        [|exfalso; now apply (getDigests_package _ _ Ha)].
      destruct (manifests (getManifestByDigest ctx a)) as [ms|] eqn:Hm.
      2:{ exists st. split; [reflexivity|]. split; [repeat split; auto|].
          intros He. split; [exact He|]. intros _ ms im [=]. }
      destruct (validateChildren ctx ms st) as (H1 & H2 & H3).
      eexists. split; [reflexivity|]. split; [split; [|split]|].
      - intros x Hx. apply H2 in Hx. destruct Hx as [Hx | Hx]; [auto|].
        intros Htop. apply (Htop a ms Ha Hm Hx).
      - intros x Htop Hx. apply H3. split; [auto|]. apply (Htop a ms Ha Hm).
      - rewrite H1. intros He. apply orb_true_iff in He.
        destruct He as [He | He]; [auto|].
        apply existsb_exists in He. destruct He as (im & Him & Hmiss).
        exists a, ms, im. repeat split; auto.
        unfold childMissing in Hmiss.
        destruct (getIdByDigest _ _); [discriminate | reflexivity].
      - rewrite H1. intros He. apply orb_false_iff in He. destruct He as [He1 He2].
        split; [exact He1|]. intros _ ms' im [= <-] Him Hnone.
        assert (existsb (childMissing ctx) ms = true); [|congruence].
        apply existsb_exists. exists im. split; [exact Him|].
        unfold childMissing. now rewrite Hnone. }
    destruct Hstep as (st1 & E & Hinv1 & Hfalse1). rewrite E. cbn [cbind].
    destruct (IH st1) as (st' & E' & Hinv' & Hfalse'); auto.
    { intros d Hd. apply Hl. now right. }
    exists st'. split; [exact E'|]. split; [exact Hinv'|].
    intros He. destruct (Hfalse' He) as [He1 Hall].
    destruct (Hfalse1 He1) as [He0 Ha']. split; [exact He0|].
    intros d ms im [<- | Hd] Htop Hm Him; [now apply (Ha' Htop ms im) | eauto].
Qed.

Lemma validateTags ctx l : forall e,
  fold_left (validateTag ctx) l e = true <->
  e = true \/ exists tag, In tag l /\ startsWith tag "sha256-" = true /\
    getIdByDigest (packageRepo ctx) (referrerParent tag) = None.
Proof.
  induction l as [|t l IH]; intros e.
  - simpl. split; [auto | intros [H | (tag & [] & _)]; exact H].
  - cbn [fold_left]. rewrite IH. unfold validateTag.
    destruct (startsWith t "sha256-") eqn:Hs.
    + destruct (getIdByDigest _ (referrerParent t)) eqn:Hi.
      * split; intros [H | (tag & Hin & Hr)]; auto.
        -- right. exists tag. split; [now right | auto].
        -- destruct Hin as [<- | Hin]; [destruct Hr; congruence|].
           right. exists tag. auto.
      * split; [intros _; right; exists t; split; [now left | auto] | auto].
    + split; intros [H | (tag & Hin & Hr)]; auto.
      * right. exists tag. split; [now right | auto].
      * destruct Hin as [<- | Hin]; [destruct Hr; congruence|].
        right. exists tag. auto.
Qed.

(** X9: [validate] always returns.  It reports an error only if a child
    of some index manifest or the parent of some referrer tag really has
    no package; and when it reports none, every child of every top-level
    index manifest and the parent of every referrer tag has a package. *)
Theorem validate_sound_and_complete (ctx : CleanupContext) :
  exists result,
    validate ctx = Normal result /\
    (hasErrors result = true -> childLost ctx \/ parentLost ctx) /\
    (hasErrors result = false ->
     ~ parentLost ctx /\
     forall d ms im, In d (getDigests (packageRepo ctx)) -> topLevel ctx d ->
       manifests (getManifestByDigest ctx d) = Some ms -> In im ms ->
       getIdByDigest (packageRepo ctx) (digest im) <> None).
Proof.
  unfold validate.
  destruct (validate_loop ctx (getDigests (packageRepo ctx))
              {| seenErrors := false; processedManifests := [];
                 workingDigests := getDigests (packageRepo ctx) |})
    as (st' & E & (_ & _ & Herr) & Hfalse).
  { auto. }
  { split; [intros x []|]. split; [auto | discriminate]. }
  rewrite E. cbn [cbind]. eexists. split; [reflexivity|].
  cbn [hasErrors]. split.
  - intros H. apply validateTags in H. destruct H as [H | H]; [left; auto | right; exact H].
  - intros H.
    assert (Hno : ~ (seenErrors st' = true \/ parentLost ctx)).
    { intros Hc. apply validateTags in Hc. congruence. }
    split; [tauto|].
    destruct (seenErrors st') eqn:Hs; [tauto|].
    destruct (Hfalse eq_refl) as [_ Hall]. exact Hall.
Qed.

End ValidatorMore.

(** * Further facts: the image deleter *)

Section DeleterEffects.

Import Deleter.

Lemma deletedDigests_app a b :
  deletedDigests (a ++ b) = (deletedDigests a ++ deletedDigests b)%list.
Proof. unfold deletedDigests. apply flat_map_app. Qed.

Lemma deletes_refl s : deletes s 0 s.
Proof.
  split; [reflexivity|]. exists [].
  split; [now rewrite app_nil_r|]. split; [constructor|].
  split; [reflexivity|]. split; [constructor|]. split; [intros d []|].
  intros d. split; [auto | intros [H | []]; exact H].
Qed.

Lemma deletes_trans s n1 s1 n2 s2 :
  deletes s n1 s1 -> deletes s1 n2 s2 -> deletes s (n1 + n2) s2.
Proof.
  intros (C1 & e1 & E1 & F1 & L1 & N1 & D1 & M1)
         (C2 & e2 & E2 & F2 & L2 & N2 & D2 & M2).
  split; [congruence|]. exists (e1 ++ e2)%list.
  split; [rewrite E2, E1; now rewrite app_assoc|].
  split; [apply Forall_app; auto|].
  split; [rewrite length_app; lia|].
  split; [|split].
  - rewrite deletedDigests_app. apply List.NoDup_app; auto.
    intros d H1 H2. apply (D2 d H2). apply M1. now right.
  - intros d Hin. rewrite deletedDigests_app in Hin.
    apply in_app_or in Hin. destruct Hin as [Hin | Hin]; [auto|].
    intros Hd. apply (D2 d Hin). apply M1. now left.
  - intros d. rewrite deletedDigests_app, in_app_iff, M2, M1. tauto.
Qed.

(** One deletion call followed by the bookkeeping of [deleted]. *)
Lemma deletes_one s s' target i d tl lbl :
  d ∉ deleted s ->
  context s' = context s ->
  calls s' = (calls s ++ [DeletePackageVersion target i d tl lbl])%list ->
  deleted s' = deleted s ∪ {[d]} ->
  deletes s 1 s'.
Proof.
  intros Hd Hc Hcalls Hdel. split; [exact Hc|].
  exists [DeletePackageVersion target i d tl lbl].
  split; [exact Hcalls|]. split; [repeat constructor|].
  split; [reflexivity|].
  split; [simpl; repeat constructor; intros []|].
  split; [intros x [<- | []]; exact Hd|].
  intros x. rewrite Hdel. simpl. set_solver.
Qed.

Lemma deleteChild_deletes gh im s n s1 n1 :
  deleteChild gh im (s, n) = Normal (s1, n1) ->
  exists k, n1 = n + k /\ deletes s k s1.
Proof.
  unfold deleteChild.
  destruct (getPackageByDigest _ _) as [mp|];
    [|intros [= <- <-]; exists 0; split; [lia | apply deletes_refl]].
  destruct (bool_decide (name mp ∈ deleted s)) eqn:Hdel;
    [intros [= <- <-]; exists 0; split; [lia | apply deletes_refl]|].
  apply bool_decide_eq_false in Hdel.
  destruct (digestUsedBy s !! name mp) as [ps|];
    [|intros [= <- <-]; exists 0; split; [lia | apply deletes_refl]].
  destruct (_ && _).
  - destruct (ManifestAnalyzer.buildLabel _ _) as [l|]; simpl; [|discriminate].
    intros [= <- <-]. exists 1. split; [lia|].
    eapply deletes_one; [exact Hdel | reflexivity | reflexivity | reflexivity].
  - intros [= <- <-]. exists 0. split; [lia|].
    split; [reflexivity|]. exists []. simpl.
    split; [now rewrite app_nil_r|]. split; [constructor|].
    split; [reflexivity|]. split; [constructor|]. split; [intros d []|].
    intros d. split; [auto | intros [H | []]; exact H].
Qed.

Lemma children_deletes gh ms : forall s n s' n',
  forOf (deleteChild gh) ms (s, n) = Normal (s', n') ->
  exists k, n' = n + k /\ deletes s k s'.
Proof.
  induction ms as [|im ms IH]; intros s n s' n'.
  - intros [= <- <-]. exists 0. split; [lia | apply deletes_refl].
  - rewrite forOf_cons.
    destruct (deleteChild gh im (s, n)) as [[s1 n1]|] eqn:E; [|discriminate].
    cbn [cbind]. intros H. apply IH in H. destruct H as (k2 & -> & H2).
    apply deleteChild_deletes in E. destruct E as (k1 & -> & H1).
    exists (k1 + k2). split; [lia|]. eapply deletes_trans; eauto.
Qed.

Lemma referrers_deletes rec dt :
  (forall s gh, summary s gh (rec s gh)) ->
  forall tgs acc cnt s',
    referrers rec dt tgs acc = Some (Normal (cnt, s')) ->
    exists k m,
      imagesDeleted cnt = imagesDeleted (fst acc) + k /\
      multiImagesDeleted cnt = multiImagesDeleted (fst acc) + m /\
      m <= k /\ deletes (snd acc) k s'.
Proof.
  intros Hrec. induction tgs as [|tag tgs IH]; intros acc cnt s'.
  - intros [= ->]. exists 0, 0. simpl.
    split; [lia|]. split; [lia|]. split; [lia | apply deletes_refl].
  - cbn [referrers].
    destruct (startsWith tag dt); [|apply IH].
    destruct (truthy_opt _) as [md|]; [|apply IH].
    destruct (getPackageByDigest _ md) as [att|]; [|apply IH].
    destruct (rec (snd acc) att) as [[[res s1]|e]|] eqn:E; try discriminate.
    intros H. apply IH in H. destruct H as (k2 & m2 & Hk & Hm & Hle & Hd).
    destruct (Hrec (snd acc) att res s1 E) as (Hd1 & Hle1 & _).
    cbn [fst snd addCounts imagesDeleted multiImagesDeleted] in *.
    exists (imagesDeleted res + k2), (multiImagesDeleted res + m2).
    split; [lia|]. split; [lia|]. split; [lia|].
    eapply deletes_trans; eauto.
Qed.

Lemma deletes_mono s n s' : deletes s n s' -> deleted s ⊆ deleted s'.
Proof.
  intros (_ & e & _ & _ & _ & _ & _ & M) d Hd. apply M. now left.
Qed.

Lemma deleteImageF_summary : forall f s gh, summary s gh (deleteImageF f s gh).
Proof.
  induction f as [|f IH]; intros s gh cnt s'; [discriminate|].
  cbn [deleteImageF].
  destruct (bool_decide (name gh ∈ deleted s)) eqn:Hdel.
  - apply bool_decide_eq_true in Hdel. intros [= <- <-]. simpl.
    split; [apply deletes_refl|]. split; [lia | exact Hdel].
  - apply bool_decide_eq_false in Hdel.
    set (s1 := markDeleted (issue s _) (name gh)).
    assert (H1 : deletes s 1 s1).
    { eapply deletes_one; [exact Hdel | reflexivity | reflexivity | reflexivity]. }
    match goal with |- context [match ?c with Normal _ => _ | Abrupt _ => _ end] =>
      destruct c as [acc|e] eqn:Hch end; [|discriminate].
    assert (Hacc : exists k, imagesDeleted (fst acc) = 1 + k /\
                             multiImagesDeleted (fst acc) <= 1 /\
                             deletes s1 k (snd acc)).
    { destruct (manifests _) as [ms|].
      - destruct (forOf (deleteChild gh) ms (s1, 1)) as [[s2 n2]|] eqn:Hl;
          simpl in Hch; [|discriminate].
        injection Hch as <-. apply children_deletes in Hl.
        destruct Hl as (k & -> & Hk). exists k. simpl. auto.
      - injection Hch as <-. exists 0. simpl.
        split; [reflexivity|]. split; [lia | apply deletes_refl]. }
    destruct Hacc as (k & Hk & Hm & Hd).
    intros Hr. apply (referrers_deletes _ _ IH) in Hr.
    destruct Hr as (k2 & m2 & Hk2 & Hm2 & Hle & Hd2).
    assert (Hall : deletes s (1 + k + k2) s').
    { eapply deletes_trans; [eapply deletes_trans|]; eauto. }
    split; [|split].
    + replace (imagesDeleted cnt) with (1 + k + k2) by lia. exact Hall.
    + lia.
    + apply (deletes_mono _ _ _ Hd2), (deletes_mono _ _ _ Hd).
      subst s1. simpl. set_solver.
Qed.

Lemma deleteEach_deletes : forall ds acc cnt s',
  deleteEach ds acc = Some (Normal (cnt, s')) ->
  exists k m,
    imagesDeleted cnt = imagesDeleted (fst acc) + k /\
    multiImagesDeleted cnt = multiImagesDeleted (fst acc) + m /\
    m <= k /\ deletes (snd acc) k s' /\
    forall d, In d ds -> d ∈ deleted s'.
Proof.
  induction ds as [|d ds IH]; intros acc cnt s'.
  - intros [= ->]. exists 0, 0. simpl.
    split; [lia|]. split; [lia|]. split; [lia|].
    split; [apply deletes_refl | intros d []].
  - cbn [deleteEach].
    destruct (getPackageByDigest _ d) as [gh|] eqn:Hg; [|discriminate].
    destruct (deleteImage (snd acc) gh) as [[[res s1]|e]|] eqn:E; try discriminate.
    intros H. apply IH in H. destruct H as (k2 & m2 & Hk & Hm & Hle & Hd & Hin).
    destruct (deleteImageF_summary _ _ _ res s1 E) as (Hd1 & Hle1 & Hname).
    cbn [fst snd addCounts imagesDeleted multiImagesDeleted] in *.
    exists (imagesDeleted res + k2), (multiImagesDeleted res + m2).
    split; [lia|]. split; [lia|]. split; [lia|]. split.
    + eapply deletes_trans; eauto.
    + intros d' [<- | Hd']; [|auto].
      apply (deletes_mono _ _ _ Hd).
      apply getPackageByDigest_Some in Hg. destruct Hg as [<- _]. exact Hname.
Qed.

(** X1: the numbers [deleteImages] reports are the calls it issued:
    [numberImagesDeleted] deletions of distinct digests that were not
    deleted before, no other call, [deleted] grown by exactly these
    digests and holding every digest of the delete-set; multi-arch
    deletions never outnumber deletions. *)
Theorem deleteImages_reports_its_calls
  (self : ImageDeleter) (deleteSet : list string) (cnt : Counts)
  (self' : ImageDeleter) :
  deleteImages self deleteSet = Some (Normal (cnt, self')) ->
  deletes self (imagesDeleted cnt) self' /\
  multiImagesDeleted cnt <= imagesDeleted cnt /\
  (forall d, In d deleteSet -> d ∈ deleted self').
Proof.
  unfold deleteImages.
  destruct (ManifestAnalyzer.primeManifests _ _); [|discriminate].
  intros H. apply deleteEach_deletes in H.
  destruct H as (k & m & Hk & Hm & Hle & Hd & Hin). simpl in Hk, Hm, Hd.
  subst k m. auto.
Qed.

Lemma deletes_consistent s n s' :
  sessionConsistent s -> deletes s n s' -> sessionConsistent s'.
Proof.
  intros [Hnd Hin] (_ & e & E & _ & _ & N & D & M). split.
  - rewrite E, deletedDigests_app. apply List.NoDup_app; auto.
    intros d H1 H2. apply (D d H2). auto.
  - intros d. rewrite E, deletedDigests_app, in_app_iff, M.
    intros [H | H]; auto.
Qed.

(** X2: a deleter whose log agrees with its [deleted] set keeps that
    agreement through [deleteImage] and [deleteImages]; in particular no
    digest is ever deleted twice in a session. *)
Theorem deleteImages_never_deletes_twice
  (self : ImageDeleter) (deleteSet : list string) (cnt : Counts)
  (self' : ImageDeleter) :
  sessionConsistent self ->
  (forall gh c s, deleteImage self gh = Some (Normal (c, s)) ->
     sessionConsistent s) /\
  (deleteImages self deleteSet = Some (Normal (cnt, self')) ->
   sessionConsistent self').
Proof.
  intros Hc. split.
  - intros gh c s E.
    destruct (deleteImageF_summary _ _ _ c s E) as (Hd & _ & _).
    eapply deletes_consistent; eauto.
  - unfold deleteImages.
    destruct (ManifestAnalyzer.primeManifests _ _); [|discriminate].
    intros H. apply deleteEach_deletes in H.
    destruct H as (k & m & _ & _ & _ & Hd & _).
    eapply deletes_consistent; eauto.
Qed.

Lemma referrers_covers rec dt :
  (forall s gh, summary s gh (rec s gh)) ->
  forall tgs acc cnt s',
    referrers rec dt tgs acc = Some (Normal (cnt, s')) ->
    deleted (snd acc) ⊆ deleted s' /\
    forall tag a att, In tag tgs -> startsWith tag dt = true ->
      getDigestByTag (packageRepo (context (snd acc))) tag = Some a ->
      a <> "" ->
      getPackageByDigest (packageRepo (context (snd acc))) a = Some att ->
      a ∈ deleted s'.
Proof.
  intros Hrec. induction tgs as [|tag tgs IH]; intros acc cnt s'.
  - intros [= ->]. split; [reflexivity | intros tag a att []].
  - cbn [referrers].
    destruct (startsWith tag dt) eqn:Hp.
    2:{ intros H. destruct (IH _ _ _ H) as [Hsub Hall]. split; [exact Hsub|].
        intros t a att [<- | Hin] Hs; [congruence | eauto]. }
    destruct (truthy_opt _) as [md|] eqn:Hmd.
    2:{ intros H. destruct (IH _ _ _ H) as [Hsub Hall]. split; [exact Hsub|].
        intros t a att [<- | Hin] Hs Hg Hne; [|eauto].
        rewrite Hg, (truthy_opt_Some a Hne) in Hmd. discriminate. }
    destruct (getPackageByDigest _ md) as [att0|] eqn:Hatt.
    2:{ intros H. destruct (IH _ _ _ H) as [Hsub Hall]. split; [exact Hsub|].
        intros t a att [<- | Hin] Hs Hg Hne Hp'; [|eauto].
        rewrite Hg, (truthy_opt_Some a Hne) in Hmd. injection Hmd as <-.
        congruence. }
    destruct (rec (snd acc) att0) as [[[res s1]|e]|] eqn:E; try discriminate.
    intros H. destruct (IH _ _ _ H) as [Hsub Hall]. cbn [snd] in Hsub, Hall.
    destruct (Hrec (snd acc) att0 res s1 E) as (Hd1 & _ & Hname).
    pose proof (deletes_mono _ _ _ Hd1) as Hsub1. destruct Hd1 as [Hc _].
    split; [set_solver|].
    intros t a att [<- | Hin] Hs Hg Hne Hp'.
    + rewrite Hg, (truthy_opt_Some a Hne) in Hmd. injection Hmd as <-.
      apply getPackageByDigest_Some in Hatt. destruct Hatt as [Hn _].
      apply Hsub. now rewrite <- Hn.
    + apply (Hall t a att Hin Hs); try rewrite Hc; assumption.
Qed.

(** X3: when [deleteImage] deletes a package, every package of the index
    that a referrer tag of that package points to ends up deleted too. *)
Theorem deleteImage_deletes_referrers
  (self : ImageDeleter) (P : Package) (cnt : Counts) (self' : ImageDeleter)
  (tag a : string) (att : Package) :
  name P ∉ deleted self ->
  deleteImage self P = Some (Normal (cnt, self')) ->
  In tag (getTags (packageRepo (context self))) ->
  startsWith tag (replace "sha256:" "sha256-" (name P)) = true ->
  getDigestByTag (packageRepo (context self)) tag = Some a ->
  a <> "" ->
  getPackageByDigest (packageRepo (context self)) a = Some att ->
  name P ∈ deleted self' /\ a ∈ deleted self'.
Proof.
  intros Hfresh E Hin Hs Hg Hne Hatt.
  split; [apply (deleteImageF_summary _ _ _ cnt self' E)|].
  unfold deleteImage in E.
  destruct (enoughFuel self) as [|f]; [discriminate|].
  cbn [deleteImageF] in E.
  rewrite bool_decide_eq_false_2 in E by exact Hfresh.
  match type of E with context [match ?c with Normal _ => _ | Abrupt _ => _ end] =>
    destruct c as [acc|e] eqn:Hch end; [|discriminate].
  assert (Hc : context (snd acc) = context self).
  { destruct (manifests _) as [ms|].
    - destruct (forOf (deleteChild P) ms _) as [[s2 n2]|] eqn:Hl;
        simpl in Hch; [|discriminate].
      injection Hch as <-. apply children_frame in Hl. now destruct Hl.
    - now injection Hch as <-. }
  apply (referrers_covers _ _ (deleteImageF_summary _)) in E.
  destruct E as [_ Hall]. apply (Hall tag a att Hin Hs); try rewrite Hc; assumption.
Qed.

Lemma buildLabel_returns ctx im :
  layersNonEmpty ctx -> exists l, ManifestAnalyzer.buildLabel ctx im = Normal l.
Proof.
  intros Hl. unfold ManifestAnalyzer.buildLabel.
  destruct (platform im) as [p|].
  - destruct (negb _); [eexists; reflexivity|].
    destruct (layers _) as [[|l0 ls]|] eqn:E.
    + exfalso. apply (Hl _ E).
    + destruct (String.eqb _ _); eexists; reflexivity.
    + eexists; reflexivity.
  - destruct (truthy_opt _); [|eexists; reflexivity].
    destruct (startsWith _ _); eexists; reflexivity.
Qed.

Lemma children_return gh ms : forall s n,
  layersNonEmpty (context s) ->
  exists s' n', forOf (deleteChild gh) ms (s, n) = Normal (s', n').
Proof.
  induction ms as [|im ms IH]; intros s n Hl; [eexists; eexists; reflexivity|].
  rewrite forOf_cons.
  assert (E : exists s1 n1, deleteChild gh im (s, n) = Normal (s1, n1)).
  { unfold deleteChild.
    destruct (getPackageByDigest _ _) as [mp|]; [|eexists; eexists; reflexivity].
    destruct (bool_decide _); [eexists; eexists; reflexivity|].
    destruct (digestUsedBy s !! name mp); [|eexists; eexists; reflexivity].
    destruct (_ && _); [|eexists; eexists; reflexivity].
    destruct (buildLabel_returns (context s) im Hl) as [l ->].
    eexists; eexists; reflexivity. }
  destruct E as (s1 & n1 & E). rewrite E. cbn [cbind].
  apply IH. apply deleteChild_frame in E. destruct E as [-> _]. exact Hl.
Qed.

Lemma referrers_no_throw rec dt :
  (forall s gh e, layersNonEmpty (context s) -> rec s gh <> Some (Abrupt e)) ->
  (forall s gh, summary s gh (rec s gh)) ->
  forall tgs acc e, layersNonEmpty (context (snd acc)) ->
    referrers rec dt tgs acc <> Some (Abrupt e).
Proof.
  intros Hrec Hsum. induction tgs as [|tag tgs IH]; intros acc e Hl.
  - discriminate.
  - cbn [referrers].
    destruct (startsWith tag dt); [|now apply IH].
    destruct (truthy_opt _); [|now apply IH].
    destruct (getPackageByDigest _ _) as [att|]; [|now apply IH].
    destruct (rec (snd acc) att) as [[[res s1]|e1]|] eqn:E.
    + apply IH. cbn [snd].
      destruct (Hsum _ _ _ _ E) as ((Hc & _) & _). now rewrite Hc.
    + exfalso. apply (Hrec _ _ e1 Hl E).
    + discriminate.
Qed.

Lemma deleteImageF_no_throw : forall f s gh e,
  layersNonEmpty (context s) -> deleteImageF f s gh <> Some (Abrupt e).
Proof.
  induction f as [|f IH]; intros s gh e Hl; [discriminate|].
  cbn [deleteImageF]. destruct (bool_decide _); [discriminate|].
  set (s1 := markDeleted (issue s _) (name gh)).
  destruct (manifests _) as [ms|].
  - destruct (children_return gh ms s1 1 Hl) as (s2 & n2 & E).
    rewrite E. cbn [cbind]. apply referrers_no_throw; auto.
    + apply deleteImageF_summary.
    + cbn [fst snd]. apply children_frame in E. destruct E as [-> _]. exact Hl.
  - apply referrers_no_throw; auto. apply deleteImageF_summary.
Qed.

Lemma primeChildren_returns ctx digests ms :
  layersNonEmpty ctx ->
  ManifestAnalyzer.primeChildren ctx digests ms = Normal tt.
Proof.
  intros Hl. unfold ManifestAnalyzer.primeChildren.
  induction ms as [|im ms IH]; [reflexivity|].
  rewrite forOf_cons. destruct (shas _ _); [|exact IH].
  destruct (buildLabel_returns ctx im Hl) as [l ->]. exact IH.
Qed.

Lemma primeManifests_returns ctx deleteSet :
  layersNonEmpty ctx ->
  ManifestAnalyzer.primeManifests ctx deleteSet = Normal tt.
Proof.
  intros Hl. unfold ManifestAnalyzer.primeManifests.
  induction deleteSet as [|d ds IH]; [reflexivity|].
  rewrite forOf_cons.
  assert (E : ManifestAnalyzer.primeOne ctx (getDigests (packageRepo ctx)) d tt
              = Normal tt).
  { unfold ManifestAnalyzer.primeOne.
    destruct (manifests _);
      [rewrite primeChildren_returns by exact Hl|]; cbn [cbind].
    all: induction (getTags (packageRepo ctx)) as [|t ts IHt]; [reflexivity|].
    all: rewrite forOf_cons; destruct (startsWith _ _); [|exact IHt].
    all: destruct (truthy_opt _); [|exact IHt].
    all: destruct (manifests _); [|exact IHt].
    all: rewrite primeChildren_returns by exact Hl; exact IHt. }
  rewrite E. exact IH.
Qed.

(** X4: [deleteImages] completes without an exception when every digest
    of the delete-set has a package in the index and no manifest has an
    empty layer list (the one case in which [buildLabel] reads
    [layers[0]] of an empty array). *)
Theorem deleteImages_completes
  (self : ImageDeleter) (deleteSet : list string) :
  layersNonEmpty (context self) ->
  (forall d, In d deleteSet ->
     getPackageByDigest (packageRepo (context self)) d <> None) ->
  exists cnt self', deleteImages self deleteSet = Some (Normal (cnt, self')).
Proof.
  intros Hl Hp. unfold deleteImages.
  rewrite primeManifests_returns by exact Hl.
  generalize ({| imagesDeleted := 0; multiImagesDeleted := 0 |}).
  revert self Hl Hp.
  induction deleteSet as [|d ds IH]; intros self Hl Hp c0;
    [eexists; eexists; reflexivity|].
  cbn [deleteEach snd fst].
  destruct (getPackageByDigest _ d) as [gh|] eqn:Hg;
    [|exfalso; apply (Hp d); [now left | exact Hg]].
  destruct (deleteImage_total self gh) as (out & E & Hout).
  rewrite E. destruct out as [[res s1]|e].
  - destruct (Hout res s1 eq_refl) as (Hc & _ & _).
    apply IH; rewrite Hc; auto. intros x Hx. apply Hp. now right.
  - exfalso. apply (deleteImageF_no_throw _ _ _ e Hl E).
Qed.

End DeleterEffects.

Section DirectChildren.

Import Deleter.








End DirectChildren.

(** * Further facts: the deletion policies *)

Section PolicyFacts.

Import DeletionStrategy.

Lemma untagged_loop ctx l : forall ds fs,
  (forall d, In d l -> getPackageByDigest (packageRepo ctx) d <> None) ->
  exists ds' fs',
    forOf (untaggedStep ctx) l (ds, fs) = Normal (ds', fs') /\
    forall x,
      (In x ds' <-> In x ds \/ (In x l /\ In x fs /\ isUntagged ctx x = true)) /\
      (In x fs' <-> In x fs /\ ~ (In x l /\ isUntagged ctx x = true)).
Proof.
  induction l as [|a l IH]; intros ds fs Hp.
  - exists ds, fs. split; [reflexivity|]. intros x. simpl. tauto.
  - rewrite forOf_cons. unfold untaggedStep at 1. cbn [fst snd].
    assert (Hl : forall d, In d l -> getPackageByDigest (packageRepo ctx) d <> None)
      by (intros d Hd; apply Hp; now right).
    destruct (shas a fs) eqn:Hin.
    + apply shas_In in Hin.
      destruct (getPackageByDigest (packageRepo ctx) a) as [p|] eqn:Hpa;
        [|exfalso; apply (Hp a); [now left | exact Hpa]].
      destruct (Nat.eqb (List.length (tags p)) 0) eqn:Ht; cbn [cbind].
      * destruct (IH (sadd a ds) (sdel a fs) Hl) as (ds' & fs' & E & H).
        exists ds', fs'. split; [exact E|]. intros x.
        destruct (H x) as [H1 H2]. rewrite H1, H2, In_sadd, !In_sdel.
        assert (Hu : isUntagged ctx a = true) by (unfold isUntagged; now rewrite Hpa).
        simpl. destruct (String.eqb_spec x a) as [-> | Hne];
          split; intuition (subst; try congruence; auto).
      * destruct (IH ds fs Hl) as (ds' & fs' & E & H).
        exists ds', fs'. split; [exact E|]. intros x.
        destruct (H x) as [H1 H2]. rewrite H1, H2.
        assert (Hu : isUntagged ctx a = false) by (unfold isUntagged; now rewrite Hpa).
        simpl. split; intuition (subst; try congruence; auto).
    + cbn [cbind]. apply shas_false in Hin.
      destruct (IH ds fs Hl) as (ds' & fs' & E & H).
      exists ds', fs'. split; [exact E|]. intros x.
      destruct (H x) as [H1 H2]. rewrite H1, H2.
      simpl. split; intuition (subst; try congruence; auto).
Qed.

(** X10: when every digest of the filter set has a package,
    [deleteAllUntagged] returns, and it splits the filter set: the
    delete-set holds exactly the digests without tags, the filter set
    keeps exactly the tagged ones. *)
Theorem deleteAllUntagged_splits (ctx : CleanupContext) (filterSet : list string) :
  (forall d, In d filterSet -> getPackageByDigest (packageRepo ctx) d <> None) ->
  exists deleteSet filterSet',
    deleteAllUntagged ctx filterSet = Normal (deleteSet, filterSet') /\
    forall d,
      (In d deleteSet <-> In d filterSet /\ isUntagged ctx d = true) /\
      (In d filterSet' <-> In d filterSet /\ isUntagged ctx d = false).
Proof.
  intros Hp. unfold deleteAllUntagged.
  destruct (untagged_loop ctx filterSet [] filterSet Hp) as (ds & fs & E & H).
  exists ds, fs. split; [exact E|]. intros d. destruct (H d) as [H1 H2].
  rewrite H1, H2. simpl. destruct (isUntagged ctx d); intuition congruence.
Qed.

(** X11: a digest of the filter set without a package makes
    [deleteAllUntagged] throw, whatever the loop staged before. *)
Theorem deleteAllUntagged_throws (ctx : CleanupContext) (filterSet : list string) :
  List.NoDup filterSet ->
  (exists d, In d filterSet /\ getPackageByDigest (packageRepo ctx) d = None) ->
  exists e, deleteAllUntagged ctx filterSet = Abrupt e.
Proof.
  intros Hnd (d & Hd & Hnone). unfold deleteAllUntagged.
  assert (H : forall l ds fs, List.NoDup l -> In d l ->
            (forall x, In x l -> In x fs) ->
            exists e, forOf (untaggedStep ctx) l (ds, fs) = Abrupt e).
  { induction l as [|a l IH]; intros ds fs Hn Hin Hsub; [destruct Hin|].
    rewrite forOf_cons. unfold untaggedStep at 1. cbn [fst snd].
    assert (Ha : shas a fs = true) by (apply shas_In, Hsub; now left).
    rewrite Ha. inversion Hn as [|? ? Hnotin Hn']; subst.
    destruct (getPackageByDigest (packageRepo ctx) a) as [p|] eqn:Hpa.
    2:{ eexists. reflexivity. }
    destruct Hin as [-> | Hin]; [congruence|].
    destruct (Nat.eqb (List.length (tags p)) 0); cbn [cbind].
    - apply IH; auto. intros x Hx. apply In_sdel. split; [|apply Hsub; now right].
      intros ->. contradiction.
    - apply IH; auto. intros x Hx. apply Hsub. now right. }
  apply H; auto.
Qed.

(** *** Keeping the newest N *)

Lemma stage_fold D : forall ds fs,
  let st := fold_left stagePackage D (ds, fs) in
  (forall x, In x (fst st) <-> In x ds \/ In x (map name D)) /\
  (forall x, In x (snd st) <-> In x fs /\ ~ In x (map name D)) /\
  (List.NoDup fs -> List.NoDup (snd st)).
Proof.
  induction D as [|p D IH]; intros ds fs; cbn zeta.
  - simpl. split; [|split]; [intros x; tauto | intros x; tauto | auto].
  - cbn [fold_left]. unfold stagePackage at 2 4 6. cbn [fst snd].
    destruct (IH (sadd (name p) ds) (sdel (name p) fs)) as (H1 & H2 & H3).
    split; [|split].
    + intros x. rewrite H1, In_sadd. simpl. intuition.
    + intros x. rewrite H2, In_sdel. simpl. intuition.
    + intros Hn. apply H3. now apply NoDup_sdel.
Qed.

Lemma stageTagged_fold ctx D : forall st,
  (forall p, In p D -> getPackageByDigest (packageRepo ctx) (name p) <> None) ->
  forOf (stageTagged ctx) D st = Normal (fold_left stagePackage D st).
Proof.
  induction D as [|p D IH]; intros st Hp; [reflexivity|].
  rewrite forOf_cons. unfold stageTagged at 1.
  destruct (getPackageByDigest (packageRepo ctx) (name p)) eqn:E;
    [|exfalso; apply (Hp p); [now left | exact E]].
  cbn [cbind fold_left]. apply IH. intros q Hq. apply Hp. now right.
Qed.

(** The packages a collecting loop gathers. *)
Lemma collect_spec ctx (sel : Package -> bool)
  (step : string -> list Package -> Completion (list Package)) l :
  (forall d acc, step d acc =
     match getPackageByDigest (packageRepo ctx) d with
     | Some p => if sel p then Normal (acc ++ [p])%list else Normal acc
     | None => Abrupt (TypeError "ghPackage is undefined")
     end) ->
  forall acc,
  (forall d, In d l -> getPackageByDigest (packageRepo ctx) d <> None) ->
  exists U, forOf step l acc = Normal (acc ++ U)%list /\
    map name U =
      List.filter (fun d => match getPackageByDigest (packageRepo ctx) d with
                       | Some p => sel p | None => false end) l /\
    Forall (fun p => getPackageByDigest (packageRepo ctx) (name p) = Some p) U.
Proof.
  intros Hstep. induction l as [|a l IH]; intros acc Hp.
  - exists []. rewrite app_nil_r. repeat split; constructor.
  - rewrite forOf_cons, Hstep. cbn [List.filter].
    assert (Hl : forall d, In d l -> getPackageByDigest (packageRepo ctx) d <> None)
      by (intros d Hd; apply Hp; now right).
    destruct (getPackageByDigest (packageRepo ctx) a) as [p|] eqn:Hpa;
      [|exfalso; apply (Hp a); [now left | exact Hpa]].
    destruct (sel p) eqn:Hs; cbn [cbind].
    + destruct (IH (acc ++ [p])%list Hl) as (U & E & Hn & Hf).
      exists (p :: U). rewrite E, <- app_assoc. split; [reflexivity|].
      destruct (getPackageByDigest_Some _ _ _ Hpa) as [Hname _].
      split; [cbn [map]; rewrite Hn, Hname; reflexivity|].
      constructor; [rewrite Hname; exact Hpa | exact Hf].
    + destruct (IH acc Hl) as (U & E & Hn & Hf). exists U. auto.
Qed.

Lemma sorted_split (R : Package -> Package -> Prop) l1 : forall l2,
  StronglySorted R (l1 ++ l2)%list ->
  forall a b, In a l1 -> In b l2 -> R a b.
Proof.
  induction l1 as [|x l1 IH]; intros l2 Hs a b Ha Hb; [destruct Ha|].
  cbn in Hs. apply StronglySorted_inv in Hs. destruct Hs as [Hs Hall].
  destruct Ha as [<- | Ha]; [|eauto].
  rewrite List.Forall_forall in Hall. apply Hall. apply in_or_app. now right.
Qed.

(** The heart of both keep-N policies: staging all but the first [n]
    entries of a rearrangement [S] of the candidates [U]. *)
Lemma keep_core ctx (P : string -> bool) (filterSet : list string)
  (U S : list Package) (n : nat) :
  List.NoDup filterSet ->
  map name U = List.filter P filterSet ->
  Forall (fun p => getPackageByDigest (packageRepo ctx) (name p) = Some p) U ->
  Permutation S U ->
  ((forall p, In p U -> updated_at p <> None) ->
   StronglySorted (inOrder byDateDesc) S) ->
  let st := fold_left stagePackage (skipn n S) ([], filterSet) in
  (forall d, In d (fst st) -> In d filterSet /\ P d = true) /\
  (forall d, In d (snd st) <-> In d filterSet /\ ~ In d (fst st)) /\
  List.length (List.filter P (snd st)) = Nat.min n (List.length (List.filter P filterSet)) /\
  ((forall d, In d filterSet -> P d = true -> dateOf ctx d <> None) ->
   forall k d tk td, In k (snd st) -> P k = true -> In d (fst st) ->
     dateOf ctx k = Some tk -> dateOf ctx d = Some td -> (td <= tk)%Z).
Proof.
  intros Hnd HU Hf Hperm Hsort. cbn zeta.
  destruct (stage_fold (skipn n S) [] filterSet) as (H1 & H2 & H3).
  cbn zeta in H1, H2, H3.
  set (st := fold_left stagePackage (skipn n S) ([], filterSet)) in *.
  assert (Hnames : Permutation (map name S) (List.filter P filterSet)).
  { rewrite <- HU. now apply Permutation_map. }
  assert (HndS : List.NoDup (map name S)).
  { apply (Permutation_NoDup (Permutation_sym Hnames)).
    now apply List.NoDup_filter. }
  assert (Hsplit : map name S = (map name (firstn n S) ++ map name (skipn n S))%list).
  { rewrite <- map_app. now rewrite firstn_skipn. }
  assert (Hds : forall d, In d (fst st) <-> In d (map name (skipn n S))).
  { intros d. rewrite H1. simpl. tauto. }
  assert (Hin : forall d, In d (map name S) <-> In d filterSet /\ P d = true).
  { intros d. rewrite <- filter_In. split; apply Permutation_in;
      [exact Hnames | exact (Permutation_sym Hnames)]. }
  assert (Hdisj : forall d, In d (map name (firstn n S)) ->
                            ~ In d (map name (skipn n S))).
  { rewrite Hsplit in HndS. intros d Ha Hb.
    revert HndS Ha Hb. generalize (map name (firstn n S)) (map name (skipn n S)).
    intros l1 l2 HN Ha Hb. induction l1 as [|x l1 IH]; [destruct Ha|].
    cbn in HN. inversion HN as [|? ? Hx HN']; subst.
    destruct Ha as [-> | Ha]; [|auto]. apply Hx. apply in_or_app. now right. }
  assert (Hkept : forall d, In d (List.filter P (snd st)) <->
                            In d (map name (firstn n S))).
  { intros d. rewrite filter_In, H2. split.
    - intros ((Hd & Hnot) & HP).
      assert (HdS : In d (map name S)) by (apply Hin; auto).
      rewrite Hsplit in HdS. apply in_app_or in HdS. tauto.
    - intros Hd.
      assert (HdS : In d (map name S)).
      { rewrite Hsplit. apply in_or_app. now left. }
      apply Hin in HdS. destruct HdS as [Hfs HP].
      split; [split; [exact Hfs | now apply Hdisj] | exact HP]. }
  split; [|split; [|split]].
  - intros d Hd. apply Hin. rewrite Hsplit. apply in_or_app. right. now apply Hds.
  - intros d. rewrite H2, Hds. tauto.
  - assert (Hp : Permutation (List.filter P (snd st)) (map name (firstn n S))).
    { apply Stdlib.Sorting.Permutation.NoDup_Permutation.
      - apply List.NoDup_filter. now apply H3.
      - rewrite Hsplit in HndS. now apply List.NoDup_app_remove_r in HndS.
      - exact Hkept. }
    rewrite (Permutation_length Hp), length_map, length_firstn.
    rewrite (Permutation_length Hperm), <- (length_map name U), HU. reflexivity.
  - intros Hdated k d tk td Hk HPk Hd Ek Ed.
    assert (HdatedU : forall p, In p U -> updated_at p <> None).
    { intros p Hp. rewrite List.Forall_forall in Hf. pose proof (Hf p Hp) as Hget.
      assert (Hn : In (name p) (map name U)) by now apply in_map.
      rewrite HU in Hn. apply filter_In in Hn. destruct Hn as [Hfs HP].
      specialize (Hdated _ Hfs HP). unfold dateOf in Hdated.
      now rewrite Hget in Hdated. }
    specialize (Hsort HdatedU). rewrite <- (firstn_skipn n S) in Hsort.
    assert (Hk' : In k (map name (firstn n S))).
    { apply Hkept. apply filter_In. auto. }
    apply Hds in Hd. apply in_map_iff in Hk'. apply in_map_iff in Hd.
    destruct Hk' as (pk & <- & Hpk). destruct Hd as (pd & <- & Hpd).
    pose proof (sorted_split _ _ _ Hsort pk pd Hpk Hpd) as Hord.
    assert (HgetS : forall p, In p S ->
              getPackageByDigest (packageRepo ctx) (name p) = Some p).
    { intros p Hp. rewrite List.Forall_forall in Hf. apply Hf.
      apply (Permutation_in _ Hperm Hp). }
    assert (Hgk : getPackageByDigest (packageRepo ctx) (name pk) = Some pk).
    { apply HgetS. rewrite <- (firstn_skipn n S). apply in_or_app. now left. }
    assert (Hgd : getPackageByDigest (packageRepo ctx) (name pd) = Some pd).
    { apply HgetS. rewrite <- (firstn_skipn n S). apply in_or_app. now right. }
    unfold dateOf in Ek, Ed. rewrite Hgk in Ek. rewrite Hgd in Ed.
    unfold inOrder, byDateDesc in Hord. rewrite Ek, Ed in Hord. lia.
Qed.

Section Sorting.

Variable arraySort :
  (Package -> Package -> option Z) -> list Package -> list Package.
Hypothesis sort_ok : sorts arraySort.

(** X12: with a sort that rearranges and orders, [keepNUntagged] returns
    on a filter set whose digests all have packages; it stages only
    untagged digests of the filter set, removes what it stages from the
    filter set, leaves exactly [min n total] untagged digests there, and
    no staged digest is newer than an untagged digest it keeps. *)
Theorem keepNUntagged_keeps_newest (ctx : CleanupContext)
  (filterSet : list string) (n : nat) :
  keepNuntagged (config ctx) = Some n ->
  List.NoDup filterSet ->
  (forall d, In d filterSet -> getPackageByDigest (packageRepo ctx) d <> None) ->
  exists deleteSet filterSet',
    keepNUntagged arraySort ctx filterSet = Normal (deleteSet, filterSet') /\
    (forall d, In d deleteSet -> In d filterSet /\ isUntagged ctx d = true) /\
    (forall d, In d filterSet' <-> In d filterSet /\ ~ In d deleteSet) /\
    List.length (List.filter (isUntagged ctx) filterSet') =
      Nat.min n (List.length (List.filter (isUntagged ctx) filterSet)) /\
    ((forall d, In d filterSet -> isUntagged ctx d = true ->
        dateOf ctx d <> None) ->
     forall k d tk td, In k filterSet' -> isUntagged ctx k = true ->
       In d deleteSet -> dateOf ctx k = Some tk -> dateOf ctx d = Some td ->
       (td <= tk)%Z).
Proof.
  intros Hn Hnd Hp. destruct sort_ok as [Hperm Hsorted].
  unfold keepNUntagged. rewrite Hn.
  destruct (collect_spec ctx (fun p => Nat.eqb (List.length (tags p)) 0)
              (collectUntagged ctx) filterSet (fun d acc => eq_refl) [] Hp)
    as (U & E & HU & Hf).
  rewrite E. cbn [cbind app].
  assert (Hres : exists S,
            (if Nat.ltb 0 (List.length U)
             then if Nat.ltb n (List.length (arraySort byDateDesc U))
                  then Normal (fold_left stagePackage
                                 (skipn n (arraySort byDateDesc U)) ([], filterSet))
                  else Normal ([], filterSet)
             else Normal ([], filterSet)) =
            Normal (fold_left stagePackage (skipn n S) ([], filterSet)) /\
            Permutation S U /\
            ((forall p, In p U -> updated_at p <> None) ->
             StronglySorted (inOrder byDateDesc) S)).
  { destruct (Nat.ltb 0 (List.length U)) eqn:H0.
    - exists (arraySort byDateDesc U). split; [|split; [apply Hperm | apply Hsorted]].
      destruct (Nat.ltb n (List.length (arraySort byDateDesc U))) eqn:H1;
        [reflexivity|].
      apply Nat.ltb_ge in H1. now rewrite skipn_all2.
    - apply Nat.ltb_ge in H0. destruct U; [|cbn in H0; lia].
      exists []. rewrite skipn_nil. split; [reflexivity|].
      split; [constructor | intros _; constructor]. }
  destruct Hres as (S & -> & HpS & HsS).
  pose proof (keep_core ctx (isUntagged ctx) filterSet U S n Hnd HU Hf HpS HsS)
    as Hcore. cbn zeta in Hcore.
  destruct (fold_left stagePackage (skipn n S) ([], filterSet)) as [ds fs].
  exists ds, fs. split; [reflexivity | exact Hcore].
Qed.

Variable regexTest : string -> option (string -> bool).
Variable wcmatch : list string -> string -> bool.

(** X13: without a tag selector, [keepNTagged] does the same for the
    tagged digests: it stages only tagged digests of the filter set,
    leaves exactly [min n total] of them, and keeps the newest. *)
Theorem keepNTagged_keeps_newest (ctx : CleanupContext)
  (filterSet : list string) (n : nat) :
  keepNtagged (config ctx) = Some n ->
  deleteTags (config ctx) = None ->
  List.NoDup filterSet ->
  (forall d, In d filterSet -> getPackageByDigest (packageRepo ctx) d <> None) ->
  exists deleteSet filterSet',
    keepNTagged arraySort regexTest wcmatch ctx filterSet =
      Normal (deleteSet, filterSet') /\
    (forall d, In d deleteSet -> In d filterSet /\ isTagged ctx d = true) /\
    (forall d, In d filterSet' <-> In d filterSet /\ ~ In d deleteSet) /\
    List.length (List.filter (isTagged ctx) filterSet') =
      Nat.min n (List.length (List.filter (isTagged ctx) filterSet)) /\
    ((forall d, In d filterSet -> isTagged ctx d = true ->
        dateOf ctx d <> None) ->
     forall k d tk td, In k filterSet' -> isTagged ctx k = true ->
       In d deleteSet -> dateOf ctx k = Some tk -> dateOf ctx d = Some td ->
       (td <= tk)%Z).
Proof.
  intros Hn Hsel Hnd Hp. destruct sort_ok as [Hperm Hsorted].
  unfold keepNTagged. rewrite Hn, Hsel.
  destruct (collect_spec ctx (fun p => Nat.ltb 0 (List.length (tags p)))
              (collectTagged ctx) filterSet (fun d acc => eq_refl) [] Hp)
    as (U & E & HU & Hf).
  rewrite E. cbn [cbind app].
  set (S := arraySort byDateDesc U).
  assert (Hres : (if Nat.ltb n (List.length S)
                  then forOf (stageTagged ctx) (skipn n S) ([], filterSet)
                  else Normal ([], filterSet)) =
                 Normal (fold_left stagePackage (skipn n S) ([], filterSet))).
  { destruct (Nat.ltb n (List.length S)) eqn:H1.
    - apply stageTagged_fold. intros p Hin.
      assert (HinS : In p S)
        by (rewrite <- (firstn_skipn n S); apply in_or_app; now right).
      apply (Permutation_in _ (Hperm byDateDesc U)) in HinS.
      rewrite List.Forall_forall in Hf. rewrite (Hf p HinS). discriminate.
    - apply Nat.ltb_ge in H1. now rewrite skipn_all2. }
  rewrite Hres.
  pose proof (keep_core ctx (isTagged ctx) filterSet U S n Hnd HU Hf
                (Hperm _ _) (Hsorted U)) as Hcore. cbn zeta in Hcore.
  destruct (fold_left stagePackage (skipn n S) ([], filterSet)) as [ds fs].
  exists ds, fs. split; [reflexivity | exact Hcore].
Qed.

End Sorting.

End PolicyFacts.

(** * Further facts: the image filter *)

Section FilterFacts.

Import ImageFilter.

Variable regexTest : string -> option (string -> bool).
Variable wcmatch : list string -> string -> bool.

Lemma addMatching (m : string -> bool) l : forall acc,
  let r := fold_left (fun acc t => if m t then sadd t acc else acc) l acc in
  (List.NoDup acc -> List.NoDup r) /\
  forall t, In t r <-> In t acc \/ (In t l /\ m t = true).
Proof.
  induction l as [|a l IH]; intros acc; cbn zeta.
  - split; [auto|]. intros t. simpl. tauto.
  - cbn [fold_left]. destruct (IH (if m a then sadd a acc else acc)) as [H1 H2].
    cbn zeta in H1, H2. split.
    + intros Hn. apply H1. destruct (m a); [now apply NoDup_sadd | exact Hn].
    + intros t. rewrite H2. destruct (m a) eqn:Ha.
      * rewrite In_sadd. simpl. intuition (subst; auto).
      * simpl. intuition (subst; try congruence; auto).
Qed.

Lemma expandDigest_loop ctx (m : string -> bool) l : forall acc,
  (forall d, In d l -> getPackageByDigest (packageRepo ctx) d <> None) ->
  exists r, forOf (expandDigest ctx m) l acc = Normal r /\
    (List.NoDup acc -> List.NoDup r) /\
    forall t, In t r <->
      In t acc \/
      (m t = true /\ exists d p, In d l /\
         getPackageByDigest (packageRepo ctx) d = Some p /\ In t (tags p)).
Proof.
  induction l as [|a l IH]; intros acc Hp.
  - exists acc. split; [reflexivity|]. split; [auto|]. intros t. split; [auto|].
    intros [H | (_ & d & p & [] & _)]. exact H.
  - rewrite forOf_cons. unfold expandDigest at 1.
    destruct (getPackageByDigest (packageRepo ctx) a) as [p|] eqn:Hpa;
      [|exfalso; apply (Hp a); [now left | exact Hpa]].
    cbn [cbind]. destruct (addMatching m (tags p) acc) as [A1 A2].
    cbn zeta in A1, A2.
    destruct (IH (fold_left (fun acc t => if m t then sadd t acc else acc)
                    (tags p) acc)) as (r & E & R1 & R2).
    { intros d Hd. apply Hp. now right. }
    exists r. split; [exact E|]. split; [auto|].
    intros t. rewrite R2, A2. split.
    + intros [[H | [Ht Hm]] | (Hm & d & q & Hd & Hq & Ht)]; auto.
      * right. split; [exact Hm|]. exists a, p. split; [now left | auto].
      * right. split; [exact Hm|]. exists d, q. split; [now right | auto].
    + intros [H | (Hm & d & q & [<- | Hd] & Hq & Ht)]; auto.
      * left. right. assert (q = p) by congruence. subst q. auto.
      * right. split; [exact Hm|]. exists d, q. auto.
Qed.

(** X14: with a selector set and a package for every digest of the
    filter set, [expandTags] throws the [SyntaxError] of an invalid
    regular expression before it looks at the filter set; with a matcher
    built, it returns a duplicate-free set that holds exactly the names
    the matcher accepts among the digests of the filter set and the tags
    of their packages. *)
Theorem expandTags_exact (ctx : CleanupContext) (filterSet : list string)
  (pattern : string) :
  truthy_opt (deleteTags (config ctx)) = Some pattern ->
  (forall d, In d filterSet -> getPackageByDigest (packageRepo ctx) d <> None) ->
  match isTagMatch regexTest wcmatch (useRegex (config ctx)) pattern with
  | Abrupt e => expandTags regexTest wcmatch ctx filterSet = Abrupt e
  | Normal m =>
      exists matchTags,
        expandTags regexTest wcmatch ctx filterSet = Normal matchTags /\
        List.NoDup matchTags /\
        forall t, In t matchTags <->
          m t = true /\
          (In t filterSet \/
           exists d p, In d filterSet /\
             getPackageByDigest (packageRepo ctx) d = Some p /\ In t (tags p))
  end.
Proof.
  intros Hpat Hp. unfold expandTags. rewrite Hpat.
  destruct (isTagMatch regexTest wcmatch (useRegex (config ctx)) pattern)
    as [m|e]; cbn [cbind]; [|reflexivity].
  destruct (expandDigest_loop ctx m filterSet [] Hp) as (r & E & R1 & R2).
  rewrite E. cbn [cbind].
  destruct (addMatching m filterSet r) as [A1 A2]. cbn zeta in A1, A2.
  eexists. split; [reflexivity|]. split; [apply A1, R1; constructor|].
  intros t. rewrite A2, R2. simpl. tauto.
Qed.

(** X15: a digest of the filter set without a package makes [expandTags]
    throw when a selector is set; without a selector nothing is looked
    up and the result is empty. *)
Theorem expandTags_edge (ctx : CleanupContext) (filterSet : list string) :
  (truthy_opt (deleteTags (config ctx)) = None ->
   expandTags regexTest wcmatch ctx filterSet = Normal []) /\
  (truthy_opt (deleteTags (config ctx)) <> None ->
   (exists d, In d filterSet /\ getPackageByDigest (packageRepo ctx) d = None) ->
   exists e, expandTags regexTest wcmatch ctx filterSet = Abrupt e).
Proof.
  unfold expandTags. split.
  - intros ->. reflexivity.
  - destruct (truthy_opt (deleteTags (config ctx))) as [pat|]; [|congruence].
    intros _ (d & Hd & Hnone).
    destruct (isTagMatch regexTest wcmatch (useRegex (config ctx)) pat)
      as [m|e0]; cbn [cbind]; [|eexists; reflexivity].
    assert (H : forall l acc, In d l ->
              exists e, forOf (expandDigest ctx m) l acc = Abrupt e).
    { induction l as [|a l IH]; intros acc Hin; [destruct Hin|].
      rewrite forOf_cons. unfold expandDigest at 1.
      destruct (getPackageByDigest (packageRepo ctx) a) as [p|] eqn:Hpa.
      - cbn [cbind]. destruct Hin as [-> | Hin]; [congruence | now apply IH].
      - eexists. reflexivity. }
    destruct (H filterSet [] Hd) as [e He]. rewrite He. eexists. reflexivity.
Qed.

Lemma excludeTags_loop ctx (m : string -> bool) l : forall st,
  let r := fold_left (excludeTagStep ctx m) l st in
  (forall t, In t (fst r) <-> In t (fst st) \/ (In t l /\ m t = true)) /\
  (forall d, In d (snd r) <->
     In d (snd st) /\
     ~ exists tag, In tag l /\ m tag = true /\
         getDigestByTag (packageRepo ctx) tag = Some d /\ d <> "").
Proof.
  induction l as [|a l IH]; intros st; cbn zeta.
  - split; intros x; simpl; [tauto|]. split; [|tauto].
    intros H. split; [exact H|]. intros (tag & [] & _).
  - cbn [fold_left]. destruct (IH (excludeTagStep ctx m st a)) as [H1 H2].
    cbn zeta in H1, H2. split.
    + intros t. rewrite H1. unfold excludeTagStep. destruct (m a) eqn:Ha.
      * cbn [fst]. rewrite in_app_iff. simpl. intuition (subst; auto).
      * simpl. intuition (subst; try congruence; auto).
    + intros d. rewrite H2. unfold excludeTagStep. destruct (m a) eqn:Ha.
      * cbn [snd].
        destruct (truthy_opt (getDigestByTag (packageRepo ctx) a)) as [x|] eqn:Hx.
        -- apply truthy_opt_iff in Hx. destruct Hx as [Hx Hne].
           rewrite In_sdel. split.
           ++ intros ((Hd & Hin) & Hno). split; [exact Hin|].
              intros (tag & [<- | Htag] & Hm & Hg & Hn).
              ** congruence.
              ** apply Hno. exists tag. auto.
           ++ intros (Hin & Hno). split; [split; [|exact Hin]|].
              ** intros ->. apply Hno. exists a. split; [now left | auto].
              ** intros (tag & Htag & Hr). apply Hno. exists tag.
                 split; [now right | auto].
        -- split.
           ++ intros (Hin & Hno). split; [exact Hin|].
              intros (tag & [<- | Htag] & Hm & Hg & Hn).
              ** assert (truthy_opt (getDigestByTag (packageRepo ctx) a) = Some d)
                   by (apply truthy_opt_iff; auto). congruence.
              ** apply Hno. exists tag. auto.
           ++ intros (Hin & Hno). split; [exact Hin|].
              intros (tag & Htag & Hr). apply Hno. exists tag.
              split; [now right | auto].
      * split.
        -- intros (Hin & Hno). split; [exact Hin|].
           intros (tag & [<- | Htag] & Hm & Hr); [congruence|].
           apply Hno. exists tag. auto.
        -- intros (Hin & Hno). split; [exact Hin|].
           intros (tag & Htag & Hr). apply Hno. exists tag.
           split; [now right | auto].
Qed.

Lemma excludeDigests_loop (m : string -> bool) l : forall st,
  let r := fold_left (excludeDigestStep m) l st in
  (forall t, In t (fst r) <-> In t (fst st) \/ (In t l /\ m t = true)) /\
  (forall d, In d (snd r) <-> In d (snd st) /\ ~ (In d l /\ m d = true)).
Proof.
  induction l as [|a l IH]; intros st; cbn zeta.
  - split; intros x; simpl; tauto.
  - cbn [fold_left]. destruct (IH (excludeDigestStep m st a)) as [H1 H2].
    cbn zeta in H1, H2. split.
    + intros t. rewrite H1. unfold excludeDigestStep. destruct (m a) eqn:Ha.
      * cbn [fst]. rewrite in_app_iff. simpl. intuition (subst; auto).
      * simpl. intuition (subst; try congruence; auto).
    + intros d. rewrite H2. unfold excludeDigestStep. destruct (m a) eqn:Ha.
      * cbn [snd]. rewrite In_sdel. simpl.
        destruct (String.eqb_spec d a) as [-> | Hne];
          intuition (subst; try congruence; auto).
      * simpl. intuition (subst; try congruence; auto).
Qed.

(** X16: [applyExclusionFilters] does nothing without an exclusion
    pattern.  With one, it throws the [SyntaxError] of an invalid regular
    expression and leaves the filter set alone; with a matcher built, it
    returns exactly the tags and digests of the index that the matcher
    accepts, and the filter set loses exactly the digests that match and
    the digests the matched tags resolve to. *)
Theorem applyExclusionFilters_exact (ctx : CleanupContext)
  (filterSet : list string) :
  let r := applyExclusionFilters regexTest wcmatch ctx filterSet in
  match truthy_opt (excludeTags (config ctx)) with
  | None => r = Normal ([], filterSet)
  | Some pattern =>
      match isTagMatch regexTest wcmatch (useRegex (config ctx)) pattern with
      | Abrupt e => r = Abrupt e
      | Normal m =>
          exists excluded filterSet',
            r = Normal (excluded, filterSet') /\
            (forall t, In t excluded <->
               m t = true /\
               (In t (getTags (packageRepo ctx)) \/
                In t (getDigests (packageRepo ctx)))) /\
            (forall d, In d filterSet' <->
               In d filterSet /\
               ~ (In d (getDigests (packageRepo ctx)) /\ m d = true) /\
               ~ exists tag, In tag (getTags (packageRepo ctx)) /\
                   m tag = true /\
                   getDigestByTag (packageRepo ctx) tag = Some d /\ d <> "")
      end
  end.
Proof.
  cbn zeta. unfold applyExclusionFilters.
  destruct (truthy_opt (excludeTags (config ctx))) as [pat|]; [|reflexivity].
  destruct (isTagMatch regexTest wcmatch (useRegex (config ctx)) pat)
    as [m|e]; cbn [cbind]; [|reflexivity].
  destruct (excludeTags_loop ctx m (getTags (packageRepo ctx)) ([], filterSet))
    as [T1 T2]. cbn zeta in T1, T2.
  destruct (excludeDigests_loop m (getDigests (packageRepo ctx))
              (fold_left (excludeTagStep ctx m) (getTags (packageRepo ctx))
                 ([], filterSet))) as [D1 D2]. cbn zeta in D1, D2.
  destruct (fold_left (excludeDigestStep m) (getDigests (packageRepo ctx))
              (fold_left (excludeTagStep ctx m) (getTags (packageRepo ctx))
                 ([], filterSet))) as [ex fs'] eqn:Er.
  cbn [fst snd] in D1, D2.
  exists ex, fs'. split; [reflexivity|]. split.
  - intros t. rewrite D1, T1. simpl. tauto.
  - intros d. rewrite D2, T2. simpl. tauto.
Qed.

End FilterFacts.

Section AgeBounds.

Import ImageFilter.




End AgeBounds.

(** * Further facts: what the tag deletion stages *)

Section TagDeletionFacts.

Import DeletionStrategy.

Lemma pushOperation_only d tag ops d' t' :
  scheduled (pushOperation d tag ops) d' t' ->
  scheduled ops d' t' \/ (d' = d /\ t' = tag).
Proof.
  unfold scheduled. induction ops as [|[k ts] r IH]; cbn [pushOperation].
  - intros (ts & [[= <- <-] | []] & [<- | []]). auto.
  - destruct (String.eqb k d) eqn:E.
    + apply String.eqb_eq in E. subst k.
      intros (ts' & [[= <- <-] | Hin] & Ht).
      * apply in_app_or in Ht. destruct Ht as [Ht | [<- | []]]; [|auto].
        left. exists ts. split; [now left | exact Ht].
      * left. exists ts'. split; [now right | exact Ht].
    + intros (ts' & [[= <- <-] | Hin] & Ht).
      * left. exists ts. split; [now left | exact Ht].
      * destruct IH as [(ts2 & Hin2 & Ht2) | Heq]; [exists ts'; auto | | auto].
        left. exists ts2. split; [now right | exact Ht2].
Qed.

(** The reason a tag is in [standardTags]. *)
Lemma classifyTag_only ctx ex tag st st' :
  classifyTag ctx ex tag st = Normal st' ->
  (forall t, In t (fst st') -> In t (fst st) \/
     (t = tag /\ shas t ex = false /\
      (startsWith t "sha256:" = true \/
       (startsWith t "sha256:" = false /\
        exists d gh, getDigestByTag (packageRepo ctx) t = Some d /\ d <> "" /\
          getPackageByDigest (packageRepo ctx) d = Some gh /\
          List.length (tags gh) = 1)))) /\
  (forall d t, scheduled (snd st') d t -> scheduled (snd st) d t \/
     (t = tag /\ shas t ex = false /\ startsWith t "sha256:" = false /\
      getDigestByTag (packageRepo ctx) t = Some d /\ d <> "" /\
      exists gh, getPackageByDigest (packageRepo ctx) d = Some gh /\
        1 < List.length (tags gh))).
Proof.
  destruct st as [std ops]. unfold classifyTag.
  destruct (shas tag ex) eqn:Hex; [intros [= <-]; auto|].
  destruct (startsWith tag "sha256:") eqn:Hpre.
  { intros [= <-]. cbn [fst snd]. split; [|auto].
    intros t Ht. apply In_sadd in Ht. destruct Ht as [-> | Ht]; auto. }
  destruct (truthy_opt (getDigestByTag (packageRepo ctx) tag)) as [d|] eqn:Hd;
    [|intros [= <-]; auto].
  apply truthy_opt_iff in Hd. destruct Hd as [Hd Hne].
  destruct (getPackageByDigest (packageRepo ctx) d) as [gh|] eqn:Hg;
    [|discriminate].
  destruct (Nat.ltb 1 (List.length (tags gh))) eqn:H1.
  { apply Nat.ltb_lt in H1. intros [= <-]. cbn [fst snd]. split; [auto|].
    intros d' t Hs. apply pushOperation_only in Hs.
    destruct Hs as [Hs | [-> ->]]; [auto|]. right.
    split; [reflexivity|]. repeat (split; [assumption|]). exists gh. auto. }
  destruct (Nat.eqb (List.length (tags gh)) 1) eqn:H2; [|intros [= <-]; auto].
  apply Nat.eqb_eq in H2. intros [= <-]. cbn [fst snd]. split; [|auto].
  intros t Ht. apply In_sadd in Ht. destruct Ht as [-> | Ht]; [|auto].
  right. split; [reflexivity|]. split; [exact Hex|]. right.
  split; [exact Hpre|]. exists d, gh. auto.
Qed.

Lemma classify_only ctx ex l : forall st st',
  forOf (classifyTag ctx ex) l st = Normal st' ->
  (forall t, In t (fst st') -> In t (fst st) \/
     (In t l /\ shas t ex = false /\
      (startsWith t "sha256:" = true \/
       (startsWith t "sha256:" = false /\
        exists d gh, getDigestByTag (packageRepo ctx) t = Some d /\ d <> "" /\
          getPackageByDigest (packageRepo ctx) d = Some gh /\
          List.length (tags gh) = 1)))) /\
  (forall d t, scheduled (snd st') d t -> scheduled (snd st) d t \/
     (In t l /\ shas t ex = false /\ startsWith t "sha256:" = false /\
      getDigestByTag (packageRepo ctx) t = Some d /\ d <> "" /\
      exists gh, getPackageByDigest (packageRepo ctx) d = Some gh /\
        1 < List.length (tags gh))).
Proof.
  induction l as [|a l IH]; intros st st'.
  - intros [= <-]. split; auto.
  - rewrite forOf_cons.
    destruct (classifyTag ctx ex a st) as [st1|] eqn:E; cbn [cbind]; [|discriminate].
    intros H. apply IH in H. destruct H as [H1 H2].
    apply classifyTag_only in E. destruct E as [E1 E2]. split.
    + intros t Ht. destruct (H1 t Ht) as [Hin | (Hin & Hr)].
      * destruct (E1 t Hin) as [Hin0 | (-> & Hr)]; [auto|].
        right. split; [now left | exact Hr].
      * right. split; [now right | exact Hr].
    + intros d t Hs. destruct (H2 d t Hs) as [Hin | (Hin & Hr)].
      * destruct (E2 d t Hin) as [Hin0 | (-> & Hr)]; [auto|].
        right. split; [now left | exact Hr].
      * right. split; [now right | exact Hr].
Qed.

Lemma stageTag_cases ctx st a :
  (exists x,
     truthy_opt (if startsWith a "sha256:" then Some a
                 else getDigestByTag (packageRepo ctx) a) = Some x /\
     stageTag ctx st a = (sadd x (fst st), sdel x (snd st))) \/
  (truthy_opt (if startsWith a "sha256:" then Some a
               else getDigestByTag (packageRepo ctx) a) = None /\
   stageTag ctx st a = st).
Proof.
  unfold stageTag.
  destruct (truthy_opt _) as [x|]; [left; exists x; auto | right; auto].
Qed.

Lemma stage_only ctx l : forall st,
  let r := fold_left (stageTag ctx) l st in
  (forall d, In d (fst r) <-> In d (fst st) \/
     exists tag, In tag l /\
       truthy_opt (if startsWith tag "sha256:" then Some tag
                   else getDigestByTag (packageRepo ctx) tag) = Some d) /\
  (forall d, In d (snd r) <-> In d (snd st) /\
     ~ exists tag, In tag l /\
       truthy_opt (if startsWith tag "sha256:" then Some tag
                   else getDigestByTag (packageRepo ctx) tag) = Some d).
Proof.
  induction l as [|a l IH]; intros st; cbn zeta.
  - split; intros d; simpl.
    + split; [auto | intros [H | (tag & [] & _)]; exact H].
    + split; [|tauto]. intros H. split; [exact H | intros (tag & [] & _)].
  - cbn [fold_left]. destruct (IH (stageTag ctx st a)) as [H1 H2].
    cbn zeta in H1, H2.
    destruct (stageTag_cases ctx st a) as [(x & Hx & E) | (Hx & E)];
      rewrite E in *; cbn [fst snd] in H1, H2; split; intros d.
    + rewrite H1, In_sadd. split.
      * intros [[-> | Hd] | (tag & Hin & Hr)]; auto.
        -- right. exists a. split; [now left | exact Hx].
        -- right. exists tag. split; [now right | exact Hr].
      * intros [Hd | (tag & [<- | Hin] & Hr)]; auto.
        -- left. left. congruence.
        -- right. exists tag. auto.
    + rewrite H2, In_sdel. split.
      * intros ((Hne & Hd) & Hno). split; [exact Hd|].
        intros (tag & [<- | Hin] & Hr); [congruence|]. apply Hno. exists tag. auto.
      * intros (Hd & Hno). split; [split; [|exact Hd]|].
        -- intros ->. apply Hno. exists a. split; [now left | exact Hx].
        -- intros (tag & Hin & Hr). apply Hno. exists tag. split; [now right | exact Hr].
    + rewrite H1. split.
      * intros [Hd | (tag & Hin & Hr)]; auto. right. exists tag.
        split; [now right | exact Hr].
      * intros [Hd | (tag & [<- | Hin] & Hr)]; auto; [congruence|].
        right. exists tag. auto.
    + rewrite H2. split.
      * intros (Hd & Hno). split; [exact Hd|].
        intros (tag & [<- | Hin] & Hr); [congruence|]. apply Hno. exists tag. auto.
      * intros (Hd & Hno). split; [exact Hd|].
        intros (tag & Hin & Hr). apply Hno. exists tag. split; [now right | exact Hr].
Qed.

Variable regexTest : string -> option (string -> bool).
Variable wcmatch : list string -> string -> bool.

(** X18: [processTagDeletions] stages nothing but matches.  Every digest
    of the delete-set is a matched raw digest or the digest of a matched
    tag that is the only tag of its package, and the tag is not excluded;
    every untag operation names a matched, not excluded tag of a package
    with several tags; and the filter set loses exactly the delete-set. *)
Theorem processTagDeletions_stages_only_matches
  (ctx : CleanupContext) (filterSet excludeTags matchTags : list string)
  (plan : DeletionPlan) (filterSet' : list string) :
  ImageFilter.expandTags regexTest wcmatch ctx filterSet = Normal matchTags ->
  processTagDeletions regexTest wcmatch ctx filterSet excludeTags
    = Normal (plan, filterSet') ->
  (forall d, In d (deleteSet plan) ->
     exists tag, In tag matchTags /\ shas tag excludeTags = false /\
       ((startsWith tag "sha256:" = true /\ d = tag) \/
        (startsWith tag "sha256:" = false /\
         getDigestByTag (packageRepo ctx) tag = Some d /\
         exists gh, getPackageByDigest (packageRepo ctx) d = Some gh /\
           List.length (tags gh) = 1))) /\
  (forall d tag, scheduled (untagOperations plan) d tag ->
     In tag matchTags /\ shas tag excludeTags = false /\
     getDigestByTag (packageRepo ctx) tag = Some d /\
     exists gh, getPackageByDigest (packageRepo ctx) d = Some gh /\
       1 < List.length (tags gh)) /\
  (forall d, In d filterSet' <-> In d filterSet /\ ~ In d (deleteSet plan)).
Proof.
  intros Hm. unfold processTagDeletions.
  assert (Hnone : forall d t, ~ scheduled [] d t).
  { intros d t (ts & [] & _). }
  assert (Hempty : forall fs : list string,
            (forall d, In d (@nil string) -> False) /\
            (forall d, In d fs <-> In d fs /\ ~ In d (@nil string))).
  { intros fs. split; [intros d [] | intros d; simpl; tauto]. }
  destruct (truthy_opt (deleteTags (config ctx))) as [pat|] eqn:Hpat.
  2:{ intros [= <- <-]. cbn [deleteSet untagOperations].
      split; [intros d []|]. split; [intros d t H; destruct (Hnone d t H)|].
      intros d. simpl. tauto. }
  rewrite Hm. cbn [cbind].
  destruct (Nat.eqb (List.length matchTags) 0) eqn:Hlen.
  { intros [= <- <-]. cbn [deleteSet untagOperations].
    split; [intros d []|]. split; [intros d t H; destruct (Hnone d t H)|].
    intros d. simpl. tauto. }
  destruct (forOf (classifyTag ctx excludeTags) matchTags ([], []))
    as [[standardTags operations]|] eqn:Hcls; cbn [cbind]; [|discriminate].
  apply classify_only in Hcls. cbn [fst snd] in Hcls. destruct Hcls as [Hstd Hops].
  assert (Huntag : forall d tag, scheduled operations d tag ->
            In tag matchTags /\ shas tag excludeTags = false /\
            getDigestByTag (packageRepo ctx) tag = Some d /\
            exists gh, getPackageByDigest (packageRepo ctx) d = Some gh /\
              1 < List.length (tags gh)).
  { intros d tag Hs. destruct (Hops d tag Hs) as [Hs0 | (H1 & H2 & _ & H4 & _ & H6)].
    - destruct (Hnone d tag Hs0).
    - auto. }
  destruct (_ && _) eqn:Hgo.
  2:{ intros [= <- <-]. cbn [deleteSet untagOperations].
      split; [intros d []|]. split; [exact Huntag|]. intros d. simpl. tauto. }
  intros [= <- <-]. cbn [deleteSet untagOperations].
  destruct (stage_only ctx standardTags ([], filterSet)) as [S1 S2].
  cbn zeta in S1, S2. cbn [fst snd] in S1, S2.
  split; [|split; [exact Huntag|]].
  - intros d Hd. apply S1 in Hd. destruct Hd as [[] | (tag & Hin & Hr)].
    destruct (Hstd tag Hin) as [[] | (Hmt & Hex & Hwhy)].
    exists tag. split; [exact Hmt|]. split; [exact Hex|].
    destruct Hwhy as [Hpre | (Hpre & d' & gh & Hg & Hne & Hp & Hlen1)];
      rewrite Hpre in Hr; apply truthy_opt_iff in Hr; destruct Hr as [Hr _].
    + left. split; [exact Hpre | congruence].
    + right. split; [exact Hpre|]. assert (d' = d) by congruence. subst d'.
      split; [exact Hg|]. exists gh. auto.
  - intros d. rewrite S2. split.
    + intros (Hd & Hno). split; [exact Hd|]. intros Hin. apply S1 in Hin.
      destruct Hin as [[] | Hex]. contradiction.
    + intros (Hd & Hno). split; [exact Hd|]. intros Hex. apply Hno, S1. auto.
Qed.

End TagDeletionFacts.

(** * Further facts: the used-by map and the top-level filter *)

Section AnalyzerMore.

Import ManifestAnalyzer.

(** What the analyzer loop maintains beyond [recorded]: the working set
    only loses digests, every digest it lost has an entry, and every
    entry names an index manifest that lists the child. *)
Lemma recordChildren_inv ctx d ms0 ms : forall st,
  manifests (getManifestByDigest ctx d) = Some ms0 ->
  (forall im, In im ms -> In im ms0) ->
  In d (getDigests (packageRepo ctx)) ->
  let st' := fold_left (recordChild d) ms st in
  (forall x, In x (fst st') -> In x (fst st)) /\
  (forall x, In x (fst st) -> ~ In x (fst st') -> snd st' !! x <> None) /\
  (forall x, snd st !! x <> None -> snd st' !! x <> None) /\
  (forall x, In x (fst st) -> In x (map digest ms) -> snd st' !! x <> None) /\
  ((forall c ps p, snd st !! c = Some ps -> p ∈ ps ->
      In p (getDigests (packageRepo ctx)) /\
      exists ms', manifests (getManifestByDigest ctx p) = Some ms' /\
                  In c (map digest ms')) ->
   (forall c ps p, snd st' !! c = Some ps -> p ∈ ps ->
      In p (getDigests (packageRepo ctx)) /\
      exists ms', manifests (getManifestByDigest ctx p) = Some ms' /\
                  In c (map digest ms'))).
Proof.
  intros st Hm Hsub Hd. revert st. induction ms as [|im ms IH]; intros st; cbn zeta.
  - simpl. split; [auto|]. split; [intros x H1 H2; contradiction|].
    split; [auto|]. split; [intros x _ []|auto].
  - cbn [fold_left].
    assert (Hsub' : forall im0, In im0 ms -> In im0 ms0)
      by (intros im0 H0; apply Hsub; now right).
    destruct (IH Hsub' (recordChild d st im)) as (I1 & I2 & I3 & I4 & I5).
    cbn zeta in I1, I2, I3, I4, I5.
    set (st1 := recordChild d st im) in *.
    assert (S1 : forall x, In x (fst st1) -> In x (fst st)).
    { subst st1. destruct st as [ds m]. unfold recordChild.
      destruct (shas (digest im) ds); cbn [fst]; [|auto].
      intros x Hx. apply In_sdel in Hx. tauto. }
    assert (S2 : forall x, In x (fst st) -> ~ In x (fst st1) -> snd st1 !! x <> None).
    { subst st1. destruct st as [ds m]. unfold recordChild.
      destruct (shas (digest im) ds); cbn [fst snd]; [|intros x H1 H2; contradiction].
      intros x Hx Hno. destruct (String.eqb_spec x (digest im)) as [-> | Hne].
      - rewrite lookup_insert_eq. discriminate.
      - exfalso. apply Hno, In_sdel. auto. }
    assert (S3 : forall x, snd st !! x <> None -> snd st1 !! x <> None).
    { subst st1. destruct st as [ds m]. unfold recordChild.
      destruct (shas (digest im) ds); cbn [fst snd]; [|auto].
      intros x Hx. destruct (String.eqb_spec x (digest im)) as [-> | Hne].
      - rewrite lookup_insert_eq. discriminate.
      - rewrite lookup_insert_ne by congruence. exact Hx. }
    assert (S4 : In (digest im) (fst st) -> snd st1 !! digest im <> None).
    { subst st1. destruct st as [ds m]. unfold recordChild. cbn [fst].
      intros Hin. apply shas_In in Hin. rewrite Hin. cbn [snd].
      rewrite lookup_insert_eq. discriminate. }
    split; [auto|]. split; [|split; [auto|split]].
    + intros x Hx Hno. destruct (in_dec string_dec x (fst st1)) as [Hy | Hn]; auto.
    + intros x Hx [<- | Hin]; [auto|].
      destruct (in_dec string_dec x (fst st1)) as [Hy | Hn]; auto.
    + intros Hreal. apply I5. subst st1. destruct st as [ds m]. unfold recordChild.
      destruct (shas (digest im) ds); cbn [fst snd]; [|exact Hreal].
      intros c ps p. destruct (String.eqb_spec c (digest im)) as [-> | Hne].
      * rewrite lookup_insert_eq. intros [= <-] Hp.
        apply elem_of_union in Hp. destruct Hp as [Hp | Hp].
        -- destruct (m !! digest im) as [old|] eqn:Hold.
           ++ apply (Hreal _ _ _ Hold Hp).
           ++ apply elem_of_empty in Hp. destruct Hp.
        -- apply elem_of_singleton in Hp. subst p. split; [exact Hd|].
           exists ms0. split; [exact Hm|]. apply in_map, Hsub. now left.
      * rewrite lookup_insert_ne by congruence. apply Hreal.
Qed.

Lemma analyze_inv ctx l : forall st,
  (forall x, In x l -> In x (getDigests (packageRepo ctx))) ->
  let st' := fold_left (analyze ctx) l st in
  (forall x, In x (fst st') -> In x (fst st)) /\
  (forall x, In x (fst st) -> ~ In x (fst st') -> snd st' !! x <> None) /\
  (forall x, snd st !! x <> None -> snd st' !! x <> None) /\
  (forall p ms c, In p l -> In p (fst st') ->
     manifests (getManifestByDigest ctx p) = Some ms -> In c (map digest ms) ->
     In c (fst st) -> snd st' !! c <> None) /\
  ((forall c ps p, snd st !! c = Some ps -> p ∈ ps ->
      In p (getDigests (packageRepo ctx)) /\
      exists ms', manifests (getManifestByDigest ctx p) = Some ms' /\
                  In c (map digest ms')) ->
   (forall c ps p, snd st' !! c = Some ps -> p ∈ ps ->
      In p (getDigests (packageRepo ctx)) /\
      exists ms', manifests (getManifestByDigest ctx p) = Some ms' /\
                  In c (map digest ms'))).
Proof.
  induction l as [|a l IH]; intros st Hl; cbn zeta.
  - simpl. split; [auto|]. split; [intros x H1 H2; contradiction|].
    split; [auto|]. split; [intros p ms c []|auto].
  - cbn [fold_left].
    assert (Hl' : forall x, In x l -> In x (getDigests (packageRepo ctx)))
      by (intros x Hx; apply Hl; now right).
    destruct (IH (analyze ctx st a) Hl') as (I1 & I2 & I3 & I4 & I5).
    cbn zeta in I1, I2, I3, I4, I5.
    set (st1 := analyze ctx st a) in *.
    assert (Hstep :
      (forall x, In x (fst st1) -> In x (fst st)) /\
      (forall x, In x (fst st) -> ~ In x (fst st1) -> snd st1 !! x <> None) /\
      (forall x, snd st !! x <> None -> snd st1 !! x <> None) /\
      (forall ms c, In a (fst st) ->
         manifests (getManifestByDigest ctx a) = Some ms -> In c (map digest ms) ->
         In c (fst st) -> snd st1 !! c <> None) /\
      ((forall c ps p, snd st !! c = Some ps -> p ∈ ps ->
          In p (getDigests (packageRepo ctx)) /\
          exists ms', manifests (getManifestByDigest ctx p) = Some ms' /\
                      In c (map digest ms')) ->
       (forall c ps p, snd st1 !! c = Some ps -> p ∈ ps ->
          In p (getDigests (packageRepo ctx)) /\
          exists ms', manifests (getManifestByDigest ctx p) = Some ms' /\
                      In c (map digest ms')))).
    { subst st1. unfold analyze. destruct (shas a (fst st)) eqn:Ha.
      - destruct (manifests (getManifestByDigest ctx a)) as [ms|] eqn:Hm.
        + destruct (recordChildren_inv ctx a ms ms st Hm (fun im H => H)
                      (Hl a (or_introl eq_refl))) as (R1 & R2 & R3 & R4 & R5).
          cbn zeta in R1, R2, R3, R4, R5.
          split; [auto|]. split; [auto|]. split; [auto|]. split; [|auto].
          intros ms' c _ [= <-] Hc Hin. auto.
        + split; [auto|]. split; [intros x H1 H2; contradiction|].
          split; [auto|]. split; [intros ms c _ [=]|auto].
      - apply shas_false in Ha.
        split; [auto|]. split; [intros x H1 H2; contradiction|].
        split; [auto|]. split; [intros ms c Hin; contradiction|auto]. }
    destruct Hstep as (S1 & S2 & S3 & S4 & S5).
    split; [intros x Hx; apply S1, I1, Hx|].
    split; [|split; [intros x Hx; apply I3, S3, Hx|
                     split; [|intros Hreal; apply I5, S5, Hreal]]].
    + intros x Hx Hno. destruct (in_dec string_dec x (fst st1)) as [Hy | Hn]; auto.
    + intros p ms c [<- | Hp] Hfin Hm Hc Hin.
      * apply I3. apply (S4 ms c); auto.
      * destruct (in_dec string_dec c (fst st1)) as [Hy | Hn].
        -- apply (I4 p ms c); auto.
        -- apply I3. auto.
Qed.

(** X19: every entry of the used-by map is real and single: the child
    and its one recorded parent are digests of the index, and the
    manifest of the parent lists the child.  Every indexed child of an
    indexed manifest that no other manifest lists has an entry. *)
Theorem loadDigestUsedByMap_sound_and_complete (ctx : CleanupContext) :
  (forall c ps, loadDigestUsedByMap ctx !! c = Some ps ->
     exists p ms, ps = {[p]} /\
       In p (getDigests (packageRepo ctx)) /\
       manifests (getManifestByDigest ctx p) = Some ms /\
       In c (map digest ms)) /\
  (forall p ms c, In p (getDigests (packageRepo ctx)) -> topLevel ctx p ->
     manifests (getManifestByDigest ctx p) = Some ms ->
     In c (map digest ms) -> In c (getDigests (packageRepo ctx)) ->
     loadDigestUsedByMap ctx !! c <> None).
Proof.
  pose proof (analyze_inv ctx (getDigests (packageRepo ctx))
                (getDigests (packageRepo ctx), ∅) (fun x H => H))
    as (I1 & I2 & I3 & I4 & I5).
  cbn zeta in I1, I2, I3, I4, I5. cbn [fst snd] in I1, I2, I3, I4, I5.
  split.
  - intros c ps Hc.
    pose proof (loadDigestUsedByMap_one_parent ctx c ps Hc) as Hsize.
    apply size_1_elem_of in Hsize. destruct Hsize as [p Hp].
    apply leibniz_equiv in Hp. subst ps.
    destruct (I5 ltac:(intros c' ps' p'; rewrite lookup_empty; discriminate)
                c {[p]} p Hc) as [Hin (ms & Hm & Hl)].
    { now apply elem_of_singleton. }
    exists p, ms. auto.
  - intros p ms c Hp Htop Hm Hc Hcin. unfold loadDigestUsedByMap. cbn zeta.
    apply (I4 p ms c); auto.
    destruct (in_dec string_dec p
                (fst (fold_left (analyze ctx) (getDigests (packageRepo ctx))
                        (getDigests (packageRepo ctx), ∅)))) as [Hy | Hn];
      [exact Hy|].
    exfalso. specialize (I2 p Hp Hn).
    destruct (snd (fold_left (analyze ctx) (getDigests (packageRepo ctx))
                     (getDigests (packageRepo ctx), ∅)) !! p) as [ps|] eqn:Hps;
      [|congruence].
    destruct (size_1_elem_of ps) as [q Hq].
    { apply (loadDigestUsedByMap_one_parent ctx p ps). exact Hps. }
    apply leibniz_equiv in Hq. subst ps.
    destruct (I5 ltac:(intros c' ps' p'; rewrite lookup_empty; discriminate)
                p {[q]} q Hps) as [Hqin (ms' & Hm' & Hl')].
    { now apply elem_of_singleton. }
    apply (Htop q ms' Hqin Hm' Hl').
Qed.

Section FilterSetFacts.

Variable getManifestByTag : string -> Manifest.

Lemma dropChildren_spec ms : forall ds x,
  In x (dropChildren ms ds) <-> In x ds /\ ~ In x (map digest ms).
Proof.
  unfold dropChildren. induction ms as [|im ms IH]; intros ds x.
  - simpl. tauto.
  - cbn [fold_left map]. rewrite IH, In_sdel. simpl. intuition.
Qed.

(** One referrer tag removes the digest it resolves to and the children
    of the manifest served under it, and nothing else. *)
Lemma dropReferrer_spec ctx d ds tag x :
  In tag (getTags (packageRepo ctx)) ->
  (In x (dropReferrer getManifestByTag ctx (replace "sha256:" "sha256-" d) ds tag)
   -> In x ds) /\
  (In x ds ->
   In x (dropReferrer getManifestByTag ctx (replace "sha256:" "sha256-" d) ds tag)
   \/ attachedTo getManifestByTag ctx d x) /\
  (forall td, startsWith tag (replace "sha256:" "sha256-" d) = true ->
     getDigestByTag (packageRepo ctx) tag = Some td -> td <> "" ->
     In x (dropReferrer getManifestByTag ctx (replace "sha256:" "sha256-" d) ds tag) ->
     x <> td /\ forall ms, manifests (getManifestByTag tag) = Some ms ->
                           ~ In x (map digest ms)).
Proof.
  intros Htag. unfold dropReferrer.
  destruct (startsWith tag (replace "sha256:" "sha256-" d)) eqn:Hs;
    [|split; [auto|split; [auto | discriminate]]].
  destruct (truthy_opt (getDigestByTag (packageRepo ctx) tag)) as [td|] eqn:Htd.
  - apply truthy_opt_iff in Htd. destruct Htd as [Htd Hne].
    destruct (manifests (getManifestByTag tag)) as [ms|] eqn:Hm.
    + split; [|split].
      * intros Hx. apply dropChildren_spec in Hx. destruct Hx as [Hx _].
        apply In_sdel in Hx. tauto.
      * intros Hx. destruct (String.eqb_spec x td) as [-> | Hxtd].
        { right. exists tag, td. auto 10. }
        destruct (in_dec string_dec x (map digest ms)) as [Hc | Hc].
        { right. exists tag, td. split; [exact Htag|]. split; [exact Hs|].
          split; [exact Htd|]. split; [exact Hne|]. right. exists ms. auto. }
        left. apply dropChildren_spec. split; [|exact Hc]. apply In_sdel. auto.
      * intros td' _ Hg _ Hx. assert (td' = td) by congruence. subst td'.
        apply dropChildren_spec in Hx. destruct Hx as [Hx Hc].
        apply In_sdel in Hx. split; [tauto|]. intros ms' [= <-]. exact Hc.
    + split; [|split].
      * intros Hx. apply In_sdel in Hx. tauto.
      * intros Hx. destruct (String.eqb_spec x td) as [-> | Hxtd].
        { right. exists tag, td. auto 10. }
        left. apply In_sdel. auto.
      * intros td' _ Hg _ Hx. assert (td' = td) by congruence. subst td'.
        apply In_sdel in Hx. split; [tauto|]. intros ms' [=].
  - split; [auto|]. split; [auto|]. intros td _ Hg Hne _.
    assert (truthy_opt (getDigestByTag (packageRepo ctx) tag) = Some td)
      by (apply truthy_opt_iff; auto). congruence.
Qed.

Lemma dropReferrers_spec ctx d l : forall ds x,
  (forall tag, In tag l -> In tag (getTags (packageRepo ctx))) ->
  let r := fold_left
             (dropReferrer getManifestByTag ctx (replace "sha256:" "sha256-" d))
             l ds in
  (In x r -> In x ds) /\
  (In x ds -> In x r \/ attachedTo getManifestByTag ctx d x) /\
  (forall tag td, In tag l ->
     startsWith tag (replace "sha256:" "sha256-" d) = true ->
     getDigestByTag (packageRepo ctx) tag = Some td -> td <> "" ->
     In x r ->
     x <> td /\ forall ms, manifests (getManifestByTag tag) = Some ms ->
                           ~ In x (map digest ms)).
Proof.
  induction l as [|t l IH]; intros ds x Hl; cbn zeta.
  - simpl. split; [auto|]. split; [auto|]. intros tag td [].
  - cbn [fold_left].
    assert (Hl' : forall tag, In tag l -> In tag (getTags (packageRepo ctx)))
      by (intros tag H; apply Hl; now right).
    destruct (IH (dropReferrer getManifestByTag ctx
                    (replace "sha256:" "sha256-" d) ds t) x Hl') as (I1 & I2 & I3).
    cbn zeta in I1, I2, I3.
    destruct (dropReferrer_spec ctx d ds t x (Hl t (or_introl eq_refl)))
      as (S1 & S2 & S3).
    split; [auto|]. split.
    + intros Hx. destruct (S2 Hx) as [Hy | Hr]; auto.
    + intros tag td [<- | Htag] Hs Hg Hne Hx; [|eauto].
      apply (S3 td Hs Hg Hne). auto.
Qed.

Lemma filterStep_spec ctx ds d x :
  let r := filterStep getManifestByTag ctx ds d in
  (In x r -> In x ds) /\
  (In x ds -> In x r \/ childOf ctx d x \/ attachedTo getManifestByTag ctx d x) /\
  (In d ds -> In x r ->
   ~ childOf ctx d x /\ ~ attachedTo getManifestByTag ctx d x).
Proof.
  cbn zeta. unfold filterStep. destruct (shas d ds) eqn:Hd.
  2:{ apply shas_false in Hd. split; [auto|]. split; [auto|]. tauto. }
  set (ds1 := match manifests (getManifestByDigest ctx d) with
              | Some ms => dropChildren ms ds
              | None => ds
              end).
  assert (C1 : In x ds1 -> In x ds).
  { subst ds1. destruct (manifests _); [|auto].
    intros H. apply dropChildren_spec in H. tauto. }
  assert (C2 : In x ds -> In x ds1 \/ childOf ctx d x).
  { subst ds1. unfold childOf. destruct (manifests _) as [ms|]; [|auto].
    intros H. destruct (in_dec string_dec x (map digest ms)) as [Hc | Hc].
    - right. exists ms. auto.
    - left. apply dropChildren_spec. auto. }
  assert (C3 : In x ds1 -> ~ childOf ctx d x).
  { subst ds1. unfold childOf. destruct (manifests _) as [ms|].
    - intros H (ms' & [= <-] & Hc). apply dropChildren_spec in H. tauto.
    - intros _ (ms' & [=] & _). }
  destruct (dropReferrers_spec ctx d (getTags (packageRepo ctx)) ds1 x
              (fun tag H => H)) as (R1 & R2 & R3).
  cbn zeta in R1, R2, R3.
  split; [auto|]. split.
  - intros Hx. destruct (C2 Hx) as [Hy | Hc]; [|auto].
    destruct (R2 Hy) as [Hz | Hr]; auto.
  - intros _ Hx. split; [auto|].
    intros (tag & td & Htag & Hs & Hg & Hne & Hwhy).
    destruct (R3 tag td Htag Hs Hg Hne Hx) as [H1 H2].
    destruct Hwhy as [-> | (ms & Hm & Hc)]; [congruence|].
    apply (H2 ms Hm Hc).
Qed.

Lemma filterLoop ctx l : forall ds,
  let r := fold_left (filterStep getManifestByTag ctx) l ds in
  (forall x, In x r -> In x ds) /\
  (forall x, In x ds ->
     In x r \/
     exists d, In d l /\ (childOf ctx d x \/ attachedTo getManifestByTag ctx d x)) /\
  (forall d x, In d l -> In d r -> In x r ->
     ~ childOf ctx d x /\ ~ attachedTo getManifestByTag ctx d x).
Proof.
  induction l as [|a l IH]; intros ds; cbn zeta.
  - simpl. split; [auto|]. split; [auto|]. intros d x [].
  - cbn [fold_left].
    destruct (IH (filterStep getManifestByTag ctx ds a)) as (I1 & I2 & I3).
    cbn zeta in I1, I2, I3.
    split; [|split].
    + intros x Hx. apply I1 in Hx.
      now apply (proj1 (filterStep_spec ctx ds a x)).
    + intros x Hx.
      destruct (proj1 (proj2 (filterStep_spec ctx ds a x)) Hx) as [Hy | Hr].
      * destruct (I2 x Hy) as [Hz | (d & Hd & Hr)]; [auto|].
        right. exists d. split; [now right | exact Hr].
      * right. exists a. split; [now left | exact Hr].
    + intros d x [<- | Hd] Hdr Hxr; [|auto].
      apply (proj2 (proj2 (filterStep_spec ctx ds a x))).
      * apply I1 in Hdr. now apply (proj1 (filterStep_spec ctx ds a a)).
      * now apply I1.
Qed.

(** X20: [initFilterSet] returns top-level digests only.  The result is
    part of the index; no digest of the result is a child of another one
    or hangs on it through a referrer tag; and every digest it dropped
    is a child of, or hangs on, some digest of the index. *)
Theorem initFilterSet_top_level (ctx : CleanupContext) :
  let r := initFilterSet getManifestByTag ctx in
  (forall x, In x r -> In x (getDigests (packageRepo ctx))) /\
  (forall d x, In d r -> In x r ->
     ~ childOf ctx d x /\ ~ attachedTo getManifestByTag ctx d x) /\
  (forall x, In x (getDigests (packageRepo ctx)) -> ~ In x r ->
     exists d, In d (getDigests (packageRepo ctx)) /\
       (childOf ctx d x \/ attachedTo getManifestByTag ctx d x)).
Proof.
  cbn zeta. unfold initFilterSet. cbn zeta.
  destruct (filterLoop ctx (getDigests (packageRepo ctx))
              (getDigests (packageRepo ctx))) as (I1 & I2 & I3).
  cbn zeta in I1, I2, I3. split; [exact I1|]. split.
  - intros d x Hd Hx. apply I3; auto.
  - intros x Hx Hno. destruct (I2 x Hx) as [Hy | Hr]; [contradiction | exact Hr].
Qed.

End FilterSetFacts.

End AnalyzerMore.

(** * Further facts: utils.ts *)

Section UtilsFacts.

Import Utils.

Lemma statistics_fold l : forall acc,
  let r := fold_left CleanupTaskStatistics_add l acc in
  Utils.name r = Utils.name acc /\
  numberImagesDeleted r =
    numberImagesDeleted acc + list_sum (map numberImagesDeleted l) /\
  numberMultiImagesDeleted r =
    numberMultiImagesDeleted acc + list_sum (map numberMultiImagesDeleted l).
Proof.
  induction l as [|s l IH]; intros acc; cbn zeta.
  - simpl. split; [reflexivity|]. split; lia.
  - cbn [fold_left map].
    destruct (IH (CleanupTaskStatistics_add acc s)) as (H1 & H2 & H3).
    cbn zeta in H1, H2, H3. rewrite H1, H2, H3.
    unfold CleanupTaskStatistics_add.
    cbn [numberImagesDeleted numberMultiImagesDeleted Utils.name].
    unfold list_sum. cbn [fold_right].
    split; [reflexivity|]. split; lia.
Qed.

(** X21: the combined statistics keep the name [combined-action] and
    hold the sums of the per-package counts. *)
Theorem globalStatistics_totals (perPackageStats : list CleanupTaskStatistics) :
  Utils.name (globalStatistics perPackageStats) = "combined-action" /\
  numberImagesDeleted (globalStatistics perPackageStats) =
    list_sum (map numberImagesDeleted perPackageStats) /\
  numberMultiImagesDeleted (globalStatistics perPackageStats) =
    list_sum (map numberMultiImagesDeleted perPackageStats).
Proof.
  unfold globalStatistics.
  destruct (statistics_fold perPackageStats
              {| Utils.name := "combined-action"; numberMultiImagesDeleted := 0;
                 numberImagesDeleted := 0 |}) as (H1 & H2 & H3).
  cbn zeta in H1, H2, H3. rewrite H1, H2, H3. auto.
Qed.

(** *** The map printer *)

Lemma setEntry_In k v l k' v' :
  In (k', v') (setEntry k v l) -> (k' = k /\ v' = v) \/ In (k', v') l.
Proof.
  induction l as [|[a b] l IH]; cbn [setEntry].
  - intros [[= <- <-] | []]. auto.
  - destruct (String.eqb a k) eqn:E.
    + apply String.eqb_eq in E. subst a.
      intros [[= <- <-] | H]; [auto | right; now right].
    + intros [[= <- <-] | H]; [right; now left|].
      destruct (IH H) as [Heq | Hin]; [auto | right; now right].
Qed.

Lemma setEntry_keys k v l :
  List.NoDup (map fst l) -> List.NoDup (map fst (setEntry k v l)).
Proof.
  induction l as [|[a b] l IH]; cbn [setEntry map fst]; intros Hn.
  - repeat constructor. intros [].
  - inversion Hn as [|? ? Hnot Hn']; subst.
    destruct (String.eqb a k) eqn:E; cbn [map fst]; [exact Hn|].
    constructor; [|auto]. intros Hin. apply in_map_iff in Hin.
    destruct Hin as ([a' b'] & Ha & Hin). cbn [fst] in Ha. subst a'.
    apply setEntry_In in Hin. destruct Hin as [[-> _] | Hin].
    + rewrite String.eqb_refl in E. discriminate.
    + apply Hnot. apply in_map_iff. exists (a, b'). auto.
Qed.

Lemma adds_inv adds : forall p,
  (forall k v, In (k, v) (entries p) -> String.length k <= maxLength p) ->
  List.NoDup (map fst (entries p)) ->
  let r := fold_left (fun p e => MapPrinter_add p (fst e) (snd e)) adds p in
  (forall k v, In (k, v) (entries r) -> String.length k <= maxLength r) /\
  List.NoDup (map fst (entries r)).
Proof.
  induction adds as [|[k v] adds IH]; intros p Hb Hn; cbn zeta.
  - auto.
  - cbn [fold_left fst snd]. apply IH.
    + unfold MapPrinter_add. cbn [entries maxLength]. intros k' v' Hin.
      apply setEntry_In in Hin.
      destruct (Nat.ltb (maxLength p) (String.length k)) eqn:E.
      * apply Nat.ltb_lt in E. destruct Hin as [[-> _] | Hin]; [lia|].
        specialize (Hb _ _ Hin). lia.
      * apply Nat.ltb_ge in E. destruct Hin as [[-> _] | Hin]; [lia | eauto].
    + unfold MapPrinter_add. cbn [entries]. now apply setEntry_keys.
Qed.

Lemma append_String c a b : String c a ++ b = String c (a ++ b).
Proof. reflexivity. Qed.

Lemma append_Empty b : "" ++ b = b.
Proof. reflexivity. Qed.

Lemma app_assoc_string a : forall b c, (a ++ b) ++ c = a ++ b ++ c.
Proof.
  induction a as [|x a IH]; intros b c; [reflexivity|].
  rewrite !append_String. f_equal. apply IH.
Qed.

Lemma length_app_string a : forall b,
  String.length (a ++ b) = String.length a + String.length b.
Proof.
  induction a as [|c a IH]; intros b; [reflexivity|].
  rewrite append_String. cbn [String.length]. now rewrite IH.
Qed.

Lemma length_padEnd n : String.length (padEnd n) = n.
Proof. induction n as [|n IH]; simpl; auto. Qed.

Lemma substring_skip a : forall b,
  String.substring (String.length a) (String.length b) (a ++ b) = b.
Proof.
  induction a as [|c a IH]; intros b.
  - rewrite append_Empty. apply substring_all. cbn [String.length]. lia.
  - rewrite append_String. cbn [String.length String.substring]. apply IH.
Qed.

Lemma substring_take a : forall b,
  String.substring 0 (String.length a) (a ++ b) = a.
Proof.
  induction a as [|c a IH]; intros b.
  - rewrite append_Empty. destruct b; reflexivity.
  - rewrite append_String. cbn [String.length String.substring].
    f_equal. apply IH.
Qed.

(** X22: whatever was added to a map printer, [print] writes one line
    per key, and every line carries its key at the start and its value
    at column [maxLength + 10], with at least ten characters of padding
    between them. *)
Theorem MapPrinter_print_aligned (adds : list (string * string)) :
  let p := fold_left (fun p e => MapPrinter_add p (fst e) (snd e)) adds
             newMapPrinter in
  List.NoDup (map fst (entries p)) /\
  List.length (MapPrinter_print p) = List.length (entries p) /\
  forall line, In line (MapPrinter_print p) ->
    exists key value, In (key, value) (entries p) /\
      String.substring 0 (String.length key) line = key /\
      String.length key + 10 <= maxLength p + 10 /\
      String.substring (maxLength p + 10) (String.length value) line = value /\
      String.length line = maxLength p + 10 + String.length value.
Proof.
  cbn zeta.
  destruct (adds_inv adds newMapPrinter) as [Hb Hn].
  { intros k v []. }
  { constructor. }
  cbn zeta in Hb, Hn.
  set (p := fold_left (fun p e => MapPrinter_add p (fst e) (snd e)) adds
              newMapPrinter) in *.
  split; [exact Hn|]. split; [unfold MapPrinter_print; apply length_map|].
  intros line Hin. unfold MapPrinter_print in Hin. apply in_map_iff in Hin.
  destruct Hin as ([k v] & <- & Hin). cbn [fst snd].
  exists k, v. pose proof (Hb k v Hin) as Hk.
  split; [exact Hin|]. split; [apply substring_take|]. split; [lia|].
  assert (Hpre : String.length (k ++ padEnd (maxLength p + 10 - String.length k))
                 = maxLength p + 10).
  { rewrite length_app_string, length_padEnd. lia. }
  split.
  - pose proof (substring_skip
                  (k ++ padEnd (maxLength p + 10 - String.length k)) v) as Hv.
    rewrite Hpre, app_assoc_string in Hv. exact Hv.
  - rewrite !length_app_string, length_padEnd. lia.
Qed.

(** *** Parsing a challenge *)

Lemma splitOn_nonempty sep s : ImageFilter.splitOn sep s <> [].
Proof.
  induction s as [|c s IH]; cbn [ImageFilter.splitOn]; [discriminate|].
  destruct (Ascii.eqb c sep); [discriminate|].
  destruct (ImageFilter.splitOn sep s); discriminate.
Qed.

Lemma splitOn_lacks sep s : lacks sep s -> ImageFilter.splitOn sep s = [s].
Proof.
  induction s as [|c s IH]; cbn [ImageFilter.splitOn lacks]; [reflexivity|].
  intros [Hc Hs]. apply Ascii.eqb_neq in Hc. rewrite Hc, (IH Hs). reflexivity.
Qed.

Lemma splitOn_app sep a : forall b,
  lacks sep a ->
  ImageFilter.splitOn sep (a ++ String sep b) = a :: ImageFilter.splitOn sep b.
Proof.
  induction a as [|c a IH]; intros b; cbn [lacks].
  - intros _. rewrite append_Empty. cbn [ImageFilter.splitOn].
    now rewrite Ascii.eqb_refl.
  - intros [Hc Ha]. rewrite append_String. cbn [ImageFilter.splitOn].
    apply Ascii.eqb_neq in Hc. rewrite Hc, (IH b Ha). reflexivity.
Qed.

Lemma lacks_app c a : forall b, lacks c a -> lacks c b -> lacks c (a ++ b).
Proof.
  induction a as [|x a IH]; intros b; [auto|].
  rewrite append_String. cbn [lacks]. intros [Hx Ha] Hb. auto.
Qed.

(** A quoted value loses exactly its quotes. *)
Lemma unquote v :
  (if startsWith (quote ++ v ++ quote) quote && endsWith (quote ++ v ++ quote) quote
   then substring 1 (String.length (quote ++ v ++ quote) - 1) (quote ++ v ++ quote)
   else quote ++ v ++ quote) = v.
Proof.
  assert (Hs : startsWith (quote ++ v ++ quote) quote = true).
  { unfold startsWith. apply prefix_app. }
  assert (He : endsWith (quote ++ v ++ quote) quote = true).
  { unfold endsWith. rewrite <- (app_assoc_string quote v quote).
    set (w := quote ++ v). rewrite length_app_string.
    replace (String.length w + String.length quote - String.length quote)
      with (String.length w) by lia.
    rewrite substring_skip, String.eqb_refl.
    apply andb_true_intro. split; [apply Nat.leb_le; lia | reflexivity]. }
  rewrite Hs, He. cbn [andb]. unfold substring.
  change (quote ++ v ++ quote)
    with (String (Ascii.ascii_of_nat 34) (v ++ quote)).
  cbn [String.length]. rewrite length_app_string. cbn [quote String.length].
  replace (Nat.min 1 (S (String.length v + 1))) with 1 by lia.
  replace (Nat.min (S (String.length v + 1) - 1) (S (String.length v + 1)))
    with (String.length v + 1) by lia.
  replace (Nat.min 1 (String.length v + 1)) with 1 by lia.
  replace (Nat.max 1 (String.length v + 1) - 1) with (String.length v) by lia.
  cbn [String.substring]. apply substring_take.
Qed.

Lemma parsePart_pair m k v :
  plain k -> plain v ->
  parsePart m (k ++ "=" ++ quote ++ v ++ quote) = <[k := v]> m.
Proof.
  intros [_ Hk] [_ Hv]. unfold parsePart.
  change (k ++ "=" ++ quote ++ v ++ quote)
    with (k ++ String (Ascii.ascii_of_nat 61) (quote ++ v ++ quote)).
  rewrite (splitOn_app _ k _ Hk).
  rewrite splitOn_lacks.
  2:{ apply lacks_app; [cbn; split; [discriminate | exact I]|].
      apply lacks_app; [exact Hv | cbn; split; [discriminate | exact I]]. }
  rewrite unquote. reflexivity.
Qed.

Lemma parts_fold kvs : forall m,
  (forall k v, In (k, v) kvs -> plain k /\ plain v) ->
  fold_left parsePart (ImageFilter.splitComma (renderAttributes kvs)) m =
  fold_left (fun m kv => <[fst kv := snd kv]> m) kvs m.
Proof.
  unfold ImageFilter.splitComma.
  induction kvs as [|[k v] kvs IH]; intros m Hp.
  - reflexivity.
  - assert (Hkv : plain k /\ plain v) by (apply Hp; now left).
    destruct Hkv as [Hk Hv].
    assert (Hl : lacks (Ascii.ascii_of_nat 44) (k ++ "=" ++ quote ++ v ++ quote)).
    { destruct Hk as [Hk _], Hv as [Hv _].
      apply lacks_app; [exact Hk|].
      apply lacks_app; [cbn; split; [discriminate | exact I]|].
      apply lacks_app; [cbn; split; [discriminate | exact I]|].
      apply lacks_app; [exact Hv | cbn; split; [discriminate | exact I]]. }
    destruct kvs as [|kv' kvs].
    + cbn [renderAttributes]. rewrite (splitOn_lacks _ _ Hl).
      cbn [fold_left fst snd]. now rewrite parsePart_pair.
    + replace (renderAttributes ((k, v) :: kv' :: kvs))
        with ((k ++ "=" ++ quote ++ v ++ quote) ++
              String (Ascii.ascii_of_nat 44) (renderAttributes (kv' :: kvs))).
      2:{ cbn [renderAttributes]. rewrite !app_assoc_string. reflexivity. }
      rewrite (splitOn_app _ _ _ Hl). cbn [fold_left fst snd].
      rewrite parsePart_pair by assumption.
      apply IH. intros k0 v0 H0. apply Hp. now right.
Qed.

(** X23: parsing a rendered challenge gives the attributes back.  For
    keys and values without comma and equals sign,
    [Bearer k1="v1",k2="v2",...] parses to the map that holds each value
    under its key, a later key overriding an earlier one; a string that
    does not start with [Bearer ] parses to the empty map. *)
Theorem parseChallenge_round_trip (kvs : list (string * string)) :
  (forall k v, In (k, v) kvs -> plain k /\ plain v) ->
  parseChallenge ("Bearer " ++ renderAttributes kvs) =
    fold_left (fun m kv => <[fst kv := snd kv]> m) kvs ∅ /\
  forall other, startsWith other "Bearer " = false -> parseChallenge other = ∅.
Proof.
  intros Hp. split.
  - unfold parseChallenge.
    assert (Hs : startsWith ("Bearer " ++ renderAttributes kvs) "Bearer " = true)
      by (unfold startsWith; apply prefix_app).
    rewrite Hs. cbn zeta. rewrite replace_head.
    change ("" ++ renderAttributes kvs) with (renderAttributes kvs).
    now apply parts_fold.
  - intros other Ho. unfold parseChallenge. now rewrite Ho.
Qed.

(** X24: a value that is a single quote character keeps it: the two
    indices of [substring(1, 0)] are swapped. *)
Theorem parsePart_single_quote (m : gmap string string) (k : string) :
  lacks (Ascii.ascii_of_nat 61) k ->
  parsePart m (k ++ "=" ++ quote) = <[k := quote]> m.
Proof.
  intros Hk. unfold parsePart.
  change (k ++ "=" ++ quote) with (k ++ String (Ascii.ascii_of_nat 61) quote).
  rewrite (splitOn_app _ k _ Hk). reflexivity.
Qed.

End UtilsFacts.

(** * Further facts: labels, untagging, the selector branch *)

Section LabelFacts.

Import ManifestAnalyzer.

(** X25: [buildLabel] throws in one case only: the descriptor has a
    platform whose architecture is [unknown] and the manifest of its
    digest has an empty layer list. *)
Theorem buildLabel_throws_iff (ctx : CleanupContext) (imageManifest : Descriptor) :
  (exists e, buildLabel ctx imageManifest = Abrupt e) <->
  (exists p, platform imageManifest = Some p /\
     architecture p = Some "unknown" /\
     layers (getManifestByDigest ctx (digest imageManifest)) = Some []).
Proof.
  unfold buildLabel. split.
  - intros [e He]. destruct (platform imageManifest) as [p|].
    + exists p. split; [reflexivity|].
      destruct (truthy_opt (architecture p)) as [a|] eqn:Ha.
      * apply truthy_opt_iff in Ha. destruct Ha as [Ha _].
        destruct (String.eqb a "unknown") eqn:Eu; cbn [negb] in He; [|discriminate].
        apply String.eqb_eq in Eu. subst a. split; [exact Ha|].
        destruct (layers _) as [[|l0 ls]|]; [reflexivity | |discriminate].
        destruct (String.eqb (mediaType l0) _); discriminate.
      * cbn in He. discriminate.
    + destruct (truthy_opt (artifactType imageManifest)) as [a|]; [|discriminate].
      destruct (startsWith a _); discriminate.
  - intros (p & Hp & Ha & Hl). rewrite Hp, Ha, Hl. cbn. eexists. reflexivity.
Qed.

End LabelFacts.

Section UntaggingFrame.

Import Deleter.

Variable loadPackages : list Call -> PackageRepo -> PackageRepo.

(** What untagging leaves alone, and the shape of what it adds. *)
Lemma untagTag_frame d tag self self' :
  untagTag loadPackages d tag self = Normal self' ->
  deleted self' = deleted self /\
  digestUsedBy self' = digestUsedBy self /\
  config (context self') = config (context self) /\
  registry (context self') = registry (context self) /\
  targetPackage (context self') = targetPackage (context self) /\
  exists ext, calls self' = (calls self ++ ext)%list /\
    forall target id x ts label,
      In (DeletePackageVersion target id x ts label) ext ->
      label = None /\ ts = [tag].
Proof.
  unfold untagTag.
  destruct (getPackageByDigest _ d) as [gh|]; [|discriminate].
  destruct (Nat.ltb 1 (List.length (tags gh))).
  2:{ intros [= <-]. repeat (split; [reflexivity|]). exists [].
      rewrite app_nil_r. split; [reflexivity | intros ? ? ? ? ? []]. }
  cbn zeta.
  set (put := fakeManifest tag (getManifestByDigest (context self) d)).
  assert (Hput : forall target id x ts label,
            put <> DeletePackageVersion target id x ts label).
  { intros. subst put. unfold fakeManifest.
    destruct (manifests _); discriminate. }
  destruct (truthy_opt _) as [u|].
  - destruct (getIdByDigest _ u) as [id|]; intros [= <-]; cbn;
      repeat (split; [reflexivity|]).
    + eexists. rewrite <- !app_assoc. split; [reflexivity|].
      intros target id' x ts label [H | [H | [H | []]]].
      * destruct (Hput _ _ _ _ _ H).
      * discriminate.
      * injection H as <- <- <- <- <-. auto.
    + eexists. rewrite <- !app_assoc. split; [reflexivity|].
      intros target id' x ts label [H | [H | []]].
      * destruct (Hput _ _ _ _ _ H).
      * discriminate.
  - intros [= <-]. cbn. repeat (split; [reflexivity|]).
    eexists. rewrite <- !app_assoc. split; [reflexivity|].
    intros target id' x ts label [H | [H | []]].
    + destruct (Hput _ _ _ _ _ H).
    + discriminate.
Qed.

Lemma untagEntry_frame d l : forall self self',
  forOf (untagTag loadPackages d) l self = Normal self' ->
  deleted self' = deleted self /\
  digestUsedBy self' = digestUsedBy self /\
  config (context self') = config (context self) /\
  registry (context self') = registry (context self) /\
  targetPackage (context self') = targetPackage (context self) /\
  exists ext, calls self' = (calls self ++ ext)%list /\
    forall target id x ts label,
      In (DeletePackageVersion target id x ts label) ext ->
      label = None /\ exists t, ts = [t] /\ In t l.
Proof.
  induction l as [|t l IH]; intros self self'.
  - intros [= <-]. repeat (split; [reflexivity|]). exists [].
    rewrite app_nil_r. split; [reflexivity | intros ? ? ? ? ? []].
  - rewrite forOf_cons.
    destruct (untagTag loadPackages d t self) as [s1|] eqn:E; cbn [cbind];
      [|discriminate].
    intros H. apply IH in H. apply untagTag_frame in E.
    destruct E as (E1 & E2 & E3 & E4 & E5 & ext1 & Ec1 & Hd1).
    destruct H as (H1 & H2 & H3 & H4 & H5 & ext2 & Ec2 & Hd2).
    split; [congruence|]. split; [congruence|]. split; [congruence|].
    split; [congruence|]. split; [congruence|].
    exists (ext1 ++ ext2)%list. split; [rewrite Ec2, Ec1, app_assoc; reflexivity|].
    intros target id x ts label Hin. apply in_app_or in Hin.
    destruct Hin as [Hin | Hin].
    + destruct (Hd1 _ _ _ _ _ Hin) as [Hl Hts]. split; [exact Hl|].
      exists t. split; [exact Hts | now left].
    + destruct (Hd2 _ _ _ _ _ Hin) as [Hl (t' & Hts & Ht')]. split; [exact Hl|].
      exists t'. split; [exact Hts | now right].
Qed.

Lemma untagEntries_frame ops : forall self self',
  forOf (untagEntry loadPackages) ops self = Normal self' ->
  deleted self' = deleted self /\
  digestUsedBy self' = digestUsedBy self /\
  config (context self') = config (context self) /\
  registry (context self') = registry (context self) /\
  targetPackage (context self') = targetPackage (context self) /\
  exists ext, calls self' = (calls self ++ ext)%list /\ untagsOnly ops ext.
Proof.
  unfold untagsOnly. induction ops as [|e ops IH]; intros self self'.
  - intros [= <-]. repeat (split; [reflexivity|]). exists [].
    rewrite app_nil_r. split; [reflexivity | intros ? ? ? ? ? []].
  - rewrite forOf_cons.
    destruct (untagEntry loadPackages e self) as [s1|] eqn:E; cbn [cbind];
      [|discriminate].
    intros H. apply IH in H. unfold untagEntry in E. apply untagEntry_frame in E.
    destruct E as (E1 & E2 & E3 & E4 & E5 & ext1 & Ec1 & Hd1).
    destruct H as (H1 & H2 & H3 & H4 & H5 & ext2 & Ec2 & Hd2).
    split; [congruence|]. split; [congruence|]. split; [congruence|].
    split; [congruence|]. split; [congruence|].
    exists (ext1 ++ ext2)%list. split; [rewrite Ec2, Ec1, app_assoc; reflexivity|].
    intros target id x ts label Hin. apply in_app_or in Hin.
    destruct Hin as [Hin | Hin].
    + destruct (Hd1 _ _ _ _ _ Hin) as [Hl (t & Hts & Ht)]. split; [exact Hl|].
      exists t, e. split; [exact Hts|]. split; [now left | exact Ht].
    + destruct (Hd2 _ _ _ _ _ Hin) as [Hl (t & e' & Hts & He' & Ht)].
      split; [exact Hl|]. exists t, e'. split; [exact Hts|].
      split; [now right | exact Ht].
Qed.

(** X26: [performUntagging] touches the snapshot and the call log only.
    The [deleted] set, the used-by map, the configuration, the registry
    and the target package stay as they were; the log only grows; and
    every deletion it issues removes one tag of the operations and has
    no label. *)
Theorem performUntagging_frame (ops : list (string * list string))
  (self self' : ImageDeleter) (reloadNeeded : bool) :
  performUntagging loadPackages ops self = Normal (reloadNeeded, self') ->
  deleted self' = deleted self /\
  digestUsedBy self' = digestUsedBy self /\
  config (context self') = config (context self) /\
  registry (context self') = registry (context self) /\
  targetPackage (context self') = targetPackage (context self) /\
  exists ext, calls self' = (calls self ++ ext)%list /\ untagsOnly ops ext.
Proof.
  unfold performUntagging. destruct (Nat.eqb (List.length ops) 0).
  - intros [= <- <-]. repeat (split; [reflexivity|]). exists [].
    rewrite app_nil_r. split; [reflexivity | unfold untagsOnly; intros ? ? ? ? ? []].
  - destruct (forOf (untagEntry loadPackages) ops self) as [s1|] eqn:E;
      cbn [cbind]; [|discriminate].
    intros [= <- <-]. now apply untagEntries_frame.
Qed.

End UntaggingFrame.

Section SelectorBranch.

Import DeletionStrategy.

Variable arraySort :
  (Package -> Package -> option Z) -> list Package -> list Package.
Hypothesis sort_ok : sorts arraySort.
Variable regexTest : string -> option (string -> bool).
Variable wcmatch : list string -> string -> bool.

Lemma collectMatched_fold ctx l : forall acc,
  exists R, fold_left (collectMatched ctx) l acc = (acc ++ R)%list /\
    List.length R = List.length (resolving ctx l) /\
    forall p, In p R ->
      getPackageByDigest (packageRepo ctx) (name p) = Some p /\
      exists tag, In tag l /\
        getDigestByTag (packageRepo ctx) tag = Some (name p) /\ name p <> "".
Proof.
  induction l as [|t l IH]; intros acc.
  - exists []. rewrite app_nil_r. split; [reflexivity|].
    split; [reflexivity | intros p []].
  - cbn [fold_left]. unfold resolving. cbn [List.filter].
    unfold collectMatched at 2.
    destruct (truthy_opt (getDigestByTag (packageRepo ctx) t)) as [d|] eqn:Hd.
    + apply truthy_opt_iff in Hd. destruct Hd as [Hd Hne].
      destruct (getPackageByDigest (packageRepo ctx) d) as [p|] eqn:Hp.
      * destruct (IH (acc ++ [p])%list) as (R & E & Hlen & HR).
        exists (p :: R). rewrite E, <- app_assoc. split; [reflexivity|].
        split; [cbn [List.length]; unfold resolving in Hlen; now rewrite Hlen|].
        destruct (getPackageByDigest_Some _ _ _ Hp) as [Hname _].
        intros q [<- | Hq].
        -- rewrite Hname. split; [exact Hp|]. exists t. split; [now left | auto].
        -- destruct (HR q Hq) as [H1 (tag & Ht & H2)]. split; [exact H1|].
           exists tag. split; [now right | exact H2].
      * destruct (IH acc) as (R & E & Hlen & HR). exists R. split; [exact E|].
        split; [exact Hlen|]. intros q Hq.
        destruct (HR q Hq) as [H1 (tag & Ht & H2)]. split; [exact H1|].
        exists tag. split; [now right | exact H2].
    + destruct (IH acc) as (R & E & Hlen & HR). exists R. split; [exact E|].
      split; [exact Hlen|]. intros q Hq.
      destruct (HR q Hq) as [H1 (tag & Ht & H2)]. split; [exact H1|].
      exists tag. split; [now right | exact H2].
Qed.

(** X27: with a tag selector, [keepNTagged] returns whenever [expandTags]
    does.  It stages only digests that a matched tag resolves to, and it
    counts one entry per resolving matched tag: nothing is staged when
    these are at most [n], and something is staged as soon as they are
    more, also when they all name the same image. *)
Theorem keepNTagged_counts_matched_tags (ctx : CleanupContext)
  (filterSet matchTags : list string) (n : nat) (selector : string) :
  keepNtagged (config ctx) = Some n ->
  deleteTags (config ctx) = Some selector ->
  ImageFilter.expandTags regexTest wcmatch ctx filterSet = Normal matchTags ->
  exists deleteSet filterSet',
    keepNTagged arraySort regexTest wcmatch ctx filterSet =
      Normal (deleteSet, filterSet') /\
    (forall d, In d deleteSet ->
       exists tag, In tag matchTags /\
         getDigestByTag (packageRepo ctx) tag = Some d /\
         getPackageByDigest (packageRepo ctx) d <> None) /\
    (forall d, In d filterSet' <-> In d filterSet /\ ~ In d deleteSet) /\
    (List.length (resolving ctx matchTags) <= n -> deleteSet = []) /\
    (n < List.length (resolving ctx matchTags) -> deleteSet <> []).
Proof.
  intros Hn Hsel Hm. destruct sort_ok as [Hperm _].
  unfold keepNTagged. rewrite Hn, Hsel, Hm. cbn [cbind].
  destruct (collectMatched_fold ctx matchTags []) as (R & E & Hlen & HR).
  rewrite E. cbn [app].
  set (S := arraySort byDateDesc R).
  assert (HS : forall p, In p S -> In p R).
  { intros p Hp. apply (Permutation_in _ (Hperm byDateDesc R) Hp). }
  assert (HlenS : List.length S = List.length (resolving ctx matchTags)).
  { rewrite <- Hlen. apply Permutation_length, Hperm. }
  assert (Hskip : forall p, In p (skipn n S) -> In p S).
  { intros p Hp. rewrite <- (firstn_skipn n S). apply in_or_app. now right. }
  assert (Hres : (if Nat.ltb n (List.length S)
                  then forOf (stageTagged ctx) (skipn n S) ([], filterSet)
                  else Normal ([], filterSet)) =
                 Normal (fold_left stagePackage (skipn n S) ([], filterSet))).
  { destruct (Nat.ltb n (List.length S)) eqn:H1.
    - apply stageTagged_fold. intros p Hin.
      destruct (HR p (HS p (Hskip p Hin))) as [Hg _]. rewrite Hg. discriminate.
    - apply Nat.ltb_ge in H1. now rewrite skipn_all2. }
  rewrite Hres.
  destruct (stage_fold (skipn n S) [] filterSet) as (H1 & H2 & _).
  cbn zeta in H1, H2.
  destruct (fold_left stagePackage (skipn n S) ([], filterSet)) as [ds fs] eqn:Hst.
  cbn [fst snd] in H1, H2.
  exists ds, fs. split; [reflexivity|]. split; [|split; [|split]].
  - intros d Hd. apply H1 in Hd. destruct Hd as [[] | Hd].
    apply in_map_iff in Hd. destruct Hd as (p & <- & Hp).
    destruct (HR p (HS p (Hskip p Hp))) as [Hg (tag & Ht & Hr & _)].
    exists tag. split; [exact Ht|]. split; [exact Hr|]. rewrite Hg. discriminate.
  - intros d. rewrite H2, H1. simpl. tauto.
  - intros Hle. rewrite skipn_all2 in Hst by lia. cbn in Hst. congruence.
  - intros Hlt Hnil. subst ds.
    destruct (skipn n S) as [|p rest] eqn:Hsk.
    + assert (Hl : List.length (skipn n S) = List.length S - n) by apply length_skipn.
      rewrite Hsk in Hl. cbn in Hl. lia.
    + apply (proj2 (H1 (name p))). right. now left.
Qed.

End SelectorBranch.

(** * Further facts: package selection and a new session *)

Section SelectionFacts.

Variable regexTest : string -> option (string -> bool).
Variable wcmatch : list string -> string -> bool.

(** X28: without expand mode the package selection cannot fail: it is
    the comma split of the input, which is never empty.  In expand mode a
    selection that succeeds needed an OAuth token and a pattern that
    builds a matcher, and it holds exactly the packages of the repository
    that the matcher accepts. *)
Theorem selectPackages_cases (useRegex : bool) (package : string)
  (tokenIsOauth : bool) (packagesInUse : list string) :
  (Main.selectPackages regexTest wcmatch false useRegex package tokenIsOauth
     packagesInUse = Some (ImageFilter.splitComma package) /\
   ImageFilter.splitComma package <> []) /\
  (forall targetPackages,
     Main.selectPackages regexTest wcmatch true useRegex package tokenIsOauth
       packagesInUse = Some targetPackages ->
     tokenIsOauth = true /\ targetPackages <> [] /\
     exists isTagMatch,
       ImageFilter.isTagMatch regexTest wcmatch useRegex package
         = Normal isTagMatch /\
       forall name, In name targetPackages <->
         In name packagesInUse /\ isTagMatch name = true).
Proof.
  split.
  - assert (Hne : ImageFilter.splitComma package <> []) by apply splitOn_nonempty.
    split; [|exact Hne]. unfold Main.selectPackages. cbn zeta.
    destruct (ImageFilter.splitComma package); [congruence | reflexivity].
  - intros tp. unfold Main.selectPackages. cbn zeta.
    destruct tokenIsOauth; cbn [negb]; [|discriminate].
    destruct (ImageFilter.isTagMatch regexTest wcmatch useRegex package)
      as [m|e]; [|discriminate].
    destruct (List.filter m packagesInUse) as [|a l] eqn:E;
      cbn [List.length Nat.eqb]; [discriminate|].
    intros [= <-]. split; [reflexivity|]. split; [discriminate|].
    exists m. split; [reflexivity|].
    intros name. rewrite <- E. apply filter_In.
Qed.

End SelectionFacts.

Section NewSession.

Import Deleter.

(** X29: the memory of deletions lasts for one session.  After
    [reset()] a call of [deleteImage] that returns has issued a deletion
    of the package's digest again and counts at least one image, whatever
    was deleted before. *)
Theorem reset_deletes_again (self : ImageDeleter) (ghPackage : Package)
  (cnt : Counts) (self' : ImageDeleter) :
  deleteImage (reset self) ghPackage = Some (Normal (cnt, self')) ->
  1 <= imagesDeleted cnt /\
  exists ext, calls self' = (calls self ++ ext)%list /\
    List.length ext = imagesDeleted cnt /\
    In (name ghPackage) (deletedDigests ext).
Proof.
  intros E.
  destruct (deleteImageF_summary _ _ _ cnt self' E)
    as ((_ & ext & Hc & _ & Hlen & _ & _ & Hm) & _ & Hin).
  apply Hm in Hin. cbn [reset deleted] in Hin.
  destruct Hin as [Hin | Hin]; [apply elem_of_empty in Hin; destruct Hin|].
  split.
  - rewrite <- Hlen. destruct ext; [destruct Hin | cbn; lia].
  - exists ext. auto.
Qed.

End NewSession.

(** * The insertion sort is a sort *)

Section SortFacts.

Import DeletionStrategy.

Lemma insertBy_perm cmp p l : Permutation (Examples.insertBy cmp p l) (p :: l).
Proof.
  induction l as [|q r IH]; cbn [Examples.insertBy]; [reflexivity|].
  destruct (cmp p q) as [z|]; [|reflexivity].
  destruct (z <=? 0)%Z; [reflexivity|].
  rewrite IH. apply perm_swap.
Qed.

Lemma sortBy_perm cmp l : Permutation (Examples.sortBy cmp l) l.
Proof.
  unfold Examples.sortBy. induction l as [|p l IH]; cbn [fold_right]; [reflexivity|].
  rewrite insertBy_perm. now constructor.
Qed.

Lemma insertBy_sorted p l :
  updated_at p <> None ->
  (forall q, In q l -> updated_at q <> None) ->
  StronglySorted (inOrder byDateDesc) l ->
  StronglySorted (inOrder byDateDesc) (Examples.insertBy byDateDesc p l).
Proof.
  intros Hp. induction l as [|q r IH]; intros Hall Hs; cbn [Examples.insertBy].
  - repeat constructor.
  - apply StronglySorted_inv in Hs. destruct Hs as [Hr Hq].
    assert (Hqd : updated_at q <> None) by (apply Hall; now left).
    destruct (updated_at p) as [tp|] eqn:Ep; [|congruence].
    destruct (updated_at q) as [tq|] eqn:Eq; [|congruence].
    assert (Ec : byDateDesc p q = Some (tq - tp)%Z)
      by (unfold byDateDesc; now rewrite Ep, Eq).
    rewrite Ec.
    destruct (tq - tp <=? 0)%Z eqn:Hc.
    + apply Z.leb_le in Hc. constructor; [constructor; assumption|].
      constructor.
      * unfold inOrder, byDateDesc. rewrite Ep, Eq. exact Hc.
      * rewrite List.Forall_forall in Hq |- *. intros x Hx.
        specialize (Hq x Hx). unfold inOrder, byDateDesc in Hq |- *.
        rewrite Ep. rewrite Eq in Hq.
        destruct (updated_at x) as [tx|]; [lia | exact I].
    + apply Z.leb_gt in Hc. constructor.
      * apply IH; [intros x Hx; apply Hall; now right | exact Hr].
      * rewrite List.Forall_forall in Hq |- *. intros x Hx.
        apply (Permutation_in _ (insertBy_perm byDateDesc p r)) in Hx.
        destruct Hx as [<- | Hx]; [|auto].
        unfold inOrder, byDateDesc. rewrite Ep, Eq. lia.
Qed.

Lemma sortBy_sorts : sorts Examples.sortBy.
Proof.
  split; [apply sortBy_perm|].
  unfold Examples.sortBy. induction l as [|p l IH]; intros Hall; cbn [fold_right].
  - constructor.
  - apply insertBy_sorted.
    + apply Hall. now left.
    + intros q Hq. apply Hall. right.
      apply (Permutation_in _ (sortBy_perm byDateDesc l) Hq).
    + apply IH. intros q Hq. apply Hall. now right.
Qed.

End SortFacts.

(** * The statements at concrete inputs *)

Lemma keepSet_packages keepT keepU d :
  In d Examples.keepSet ->
  getPackageByDigest (packageRepo (Examples.ctxKeep keepT keepU)) d <> None.
Proof.
  intros Hd. repeat (destruct Hd as [<- | Hd]; [vm_compute; discriminate|]).
  destruct Hd.
Qed.

Lemma keepSet_NoDup : List.NoDup Examples.keepSet.
Proof.
  unfold Examples.keepSet.
  repeat (constructor; [simpl; intuition discriminate|]). constructor.
Qed.

Lemma selectSet_packages keep d :
  In d Scenarios.selectSet ->
  getPackageByDigest (packageRepo (Scenarios.ctxSelect keep)) d <> None.
Proof.
  intros Hd. repeat (destruct Hd as [<- | Hd]; [vm_compute; discriminate|]).
  destruct Hd.
Qed.

Lemma deleteImages_reports_its_calls_witness :
  exists cnt self',
    Deleter.deleteImages Scenarios.deleterA ["sha256:P"]
      = Some (Normal (cnt, self')) /\
    deletes Scenarios.deleterA (imagesDeleted cnt) self' /\
    multiImagesDeleted cnt <= imagesDeleted cnt /\
    (forall d, In d ["sha256:P"] -> d ∈ deleted self').
Proof.
  eexists. eexists. split; [vm_compute; reflexivity|].
  apply (deleteImages_reports_its_calls Scenarios.deleterA ["sha256:P"]).
  vm_compute. reflexivity.
Defined.

Lemma deleteImages_never_deletes_twice_witness :
  sessionConsistent Scenarios.deleterA /\
  exists cnt self',
    Deleter.deleteImages Scenarios.deleterA ["sha256:P"]
      = Some (Normal (cnt, self')) /\
    sessionConsistent self'.
Proof.
  assert (H0 : sessionConsistent Scenarios.deleterA)
    by (split; [cbn; constructor | cbn; intros d []]).
  split; [exact H0|]. eexists. eexists. split; [vm_compute; reflexivity|].
  refine (proj2 (deleteImages_never_deletes_twice Scenarios.deleterA
                   ["sha256:P"] _ _ H0) _).
  vm_compute. reflexivity.
Defined.

Lemma deleteImage_deletes_referrers_witness :
  exists cnt self',
    Deleter.deleteImage Scenarios.deleterNested (Scenarios.pkg 2 "sha256:C" [])
      = Some (Normal (cnt, self')) /\
    "sha256:C" ∈ deleted self' /\ "sha256:A" ∈ deleted self'.
Proof.
  eexists. eexists. split; [vm_compute; reflexivity|].
  eapply (deleteImage_deletes_referrers Scenarios.deleterNested
           (Scenarios.pkg 2 "sha256:C" []) _ _ "sha256-C.att" "sha256:A"
           (Scenarios.pkg 4 "sha256:A" ["sha256-C.att"])).
  - cbn. set_solver.
  - vm_compute. reflexivity.
  - vm_compute. auto.
  - reflexivity.
  - reflexivity.
  - discriminate.
  - reflexivity.
Defined.

Lemma deleteImages_completes_witness :
  layersNonEmpty (context Scenarios.deleterA) /\
  exists cnt self',
    Deleter.deleteImages Scenarios.deleterA ["sha256:P"]
      = Some (Normal (cnt, self')).
Proof.
  assert (Hl : layersNonEmpty (context Scenarios.deleterA)).
  { intros d. cbn. destruct (String.eqb d "sha256:P"); [discriminate|].
    destruct (String.eqb d "sha256:Q"); discriminate. }
  split; [exact Hl|].
  apply (deleteImages_completes Scenarios.deleterA ["sha256:P"] Hl).
  intros d [<- | []]. vm_compute. discriminate.
Defined.

Lemma findGhostImages_exact_witness :
  exists ghosts,
    ImageValidator.findGhostImages Scenarios.ctxGhost ["ghost1"] = Normal ghosts /\
    forall d, In d ghosts <->
      In d ["ghost1"] /\
      exists ms, manifests (getManifestByDigest Scenarios.ctxGhost d) = Some ms /\
        forall im, In im ms ->
          getIdByDigest (packageRepo Scenarios.ctxGhost) (digest im) = None.
Proof.
  apply (findGhostImages_exact Scenarios.ctxGhost ["ghost1"]).
  intros d [<- | []]. vm_compute. discriminate.
Defined.

Lemma findPartialImages_exact_witness :
  exists partials,
    ImageValidator.findPartialImages Scenarios.ctxGhost ["ghost1"]
      = Normal partials /\
    forall d, In d partials <->
      In d ["ghost1"] /\
      exists ms im, manifests (getManifestByDigest Scenarios.ctxGhost d) = Some ms /\
        In im ms /\
        getIdByDigest (packageRepo Scenarios.ctxGhost) (digest im) = None.
Proof.
  apply (findPartialImages_exact Scenarios.ctxGhost ["ghost1"]).
  intros d [<- | []]. vm_compute. discriminate.
Defined.

Lemma deleteAllUntagged_splits_witness :
  exists deleteSet filterSet',
    DeletionStrategy.deleteAllUntagged (Examples.ctxKeep None None)
      Examples.keepSet = Normal (deleteSet, filterSet') /\
    forall d,
      (In d deleteSet <->
       In d Examples.keepSet /\ isUntagged (Examples.ctxKeep None None) d = true) /\
      (In d filterSet' <->
       In d Examples.keepSet /\ isUntagged (Examples.ctxKeep None None) d = false).
Proof.
  apply (deleteAllUntagged_splits (Examples.ctxKeep None None) Examples.keepSet).
  apply keepSet_packages.
Defined.

Lemma deleteAllUntagged_throws_witness :
  exists e,
    DeletionStrategy.deleteAllUntagged (Examples.ctxKeep None None)
      ["sha256:u1"; "sha256:gone"] = Abrupt e.
Proof.
  apply (deleteAllUntagged_throws (Examples.ctxKeep None None)
           ["sha256:u1"; "sha256:gone"]).
  - repeat (constructor; [simpl; intuition discriminate|]). constructor.
  - exists "sha256:gone". split; [simpl; auto | reflexivity].
Defined.

Lemma keepNUntagged_keeps_newest_witness :
  exists deleteSet filterSet',
    DeletionStrategy.keepNUntagged Examples.sortBy
      (Examples.ctxKeep None (Some 1)) Examples.keepSet
      = Normal (deleteSet, filterSet') /\
    List.length (List.filter (isUntagged (Examples.ctxKeep None (Some 1))) filterSet')
      = 1.
Proof.
  destruct (keepNUntagged_keeps_newest Examples.sortBy sortBy_sorts
              (Examples.ctxKeep None (Some 1)) Examples.keepSet 1 eq_refl
              keepSet_NoDup (keepSet_packages None (Some 1)))
    as (ds & fs & E & _ & _ & Hlen & _).
  exists ds, fs. split; [exact E|]. rewrite Hlen. reflexivity.
Defined.

Lemma keepNTagged_keeps_newest_witness :
  exists deleteSet filterSet',
    DeletionStrategy.keepNTagged Examples.sortBy (fun _ => Some (fun _ => false)) Scenarios.exact
      (Examples.ctxKeep (Some 1) None) Examples.keepSet
      = Normal (deleteSet, filterSet') /\
    List.length (List.filter (isTagged (Examples.ctxKeep (Some 1) None)) filterSet')
      = 1.
Proof.
  destruct (keepNTagged_keeps_newest Examples.sortBy sortBy_sorts
              (fun _ => Some (fun _ => false)) Scenarios.exact
              (Examples.ctxKeep (Some 1) None) Examples.keepSet 1 eq_refl eq_refl
              keepSet_NoDup (keepSet_packages (Some 1) None))
    as (ds & fs & E & _ & _ & Hlen & _).
  exists ds, fs. split; [exact E|]. rewrite Hlen. reflexivity.
Defined.

Lemma expandTags_exact_witness :
  (exists matchTags,
     ImageFilter.expandTags (fun _ => Some (fun _ => false)) Scenarios.exact
       (Scenarios.ctxSelect None) Scenarios.selectSet = Normal matchTags /\
     List.NoDup matchTags) /\
  ImageFilter.expandTags (fun _ => None) Scenarios.exact
    Examples.ctxRegex Scenarios.selectSet
    = Abrupt (SyntaxError "Invalid regular expression").
Proof.
  split.
  - destruct (expandTags_exact (fun _ => Some (fun _ => false)) Scenarios.exact
                (Scenarios.ctxSelect None) Scenarios.selectSet
                "rc1,rc2,sha256:raw" eq_refl (selectSet_packages None))
      as (mt & E & Hn & _).
    exists mt. split; [exact E | exact Hn].
  - apply (expandTags_exact (fun _ => None) Scenarios.exact
             Examples.ctxRegex Scenarios.selectSet "rc[0-9" eq_refl).
    intros d Hd.
    repeat (destruct Hd as [<- | Hd]; [vm_compute; discriminate|]). destruct Hd.
Defined.


Lemma processTagDeletions_stages_only_matches_witness :
  exists plan filterSet',
    DeletionStrategy.processTagDeletions (fun _ => Some (fun _ => false)) Scenarios.exact
      (Scenarios.ctxSelect None) Scenarios.selectSet []
      = Normal (plan, filterSet') /\
    forall d, In d filterSet' <->
      In d Scenarios.selectSet /\ ~ In d (DeletionStrategy.deleteSet plan).
Proof.
  eexists. eexists. split; [reflexivity|].
  eapply (processTagDeletions_stages_only_matches
           (fun _ => Some (fun _ => false)) Scenarios.exact
           (Scenarios.ctxSelect None) Scenarios.selectSet []
           ["rc1"; "rc2"; "sha256:raw"] _ _ eq_refl eq_refl).
Defined.

Lemma challenge_plain k v : In (k, v) Examples.challenge -> plain k /\ plain v.
Proof.
  intros H. unfold Examples.challenge in H.
  repeat (destruct H as [[= <- <-] | H];
          [split; split; cbn; repeat split; discriminate|]).
  destruct H.
Qed.

Lemma parseChallenge_round_trip_witness :
  Utils.parseChallenge ("Bearer " ++ renderAttributes Examples.challenge) =
    fold_left (fun m kv => <[fst kv := snd kv]> m) Examples.challenge ∅ /\
  Utils.isValidChallenge
    (Utils.parseChallenge ("Bearer " ++ renderAttributes Examples.challenge))
    = true.
Proof.
  destruct (parseChallenge_round_trip Examples.challenge challenge_plain)
    as [E _].
  split; [exact E|]. rewrite E. vm_compute. reflexivity.
Defined.

Lemma parsePart_single_quote_witness :
  Utils.parsePart ∅ ("realm" ++ "=" ++ Utils.quote)
    = <["realm" := Utils.quote]> ∅.
Proof.
  apply (parsePart_single_quote ∅ "realm").
  cbn. repeat split; discriminate.
Defined.

Lemma performUntagging_frame_witness :
  exists b self',
    Deleter.performUntagging Scenarios.reloadTags
      [("sha256:multi", ["v1.0"])] Scenarios.deleterTags = Normal (b, self') /\
    deleted self' = deleted Scenarios.deleterTags /\
    digestUsedBy self' = digestUsedBy Scenarios.deleterTags.
Proof.
  eexists. eexists. split; [vm_compute; reflexivity|].
  destruct (performUntagging_frame Scenarios.reloadTags
              [("sha256:multi", ["v1.0"])] Scenarios.deleterTags _ _
              ltac:(vm_compute; reflexivity))
    as (H1 & H2 & _).
  split; [exact H1 | exact H2].
Defined.

Lemma keepNTagged_counts_matched_tags_witness :
  exists deleteSet filterSet',
    DeletionStrategy.keepNTagged Examples.sortBy (fun _ => Some (fun _ => false)) Scenarios.exact
      Examples.ctxTwoTags ["sha256:only"] = Normal (deleteSet, filterSet') /\
    deleteSet <> [].
Proof.
  destruct (keepNTagged_counts_matched_tags Examples.sortBy sortBy_sorts
              (fun _ => Some (fun _ => false)) Scenarios.exact
              Examples.ctxTwoTags ["sha256:only"] ["v1"; "v2"] 1 "v1,v2"
              eq_refl eq_refl eq_refl)
    as (ds & fs & E & _ & _ & _ & Hmore).
  exists ds, fs. split; [exact E|]. apply Hmore. vm_compute. lia.
Defined.

Lemma reset_deletes_again_witness :
  exists cnt self',
    Deleter.deleteImage (Deleter.reset Scenarios.deleterA) Scenarios.pkgP
      = Some (Normal (cnt, self')) /\
    1 <= imagesDeleted cnt.
Proof.
  destruct (Deleter.deleteImage (Deleter.reset Scenarios.deleterA) Scenarios.pkgP)
    as [[[cnt s]|e]|] eqn:E.
  - exists cnt, s. split; [reflexivity|].
    apply (proj1 (reset_deletes_again Scenarios.deleterA Scenarios.pkgP cnt s E)).
  - vm_compute in E. discriminate.
  - vm_compute in E. discriminate.
Defined.
